(** * movie_collection_rust: the Python Trakt facade and the sync script

    A shallow embedding of [python/trakt_instance.py] and
    [scripts/sync_db.py].  Python text is modelled as [string] (one
    [ascii] per character), dicts as [gmap], sets as [gset], exceptions
    as an error result, and the mutable [TraktInstance] object together
    with the file system and the requests sent to the outside as an
    explicit state. *)

From Stdlib Require Import ZArith Ascii String List Bool Lia.
From Stdlib Require Import DecimalString DecimalZ DecimalPos DecimalN DecimalFacts.
From stdpp Require Import base option list gmap sets strings.

Set Warnings "-register-all".

Local Open Scope string_scope.
Local Open Scope list_scope.

(** ** Python text primitives used by the sources *)

Module PyStr.

(** [str.isspace] on the code points below 256: TAB..CR, FS..US,
    SPACE, NEL and the no-break space. *)
Definition isspace (c : ascii) : bool :=
  let n := nat_of_ascii c in
  (((9 <=? n) && (n <=? 13)) || ((28 <=? n) && (n <=? 31)) || (n =? 32)
   || (n =? 133) || (n =? 160))%nat.

Fixpoint lstrip (s : string) : string :=
  match s with
  | EmptyString => EmptyString
  | String c s' => if isspace c then lstrip s' else s
  end.

Fixpoint rstrip (s : string) : string :=
  match s with
  | EmptyString => EmptyString
  | String c s' =>
      match rstrip s' with
      | EmptyString => if isspace c then EmptyString else String c EmptyString
      | r => String c r
      end
  end.

(** [s.strip()] *)
Definition strip (s : string) : string := lstrip (rstrip s).

(** [s.split(sep)] for a one-character separator: always at least
    one field, empty fields are kept. *)
Fixpoint split (sep : ascii) (s : string) : list string :=
  match s with
  | EmptyString => [EmptyString]
  | String c s' =>
      if Ascii.eqb c sep then EmptyString :: split sep s'
      else match split sep s' with
           | [] => [String c EmptyString]
           | w :: ws => String c w :: ws
           end
  end.

(** [s.replace(a, b)] for one-character [a] and [b]. *)
Fixpoint replace (a b : ascii) (s : string) : string :=
  match s with
  | EmptyString => EmptyString
  | String c s' => String (if Ascii.eqb c a then b else c) (replace a b s')
  end.

Definition LF : ascii := ascii_of_nat 10.
Definition CR : ascii := ascii_of_nat 13.

(** Text-mode reading translates CR LF and a lone CR to LF. *)
Fixpoint universal_newlines (s : string) : string :=
  match s with
  | EmptyString => EmptyString
  | String c s' =>
      if Ascii.eqb c CR then
        match s' with
        | String c' _ =>
            if Ascii.eqb c' LF then universal_newlines s'
            else String LF (universal_newlines s')
        | EmptyString => String LF EmptyString
        end
      else String c (universal_newlines s')
  end.

(** [for line in f]: the lines of a text, each keeping its LF; a
    last line without LF is yielded too, an empty text has no line. *)
Fixpoint readlines (s : string) : list string :=
  match s with
  | EmptyString => []
  | String c s' =>
      if Ascii.eqb c LF then String c EmptyString :: readlines s'
      else match readlines s' with
           | [] => [String c EmptyString]
           | l :: ls => String c l :: ls
           end
  end.

(** ** The same text described by position, as the specification words it *)

(** [sep] occurs in [s]. *)
Fixpoint contains (sep : ascii) (s : string) : bool :=
  match s with
  | EmptyString => false
  | String c s' => Ascii.eqb c sep || contains sep s'
  end.

(** The text before the first [sep] (all of [s] when there is none). *)
Fixpoint before (sep : ascii) (s : string) : string :=
  match s with
  | EmptyString => EmptyString
  | String c s' => if Ascii.eqb c sep then EmptyString else String c (before sep s')
  end.

(** The text after the first [sep] (empty when there is none). *)
Fixpoint after (sep : ascii) (s : string) : string :=
  match s with
  | EmptyString => EmptyString
  | String c s' => if Ascii.eqb c sep then s' else after sep s'
  end.

End PyStr.

(** ** JSON values and the JSON library *)

Module Json.

(** A Python value that JSON can carry; [JNull] is Python's [None]. *)
Inductive json : Type :=
| JNull
| JBool (b : bool)
| JInt (n : Z)
| JStr (s : string)
| JList (l : list json)
| JDict (d : list (string * json)).

(** The JSON library the module imports ([json.dump] and [json.load]
    applied to the text of a file).  It is not code of this repository:
    the program is embedded over any such library, and [load] answers
    [None] where the library raises its decoding error. *)
Class Codec : Type := {
  dump : json -> string;
  load : string -> option json
}.

(** *** A reference library, in the output format of Python's [json] *)

Definition DQUOTE : ascii := ascii_of_nat 34.
Definition BACKSLASH : ascii := ascii_of_nat 92.

Definition hex_digit (n : nat) : ascii :=
  match String.get n "0123456789abcdef" with
  | Some c => c
  | None => "0"%char
  end.

(** One character of a string literal, escaped as [ensure_ascii] does. *)
Definition escape_char (c : ascii) : string :=
  let n := nat_of_ascii c in
  if Ascii.eqb c DQUOTE then String BACKSLASH (String DQUOTE EmptyString)
  else if Ascii.eqb c BACKSLASH then String BACKSLASH (String BACKSLASH EmptyString)
  else if (n =? 10)%nat then "\n"
  else if (n =? 13)%nat then "\r"
  else if (n =? 9)%nat then "\t"
  else if (n =? 8)%nat then "\b"
  else if (n =? 12)%nat then "\f"
  else if ((n <? 32) || (126 <? n))%nat then
    "\u00" +:+ String (hex_digit (n / 16)) (String (hex_digit (n mod 16)) EmptyString)
  else String c EmptyString.

Fixpoint escape (s : string) : string :=
  match s with
  | EmptyString => EmptyString
  | String c s' => escape_char c +:+ escape s'
  end.

Definition quote (s : string) : string :=
  String DQUOTE (escape s +:+ String DQUOTE EmptyString).

Definition dump_int (n : Z) : string :=
  DecimalString.NilZero.string_of_int (Z.to_int n).

Fixpoint ref_dump (v : json) : string :=
  match v with
  | JNull => "null"
  | JBool true => "true"
  | JBool false => "false"
  | JInt n => dump_int n
  | JStr s => quote s
  | JList l =>
      let fix items (l : list json) : string :=
        match l with
        | [] => ""
        | [x] => ref_dump x
        | x :: l' => ref_dump x +:+ ", " +:+ items l'
        end in
      "[" +:+ items l +:+ "]"
  | JDict d =>
      let fix members (d : list (string * json)) : string :=
        match d with
        | [] => ""
        | [(k, x)] => quote k +:+ ": " +:+ ref_dump x
        | (k, x) :: d' => quote k +:+ ": " +:+ ref_dump x +:+ ", " +:+ members d'
        end in
      "{" +:+ members d +:+ "}"
  end.

Definition is_ws (c : ascii) : bool :=
  let n := nat_of_ascii c in
  ((n =? 32) || (n =? 9) || (n =? 10) || (n =? 13))%nat.

Fixpoint skip_ws (s : string) : string :=
  match s with
  | String c s' => if is_ws c then skip_ws s' else s
  | EmptyString => EmptyString
  end.

(** [expect p s]: [s] without its prefix [p]. *)
Fixpoint expect (p s : string) : option string :=
  match p, s with
  | EmptyString, _ => Some s
  | String a p', String b s' => if Ascii.eqb a b then expect p' s' else None
  | String _ _, EmptyString => None
  end.

Definition hex_value (c : ascii) : option nat :=
  let n := nat_of_ascii c in
  if ((48 <=? n) && (n <=? 57))%nat then Some (n - 48)%nat
  else if ((97 <=? n) && (n <=? 102))%nat then Some (n - 87)%nat
  else if ((65 <=? n) && (n <=? 70))%nat then Some (n - 55)%nat
  else None.

(** The body of a string literal up to its closing quote. *)
Fixpoint parse_chars (s : string) : option (string * string) :=
  match s with
  | EmptyString => None
  | String c s' =>
      if Ascii.eqb c DQUOTE then Some (EmptyString, s')
      else if Ascii.eqb c BACKSLASH then
        match s' with
        | String e r =>
            let lit (x : nat) (r : string) :=
              match parse_chars r with
              | Some (t, r') => Some (String (ascii_of_nat x) t, r')
              | None => None
              end in
            if Ascii.eqb e DQUOTE then lit 34%nat r
            else if Ascii.eqb e BACKSLASH then lit 92%nat r
            else if Ascii.eqb e "/" then lit 47%nat r
            else if Ascii.eqb e "n" then lit 10%nat r
            else if Ascii.eqb e "r" then lit 13%nat r
            else if Ascii.eqb e "t" then lit 9%nat r
            else if Ascii.eqb e "b" then lit 8%nat r
            else if Ascii.eqb e "f" then lit 12%nat r
            else if Ascii.eqb e "u" then
              match r with
              | String h1 (String h2 (String h3 (String h4 r4))) =>
                  match hex_value h1, hex_value h2, hex_value h3, hex_value h4 with
                  | Some 0%nat, Some 0%nat, Some a, Some b => lit (16 * a + b)%nat r4
                  | _, _, _, _ => None
                  end
              | _ => None
              end
            else None
        | EmptyString => None
        end
      else if (nat_of_ascii c <? 32)%nat then None
      else match parse_chars s' with
           | Some (t, r') => Some (String c t, r')
           | None => None
           end
  end.

Definition is_digit (c : ascii) : bool :=
  let n := nat_of_ascii c in ((48 <=? n) && (n <=? 57))%nat.

(** The longest prefix of digits, and the rest. *)
Fixpoint span_digits (s : string) : string * string :=
  match s with
  | String c s' =>
      if is_digit c then let '(d, r) := span_digits s' in (String c d, r)
      else (EmptyString, s)
  | EmptyString => (EmptyString, EmptyString)
  end.

Definition parse_int (s : string) : option (Z * string) :=
  let '(sign, body) :=
    match s with
    | String c s' => if Ascii.eqb c "-" then ("-", s') else ("", s)
    | EmptyString => ("", s)
    end in
  let '(digits, rest) := span_digits body in
  match digits with
  | EmptyString => None
  | String d ds =>
      if Ascii.eqb d "0" && negb (String.eqb ds "") then None
      else match DecimalString.NilZero.int_of_string (sign +:+ digits) with
           | Some i => Some (Z.of_int i, rest)
           | None => None
           end
  end.

Fixpoint parse_value (fuel : nat) (s : string) : option (json * string) :=
  match fuel with
  | O => None
  | S fuel =>
      match skip_ws s with
      | EmptyString => None
      | String c r =>
          if Ascii.eqb c "n" then
            match expect "ull" r with Some r' => Some (JNull, r') | None => None end
          else if Ascii.eqb c "t" then
            match expect "rue" r with Some r' => Some (JBool true, r') | None => None end
          else if Ascii.eqb c "f" then
            match expect "alse" r with Some r' => Some (JBool false, r') | None => None end
          else if Ascii.eqb c DQUOTE then
            match parse_chars r with Some (t, r') => Some (JStr t, r') | None => None end
          else if Ascii.eqb c "[" then
            match skip_ws r with
            | String c' r' =>
                if Ascii.eqb c' "]" then Some (JList [], r')
                else match parse_items fuel r with
                     | Some (l, r'') => Some (JList l, r'')
                     | None => None
                     end
            | EmptyString => None
            end
          else if Ascii.eqb c "{" then
            match skip_ws r with
            | String c' r' =>
                if Ascii.eqb c' "}" then Some (JDict [], r')
                else match parse_members fuel r with
                     | Some (d, r'') => Some (JDict d, r'')
                     | None => None
                     end
            | EmptyString => None
            end
          else match parse_int (String c r) with
               | Some (n, r') => Some (JInt n, r')
               | None => None
               end
      end
  end
with parse_items (fuel : nat) (s : string) : option (list json * string) :=
  match fuel with
  | O => None
  | S fuel =>
      match parse_value fuel s with
      | Some (v, r) =>
          match skip_ws r with
          | String c r' =>
              if Ascii.eqb c "," then
                match parse_items fuel r' with
                | Some (l, r'') => Some (v :: l, r'')
                | None => None
                end
              else if Ascii.eqb c "]" then Some ([v], r')
              else None
          | EmptyString => None
          end
      | None => None
      end
  end
with parse_members (fuel : nat) (s : string) : option (list (string * json) * string) :=
  match fuel with
  | O => None
  | S fuel =>
      match skip_ws s with
      | String q r =>
          if Ascii.eqb q DQUOTE then
            match parse_chars r with
            | Some (k, r1) =>
                match skip_ws r1 with
                | String c r2 =>
                    if Ascii.eqb c ":" then
                      match parse_value fuel r2 with
                      | Some (v, r3) =>
                          match skip_ws r3 with
                          | String c' r4 =>
                              if Ascii.eqb c' "," then
                                match parse_members fuel r4 with
                                | Some (d, r5) => Some ((k, v) :: d, r5)
                                | None => None
                                end
                              else if Ascii.eqb c' "}" then Some ([(k, v)], r4)
                              else None
                          | EmptyString => None
                          end
                      | None => None
                      end
                    else None
                | EmptyString => None
                end
            | None => None
            end
          else None
      | EmptyString => None
      end
  end.

Definition ref_load (s : string) : option json :=
  match parse_value (S (String.length s)) s with
  | Some (v, r) =>
      match skip_ws r with
      | EmptyString => Some v
      | String _ _ => None
      end
  | None => None
  end.

Definition reference : Codec := {| dump := ref_dump; load := ref_load |}.

(** The items of a list and the members of a dict as [ref_dump] writes
    them, by name. *)
Fixpoint dump_items (l : list json) : string :=
  match l with
  | [] => ""
  | [x] => ref_dump x
  | x :: l' => ref_dump x +:+ ", " +:+ dump_items l'
  end.

Fixpoint dump_members (d : list (string * json)) : string :=
  match d with
  | [] => ""
  | [(k, x)] => quote k +:+ ": " +:+ ref_dump x
  | (k, x) :: d' => quote k +:+ ": " +:+ ref_dump x +:+ ", " +:+ dump_members d'
  end.

(** Fuel that [parse_value] needs to read a value back. *)
Fixpoint weight (v : json) : nat :=
  match v with
  | JList l =>
      S ((fix go (l : list json) : nat :=
            match l with
            | [] => O
            | x :: l' => S (weight x + go l')
            end) l)
  | JDict d =>
      S ((fix go (d : list (string * json)) : nat :=
            match d with
            | [] => O
            | (_, x) :: d' => S (weight x + go d')
            end) d)
  | _ => 1%nat
  end.

Fixpoint weight_items (l : list json) : nat :=
  match l with
  | [] => O
  | x :: l' => S (weight x + weight_items l')
  end.

Fixpoint weight_members (d : list (string * json)) : nat :=
  match d with
  | [] => O
  | (_, x) :: d' => S (weight x + weight_members d')
  end.

(** [s] does not go on with a digit. *)
Definition no_digit_head (s : string) : bool :=
  match s with
  | String c _ => negb (is_digit c)
  | EmptyString => true
  end.

(** A value written by [ref_dump] and followed by [rest] reads back. *)
Definition reads_back (v : json) : Prop :=
  forall fuel rest,
    (weight v <= fuel)%nat -> no_digit_head rest = true ->
    parse_value fuel (ref_dump v +:+ rest) = Some (v, rest).

(** Induction over a value and, inside it, over its items and members. *)
Section Induction.
Variable P : json -> Prop.
Hypothesis Pnull : P JNull.
Hypothesis Pbool : forall b, P (JBool b).
Hypothesis Pint : forall n, P (JInt n).
Hypothesis Pstr : forall s, P (JStr s).
Hypothesis Plist : forall l, Forall P l -> P (JList l).
Hypothesis Pdict : forall d, Forall (fun kv => P (snd kv)) d -> P (JDict d).

Fixpoint json_nested_ind (v : json) : P v :=
  match v with
  | JNull => Pnull
  | JBool b => Pbool b
  | JInt n => Pint n
  | JStr s => Pstr s
  | JList l =>
      Plist l ((fix go (l : list json) : Forall P l :=
                  match l with
                  | [] => @List.Forall_nil _ P
                  | x :: l' => @List.Forall_cons _ P x l' (json_nested_ind x) (go l')
                  end) l)
  | JDict d =>
      Pdict d ((fix go (d : list (string * json)) : Forall (fun kv => P (snd kv)) d :=
                  match d with
                  | [] => @List.Forall_nil _ _
                  | kv :: d' =>
                      @List.Forall_cons _ (fun kv => P (snd kv)) kv d'
                        (json_nested_ind (snd kv)) (go d')
                  end) d)
  end.

End Induction.

End Json.

(** ** Python control: exceptions and state *)

Module Py.

Inductive exn : Type :=
| FileNotFoundError (path : string)
| KeyError (key : string)
| ValueError
| JSONDecodeError
| TypeError
| AttributeError (name : string)
| UnboundLocalError (name : string)
| RuntimeError.

(** What a call comes to: a value, an exception, or a thread that can
    never go on (it sleeps on a lock or a condition for ever). *)
Inductive result (A : Type) : Type :=
| Ok (a : A)
| Raise (e : exn)
| Blocked.
Arguments Ok {A} a.
Arguments Raise {A} e.
Arguments Blocked {A}.

(** A computation over a mutable state [S]; what was done before an
    exception stays done. *)
Definition M (S A : Type) : Type := S -> result A * S.

Definition ret {S A} (a : A) : M S A := fun s => (Ok a, s).
Definition raise {S A} (e : exn) : M S A := fun s => (Raise e, s).
Definition block {S A} : M S A := fun s => (Blocked, s).
Definition bind {S A B} (c : M S A) (k : A -> M S B) : M S B :=
  fun s =>
    match c s with
    | (Ok a, s') => k a s'
    | (Raise e, s') => (Raise e, s')
    | (Blocked, s') => (Blocked, s')
    end.
Definition get {S} : M S S := fun s => (Ok s, s).
Definition gets {S A} (f : S -> A) : M S A := fun s => (Ok (f s), s).
Definition modify {S} (f : S -> S) : M S unit := fun s => (Ok tt, f s).

(** [d[k]] *)
Definition getitem {S V} (d : gmap string V) (k : string) : M S V :=
  match d !! k with
  | Some v => ret v
  | None => raise (KeyError k)
  end.

(** [for x in xs: acc = body(acc, x)] *)
Fixpoint for_each {S A B} (xs : list A) (acc : B) (body : B -> A -> M S B) : M S B :=
  match xs with
  | [] => ret acc
  | x :: xs' => bind (body acc x) (fun acc' => for_each xs' acc' body)
  end.

(** [n] times [body], as long as it answers [true]; tells whether all did. *)
Fixpoint repeat_while {S} (n : nat) (body : M S bool) : M S bool :=
  match n with
  | O => ret true
  | S n' => bind body (fun go => if go then repeat_while n' body else ret false)
  end.

End Py.

Declare Scope py_scope.
Delimit Scope py_scope with py.
Notation "x <- c ;; k" := (Py.bind c (fun x => k))
  (at level 100, c at next level, right associativity) : py_scope.
Notation "c ;;; k" := (Py.bind c (fun _ => k))
  (at level 100, right associativity) : py_scope.

(** ** python/trakt_instance.py *)

Module Trakt.
Import PyStr Json Py.
Local Open Scope py_scope.

(** Threads: the ones that call into the instance, and the poller
    thread that the handshake of such a thread starts. *)
Inductive thread : Type :=
| Main (n : nat)
| PollerOf (n : nat).

Definition poller_of (t : thread) : thread :=
  match t with Main n => PollerOf n | PollerOf n => PollerOf (S n) end.

Definition thread_eqb (a b : thread) : bool :=
  match a, b with
  | Main n, Main m => Nat.eqb n m
  | PollerOf n, PollerOf m => Nat.eqb n m
  | _, _ => false
  end.

(** [threading.Condition()]: a re-entrant lock (who holds it, and how
    many times) and the threads asleep in [wait()]. *)
Record Condition : Type := {
  owner : option (thread * nat);
  waiters : list thread
}.

Definition new_condition : Condition := {| owner := None; waiters := [] |}.

(** How a device poller ends, and what it was made to do before. *)
Inductive terminal : Type :=
| Aborted
| Authenticated (authorization : json)
| Expired.

Record poller_script : Type := {
  ticks : nat;
  outcome : terminal
}.

(** A show, movie or episode object of the client library. *)
Record media : Type := {
  get_key_imdb : option string;
  to_dict : json
}.

(** What [Trakt['search'].lookup] answers. *)
Inductive found : Type :=
| NoneFound
| One (m : media)
| Many (l : list media).

(** The remote service behind the client library: its answers. *)
Record TraktService : Type := {
  device_code : option (list (string * json));
  device_poll : poller_script;
  search_lookup : string -> found;
  search_query : string -> string -> option (list media);
  shows_episode : option string -> Z -> Z -> option media;
  shows_season : option string -> Z -> option (list media);
  watchlist_add : json -> json;
  history_add : json -> json
}.

(** The values [show_obj] takes. *)
Inductive pyobj : Type :=
| PNone
| PMedia (m : media)
| PList (l : list media)
| PDict (d : list (option string * json)).

Inductive msg : Type :=
| AlreadyStarted
| EnterCode (user_code verification_url : json)
| AuthAborted
| AuthSuccessful (authorization : json)
| AuthExpired
| TokenRefreshed (authorization : json)
| Shown (o : pyobj).

(** What the process does to the outside, file writes apart. *)
Inductive action : Type :=
| Print (m : msg)
| Configure (id secret : string)
| BindEvent (name : string)
| OAuthDeviceCode
| PollerStart (code : list (string * json))
| PollCallback (continue : bool)
| SearchLookup (id : string)
| SearchQuery (query media_kind : string)
| ShowsEpisode (imdb : option string) (season episode : Z)
| ShowsSeason (imdb : option string) (season : Z)
| WatchlistAdd (items : json)
| HistoryAdd (items : json).

Record world : Type := {
  files : gmap string string;
  HOME : option string;
  service : TraktService;
  log : list action
}.

Record TraktInstance : Type := {
  username : string;
  client_id : string;
  client_secret : string;
  is_authenticating : Condition;
  authorization : json
}.

Record state : Type := {
  env : world;
  self : TraktInstance
}.

Definition set_files (f : gmap string string) (w : world) : world :=
  {| files := f; HOME := HOME w; service := service w; log := log w |}.
Definition set_log (l : list action) (w : world) : world :=
  {| files := files w; HOME := HOME w; service := service w; log := l |}.
Definition set_authorization (a : json) (i : TraktInstance) : TraktInstance :=
  {| username := username i; client_id := client_id i; client_secret := client_secret i;
     is_authenticating := is_authenticating i; authorization := a |}.
Definition set_is_authenticating (c : Condition) (i : TraktInstance) : TraktInstance :=
  {| username := username i; client_id := client_id i; client_secret := client_secret i;
     is_authenticating := c; authorization := authorization i |}.
Definition set_env (w : world) (s : state) : state := {| env := w; self := self s |}.
Definition set_self (i : TraktInstance) (s : state) : state := {| env := env s; self := i |}.

(** A computation on the world alone, run inside a method. *)
Definition lift {A} (c : M world A) : M state A :=
  fun s => let '(r, w) := c (env s) in (r, set_env w s).

(** A method run on a given instance, from outside. *)
Definition call {A} (i : TraktInstance) (c : M state A) : M world (A * TraktInstance) :=
  fun w =>
    match c {| env := w; self := i |} with
    | (Ok a, s) => (Ok (a, self s), env s)
    | (Raise e, s) => (Raise e, env s)
    | (Blocked, s) => (Blocked, env s)
    end.

Definition emit (a : action) : M world unit :=
  modify (fun w => set_log (log w ++ [a]) w).

Definition print (m : msg) : M world unit := emit (Print m).

(** ['%s' % os.getenv('HOME')] *)
Definition fmt_s (o : option string) : string :=
  match o with Some s => s | None => "None" end.

Definition credentials_path (w : world) : string := fmt_s (HOME w) +:+ "/.trakt/credentials".
Definition auth_token (w : world) : string := fmt_s (HOME w) +:+ "/.trakt/auth_token.json".

(** [open(path).read()] in text mode. *)
Definition read_text (path : string) : M world string :=
  fun w =>
    match files w !! path with
    | Some content => (Ok (universal_newlines content), w)
    | None => (Raise (FileNotFoundError path), w)
    end.

(** [open(path, 'w')] and one write of [content]. *)
Definition write_text (path content : string) : M world unit :=
  modify (fun w => set_files (<[path := content]> (files w)) w).

(** [d.get(k)] on a dict with string keys. *)
Fixpoint dict_get (k : string) (d : list (string * json)) : json :=
  match d with
  | [] => JNull
  | (k', v) :: d' => if String.eqb k k' then v else dict_get k d'
  end.

Definition read_credentials : M world (gmap string string) :=
  path <- gets credentials_path ;;
  f <- read_text path ;;
  for_each (readlines f) ∅ (fun credentials line =>
    let tmp := split "=" line in
    if (1 <? length tmp)%nat then
      match take 2 (strip <$> tmp) with
      | [key; val] => ret (<[key := val]> credentials)
      | _ => raise ValueError
      end
    else ret credentials).

(** The credentials as the specification words them: a line with an
    equals sign gives the stripped text before the first sign as key
    and the stripped text between the first and the second sign (or
    the end of the line) as value; other lines give nothing. *)
Definition credential_key (line : string) : string :=
  strip (before "=" line).
Definition credential_value (line : string) : string :=
  strip (before "=" (after "=" line)).
Definition credentials_of (lines : list string) : gmap string string :=
  foldl (fun d line =>
           if contains "=" line
           then <[credential_key line := credential_value line]> d
           else d) ∅ lines.

(** *** The condition variable, as the thread [t] uses it *)

Definition cond : M state Condition := gets (fun s => is_authenticating (self s)).
Definition set_cond (c : Condition) : M state unit :=
  modify (fun s => set_self (set_is_authenticating c (self s)) s).

(** [acquire(blocking=False)] *)
Definition acquire_nonblocking (t : thread) : M state bool :=
  c <- cond ;;
  match owner c with
  | None => set_cond {| owner := Some (t, 1%nat); waiters := waiters c |} ;;; ret true
  | Some (t', n) =>
      if thread_eqb t t'
      then set_cond {| owner := Some (t, S n); waiters := waiters c |} ;;; ret true
      else ret false
  end.

(** [acquire()]: a thread that finds the lock taken by another sleeps. *)
Definition acquire (t : thread) : M state unit :=
  got <- acquire_nonblocking t ;;
  if got then ret tt else block.

(** [release()] *)
Definition release (t : thread) : M state unit :=
  c <- cond ;;
  match owner c with
  | Some (t', n) =>
      if thread_eqb t t' then
        set_cond {| owner := match n with
                             | S (S m) => Some (t, S m)
                             | _ => None
                             end;
                    waiters := waiters c |}
      else raise RuntimeError
  | None => raise RuntimeError
  end.

(** [notify_all()] *)
Definition notify_all (t : thread) : M state unit :=
  c <- cond ;;
  match owner c with
  | Some (t', _) =>
      if thread_eqb t t' then set_cond {| owner := owner c; waiters := [] |}
      else raise RuntimeError
  | None => raise RuntimeError
  end.

(** The first half of [wait()]: give the lock up whole and fall asleep. *)
Definition wait_sleep (t : thread) : M state nat :=
  c <- cond ;;
  match owner c with
  | Some (t', n) =>
      if thread_eqb t t' then
        set_cond {| owner := None; waiters := waiters c ++ [t] |} ;;; ret n
      else raise RuntimeError
  | None => raise RuntimeError
  end.

(** The second half of [wait()]: once notified, take the lock back as
    many times as it was held; [wait()] without timeout answers [True]. *)
Definition wait_wake (t : thread) (saved : nat) : M state bool :=
  c <- cond ;;
  if existsb (thread_eqb t) (waiters c) then block
  else match owner c with
       | None => set_cond {| owner := Some (t, saved); waiters := waiters c |} ;;; ret true
       | Some _ => block
       end.

(** *** Searching, and adding to the watchlist and the history *)

(** Truth of an argument that is [None] or a [str]. *)
Definition truthy_str (o : option string) : bool :=
  match o with
  | Some s => negb (String.eqb s "")
  | None => false
  end.

(** Truth of an argument that is [None] or an [int]. *)
Definition truthy_int (o : option Z) : bool :=
  match o with
  | Some z => negb (Z.eqb z 0)
  | None => false
  end.

Definition option_string_eqb (a b : option string) : bool :=
  match a, b with
  | Some x, Some y => String.eqb x y
  | None, None => true
  | _, _ => false
  end.

(** [d[k] = v] on a dict kept in insertion order. *)
Fixpoint dict_set (k : option string) (v : json) (d : list (option string * json))
  : list (option string * json) :=
  match d with
  | [] => [(k, v)]
  | (k', v') :: d' =>
      if option_string_eqb k k' then (k, v) :: d' else (k', v') :: dict_set k v d'
  end.

Definition as_obj (f : found) : pyobj :=
  match f with
  | NoneFound => PNone
  | One m => PMedia m
  | Many l => PList l
  end.

Definition do_lookup (imdb_id : string) : M state pyobj :=
  lift (emit (SearchLookup imdb_id)) ;;;
  reply <- gets (fun s => search_lookup (service (env s)) imdb_id) ;;
  ret (as_obj reply).

Definition do_query (show media_kind : string) : M state pyobj :=
  let query := replace "_" " " show in
  lift (emit (SearchQuery query media_kind)) ;;;
  reply <- gets (fun s => search_query (service (env s)) query media_kind) ;;
  match reply with
  | None => raise TypeError
  | Some shows =>
      ret (PDict (foldl (fun d s => dict_set (get_key_imdb s) (to_dict s) d) [] shows))
  end.

(** The opening [if imdb_id: ... elif show: ...] of the methods below;
    [None] when neither branch ran and [show_obj] was never bound. *)
Definition lookup_or_query (show imdb_id : option string) : M state (option pyobj) :=
  if truthy_str imdb_id then
    o <- do_lookup (default "" imdb_id) ;; ret (Some o)
  else if truthy_str show then
    o <- do_query (default "" show) "show" ;; ret (Some o)
  else ret None.

Definition sync_watchlist_add (items : json) : M state json :=
  lift (emit (WatchlistAdd items)) ;;;
  gets (fun s => watchlist_add (service (env s)) items).

Definition sync_history_add (items : json) : M state json :=
  lift (emit (HistoryAdd items)) ;;;
  gets (fun s => history_add (service (env s)) items).

Definition add_show_to_watchlist (show imdb_id : option string) : M state json :=
  bound <- lookup_or_query show imdb_id ;;
  match bound with
  | None => raise (UnboundLocalError "show_obj")
  | Some show_obj =>
      let add (show_obj : pyobj) : M state json :=
        match show_obj with
        | PNone => ret (JDict [])
        | PMedia m => sync_watchlist_add (JDict [("shows", JList [to_dict m])])
        | PList _ | PDict _ => raise (AttributeError "to_dict")
        end in
      match show_obj with
      | PList l =>
          match l with
          | [] => ret (JDict [])
          | first :: _ => add (PMedia first)
          end
      | _ => add show_obj
      end
  end.

Definition add_episode_to_watched (show imdb_id : option string) (season episode : option Z)
  : M state json :=
  bound <- lookup_or_query show imdb_id ;;
  match bound with
  | None => raise (UnboundLocalError "show_obj")
  | Some show_obj =>
      let add (show_obj : pyobj) : M state json :=
        let get_key (k : option string -> M state json) : M state json :=
          match show_obj with
          | PMedia m => k (get_key_imdb m)
          | _ => raise (AttributeError "get_key")
          end in
        if truthy_int season && truthy_int episode then
          lift (print (Shown show_obj)) ;;;
          get_key (fun imdb =>
            lift (emit (ShowsEpisode imdb (default 0%Z season) (default 0%Z episode))) ;;;
            episode_ <- gets (fun s => shows_episode (service (env s)) imdb
                                         (default 0%Z season) (default 0%Z episode)) ;;
            match episode_ with
            | None => ret (JDict [])
            | Some e => sync_history_add (JDict [("episodes", JList [to_dict e])])
            end)
        else if truthy_int season then
          get_key (fun imdb =>
            lift (emit (ShowsSeason imdb (default 0%Z season))) ;;;
            episodes <- gets (fun s => shows_season (service (env s)) imdb (default 0%Z season)) ;;
            match episodes with
            | None | Some [] => ret (JDict [])
            | Some es => sync_history_add (JDict [("episodes", JList (to_dict <$> es))])
            end)
        else ret JNull in
      match show_obj with
      | PNone => ret (JDict [])
      | PList l =>
          match l with
          | [] => ret (JDict [])
          | first :: _ => add (PMedia first)
          end
      | _ => add show_obj
      end
  end.

(** *** Methods of [TraktInstance] *)

Section WithCodec.
Context {codec : Codec}.

Definition store_auth : M state unit :=
  path <- gets (fun s => auth_token (env s)) ;;
  a <- gets (fun s => authorization (self s)) ;;
  lift (write_text path (dump a)).

Definition read_auth : M world json :=
  path <- gets auth_token ;;
  fs <- gets files ;;
  match fs !! path with
  | None => ret JNull
  | Some content =>
      match load (universal_newlines content) with
      | Some v => ret v
      | None => raise JSONDecodeError
      end
  end.

Definition on_aborted (t : thread) : M state unit :=
  lift (print AuthAborted) ;;;
  acquire t ;;;
  notify_all t ;;;
  release t.

Definition on_authenticated (t : thread) (authorization' : json) : M state unit :=
  acquire t ;;;
  modify (fun s => set_self (set_authorization authorization' (self s)) s) ;;;
  a <- gets (fun s => authorization (self s)) ;;
  lift (print (AuthSuccessful a)) ;;;
  notify_all t ;;;
  release t.

Definition on_expired (t : thread) : M state unit :=
  lift (print AuthExpired) ;;;
  acquire t ;;;
  notify_all t ;;;
  release t.

Definition on_poll {A} (callback : bool -> M state A) : M state A :=
  callback true.

Definition on_token_refreshed (authorization' : json) : M state unit :=
  modify (fun s => set_self (set_authorization authorization' (self s)) s) ;;;
  a <- gets (fun s => authorization (self s)) ;;
  lift (print (TokenRefreshed a)).

(** The poller thread [t] of the client library, with the handlers
    [authenticate] gives it: on each tick it emits [poll] with a
    callback and goes on if the callback is given [True], aborts if
    [False]; at the end it emits its terminal event. *)
Definition poll_callback (continue : bool) : M state bool :=
  lift (emit (PollCallback continue)) ;;; ret continue.

Definition run_poller (t : thread) (p : poller_script) : M state unit :=
  go <- repeat_while (ticks p) (on_poll poll_callback) ;;
  if go then
    match outcome p with
    | Aborted => on_aborted t
    | Authenticated a => on_authenticated t a
    | Expired => on_expired t
    end
  else on_aborted t.

(** [wait()] as the one caller of a handshake lives it: asleep while
    its poller runs to the end, then awake with the lock. *)
Definition wait (t : thread) : M state bool :=
  saved <- wait_sleep t ;;
  p <- gets (fun s => device_poll (service (env s))) ;;
  run_poller (poller_of t) p ;;;
  wait_wake t saved.

Definition authenticate (t : thread) : M state bool :=
  acquired <- acquire_nonblocking t ;;
  if negb acquired then
    lift (print AlreadyStarted) ;;;
    ret false
  else
    lift (emit OAuthDeviceCode) ;;;
    reply <- gets (fun s => device_code (service (env s))) ;;
    match reply with
    | None => raise (AttributeError "get")
    | Some code =>
        lift (print (EnterCode (dict_get "user_code" code)
                               (dict_get "verification_url" code))) ;;;
        lift (emit (PollerStart code)) ;;;
        result <- wait t ;;
        store_auth ;;;
        ret result
    end.

Definition __init__ (t : thread) (username' : string) : M world TraktInstance :=
  credentials <- read_credentials ;;
  id <- getitem credentials "client_id" ;;
  secret <- getitem credentials "client_secret" ;;
  emit (Configure id secret) ;;;
  emit (BindEvent "oauth.token_refreshed") ;;;
  a <- read_auth ;;
  let self0 := {| username := username'; client_id := id; client_secret := secret;
                  is_authenticating := new_condition; authorization := a |} in
  match a with
  | JNull =>
      r <- call self0 (authenticate t) ;;
      ret (snd r)
  | _ => ret self0
  end.

(** *** What a handshake leaves behind, written out *)

(** The lock is free for [t]: nobody holds it, or [t] itself does. *)
Definition can_acquire (t : thread) (c : Condition) : bool :=
  match owner c with
  | None => true
  | Some (t', _) => thread_eqb t t'
  end.

(** The condition once [t] has gone through [authenticate]: [t] holds
    the lock once more than before, and nobody sleeps. *)
Definition held_by (t : thread) (c : Condition) : Condition :=
  {| owner := Some (t, match owner c with Some (_, n) => S n | None => 1%nat end);
     waiters := [] |}.

Definition terminal_prints (o : terminal) : list action :=
  match o with
  | Aborted => [Print AuthAborted]
  | Authenticated a => [Print (AuthSuccessful a)]
  | Expired => [Print AuthExpired]
  end.

Definition terminal_authorization (o : terminal) (old : json) : json :=
  match o with
  | Authenticated a => a
  | _ => old
  end.

Definition handshake_log (code : list (string * json)) (p : poller_script) : list action :=
  [OAuthDeviceCode;
   Print (EnterCode (dict_get "user_code" code) (dict_get "verification_url" code));
   PollerStart code]
  ++ replicate (ticks p) (PollCallback true)
  ++ terminal_prints (outcome p).

Definition after_handshake (t : thread) (code : list (string * json)) (s : state) : state :=
  let p := device_poll (service (env s)) in
  let a := terminal_authorization (outcome p) (authorization (self s)) in
  {| env := {| files := <[auth_token (env s) := dump a]> (files (env s));
               HOME := HOME (env s);
               service := service (env s);
               log := log (env s) ++ handshake_log code p |};
     self := {| username := username (self s);
                client_id := client_id (self s);
                client_secret := client_secret (self s);
                is_authenticating := held_by t (is_authenticating (self s));
                authorization := a |} |}.

End WithCodec.

(** The world once [__init__] has configured the client, and the
    instance it builds around an authorization. *)
Definition configured (id secret : string) (w : world) : world :=
  set_log (log w ++ [Configure id secret; BindEvent "oauth.token_refreshed"]) w.

Definition fresh_instance (username' id secret : string) (a : json) : TraktInstance :=
  {| username := username'; client_id := id; client_secret := secret;
     is_authenticating := new_condition; authorization := a |}.

(** How many device codes were asked for, and how many pollers started. *)
Definition count_codes (l : list action) : nat :=
  length (List.filter (fun a => match a with OAuthDeviceCode => true | _ => false end) l).

Definition count_pollers (l : list action) : nat :=
  length (List.filter (fun a => match a with PollerStart _ => true | _ => false end) l).

Definition count_adds (l : list action) : nat :=
  length (List.filter (fun a => match a with
                                | WatchlistAdd _ | HistoryAdd _ => true
                                | _ => false
                                end) l).

End Trakt.

(** ** Several threads inside [authenticate] at once *)

Module Handshake.
Import PyStr Json Py Trakt.
Local Open Scope py_scope.

(** Where a thread stands inside [authenticate]. *)
Inductive pc : Type :=
| Entry
| Acquired
| HaveCode (code : list (string * json))
| Started
| Asleep (saved : nat)
| Awake (result : bool)
| Returned (result : bool).

(** Past the lock acquisition and not yet back. *)
Definition in_handshake (p : pc) : bool :=
  match p with
  | Entry | Returned _ => false
  | _ => true
  end.

(** A state, field by field: what stays put first, what a handshake
    moves last. *)
Definition state_of (f : gmap string string) (h : option string) (sv : TraktService)
    (u ci cs : string)
    (l : list action) (o : option (thread * nat)) (ws : list thread) (a : json)
  : state :=
  {| env := {| files := f; HOME := h; service := sv; log := l |};
     self := {| username := u; client_id := ci; client_secret := cs;
                is_authenticating := {| owner := o; waiters := ws |};
                authorization := a |} |}.

Section WithCodec.
Context {codec : Codec}.

(** The next statement of [authenticate] for thread [t] standing at [p]. *)
Definition step (t : thread) (p : pc) : M state pc :=
  match p with
  | Entry =>
      acquired <- acquire_nonblocking t ;;
      if negb acquired then
        lift (print AlreadyStarted) ;;;
        ret (Returned false)
      else ret Acquired
  | Acquired =>
      lift (emit OAuthDeviceCode) ;;;
      reply <- gets (fun s => device_code (service (env s))) ;;
      match reply with
      | None => raise (AttributeError "get")
      | Some code =>
          lift (print (EnterCode (dict_get "user_code" code)
                                 (dict_get "verification_url" code))) ;;;
          ret (HaveCode code)
      end
  | HaveCode code =>
      lift (emit (PollerStart code)) ;;;
      ret Started
  | Started =>
      saved <- wait_sleep t ;;
      ret (Asleep saved)
  | Asleep saved =>
      result <- wait_wake t saved ;;
      ret (Awake result)
  | Awake result =>
      store_auth ;;;
      ret (Returned result)
  | Returned _ => block
  end.

(** The threads [Main n] that called [authenticate] on one instance,
    and the state they share. *)
Record system : Type := {
  shared : state;
  at_pc : gmap nat pc
}.

Definition pc_of (n : nat) (sy : system) : pc := default Entry (at_pc sy !! n).

(** One move of the scheduler: thread [Main n] runs its next
    statement, or the poller that [Main n] started runs to its end. *)
Inductive move : Type :=
| Step (n : nat)
| Poll (n : nat).

Definition run1 (m : move) (sy : system) : option system :=
  match m with
  | Step n =>
      match step (Main n) (pc_of n sy) (shared sy) with
      | (Ok p, s) => Some {| shared := s; at_pc := <[n := p]> (at_pc sy) |}
      | _ => None
      end
  | Poll n =>
      match pc_of n sy with
      | Asleep _ =>
          match run_poller (poller_of (Main n)) (device_poll (service (env (shared sy))))
                           (shared sy) with
          | (Ok _, s) => Some {| shared := s; at_pc := at_pc sy |}
          | _ => None
          end
      | _ => None
      end
  end.

Fixpoint run (ms : list move) (sy : system) : option system :=
  match ms with
  | [] => Some sy
  | m :: ms' =>
      match run1 m sy with
      | Some sy' => run ms' sy'
      | None => None
      end
  end.

(** The schedule of a handshake that nobody disturbs. *)
Definition alone (n : nat) : list move :=
  [Step n; Step n; Step n; Step n; Poll n; Step n; Step n].

End WithCodec.

End Handshake.

(** ** scripts/sync_db.py *)

Module SyncDb.
Import Json Py.
Local Open Scope py_scope.

Definition entry_map : gmap string string :=
  <["movie_queue" := "queue"]>
    (<["movie_collection" := "collection"]>
       (<["imdb_ratings" := "shows"]>
          (<["imdb_episodes" := "episodes"]> ∅))).

Definition dry_run : bool := true.

(** The two services: [endpoint0] and [endpoint1]. *)
Inductive side : Type :=
| Endpoint0
| Endpoint1.

Definition endpoint (e : side) : string :=
  match e with
  | Endpoint0 => "https://www.ddboline.net"
  | Endpoint1 => "https://cloud.ddboline.net"
  end.

(** What one service answers: its [/list/last_modified] rows (table,
    last_modified), its rows of a table since a timestamp, and the
    status and text of its answer to a post. *)
Record server : Type := {
  last_modified : list (string * string);
  list_since : string -> string -> json;
  post_reply : string -> json -> Z * string
}.

(** What the script sends and prints, in the order it does. *)
Inductive event : Type :=
| PostAuth (e : side)
| GetLastModified (e : side)
| GetList (e : side) (table start_timestamp : string)
| PostList (e : side) (table : string) (body : json)
| PrintTable (table : string)
| PrintMods (mod0 mod1 : string)
| PrintEndpoint (e : side) (table start_timestamp : string)
| PrintReply (status : Z) (text : string).

Definition send (ev : event) : M (list event) unit :=
  modify (fun l => l ++ [ev]).

(** [{x['table']: x['last_modified'] for x in rows}] *)
Definition by_table (rows : list (string * string)) : gmap string string :=
  foldl (fun d row => <[fst row := snd row]> d) ∅ rows.

(** [a > b] on timestamps, which the services send as text. *)
Definition gt (a b : string) : bool := String.ltb b a.

(** One direction of the loop body: [src] is ahead of [dst]. *)
Definition transfer (dry_run : bool) (src dst : side) (from : server) (to : server)
    (table since : string) : M (list event) unit :=
  send (PrintEndpoint src table since) ;;;
  send (GetList src table since) ;;;
  let resp := list_since from table since in
  if negb dry_run then
    key <- getitem entry_map table ;;
    let js := JDict [(key, resp)] in
    send (PostList dst table js) ;;;
    let reply := post_reply to table js in
    send (PrintReply (fst reply) (snd reply))
  else ret tt.

(** The body of [for table in tables]. *)
Definition sync_table (dry_run : bool) (srv0 srv1 : server)
    (last_modified0 last_modified1 : gmap string string) (table : string)
  : M (list event) unit :=
  send (PrintTable table) ;;;
  mod0 <- getitem last_modified0 table ;;
  mod1 <- getitem last_modified1 table ;;
  send (PrintMods mod0 mod1) ;;;
  (if gt mod0 mod1 then transfer dry_run Endpoint0 Endpoint1 srv0 srv1 table mod1
   else ret tt) ;;;
  (if gt mod1 mod0 then transfer dry_run Endpoint1 Endpoint0 srv1 srv0 table mod0
   else ret tt).

(** [sync_db] with the module's flag given. *)
Definition sync_db_with (dry_run : bool) (srv0 srv1 : server) : M (list event) unit :=
  send (PostAuth Endpoint0) ;;;
  send (PostAuth Endpoint1) ;;;
  send (GetLastModified Endpoint0) ;;;
  send (GetLastModified Endpoint1) ;;;
  let last_modified0 := by_table (last_modified srv0) in
  let last_modified1 := by_table (last_modified srv1) in
  let tables : gset string := dom last_modified0 ∩ dom last_modified1 in
  for_each (elements tables) tt (fun _ table =>
    sync_table dry_run srv0 srv1 last_modified0 last_modified1 table).







Definition preamble : list event :=
  [PostAuth Endpoint0; PostAuth Endpoint1;
   GetLastModified Endpoint0; GetLastModified Endpoint1].

End SyncDb.

(** ** Sample worlds and services *)

Module Samples.
Import PyStr Json Py Trakt.

Definition nobody : TraktService := {|
  device_code := Some [("user_code", JStr "ABCD1234");
                       ("verification_url", JStr "https://trakt.tv/activate")];
  device_poll := {| ticks := 2; outcome := Aborted |};
  search_lookup := fun _ => NoneFound;
  search_query := fun _ _ => Some [];
  shows_episode := fun _ _ _ => None;
  shows_season := fun _ _ => None;
  watchlist_add := fun _ => JDict [("added", JInt 1)];
  history_add := fun _ => JDict [("added", JInt 1)]
|}.

Definition with_poll (p : poller_script) (sv : TraktService) : TraktService := {|
  device_code := device_code sv;
  device_poll := p;
  search_lookup := search_lookup sv;
  search_query := search_query sv;
  shows_episode := shows_episode sv;
  shows_season := shows_season sv;
  watchlist_add := watchlist_add sv;
  history_add := history_add sv
|}.

Definition credentials_text : string :=
  "# trakt" +:+ String LF (
  "client_id = abc=def" +:+ String LF (
  "client_secret=  s3cret " +:+ String LF (
  "client_id=xyz"))).

Definition home_files : gmap string string :=
  <["/home/u/.trakt/credentials" := credentials_text]> ∅.

Definition fresh_home (sv : TraktService) : world := {|
  files := home_files;
  HOME := Some "/home/u";
  service := sv;
  log := []
|}.

Definition idle (a : json) : TraktInstance := {|
  username := "ddboline";
  client_id := "xyz";
  client_secret := "s3cret";
  is_authenticating := new_condition;
  authorization := a
|}.

Definition at_rest (sv : TraktService) (a : json) : state :=
  {| env := fresh_home sv; self := idle a |}.

Definition token : json :=
  JDict [("access_token", JStr "tok1"); ("refresh_token", JStr "ref1");
         ("expires_in", JInt 7776000); ("scope", JStr "public")].

Definition newer_token : json :=
  JDict [("access_token", JStr "tok2"); ("refresh_token", JStr "ref2");
         ("expires_in", JInt 7776000); ("scope", JStr "public")].

Definition approving : TraktService :=
  with_poll {| ticks := 3; outcome := Authenticated token |} nobody.

Definition expiring : TraktService :=
  with_poll {| ticks := 1; outcome := Expired |} nobody.

(** A home whose token file holds [text]. *)
Definition home_with_token (text : string) (sv : TraktService) : world := {|
  files := <["/home/u/.trakt/auth_token.json" := text]> home_files;
  HOME := Some "/home/u";
  service := sv;
  log := []
|}.

Definition www : SyncDb.server := {|
  SyncDb.last_modified :=
    [("movie_queue", "2024-02-01T00:00:00Z");
     ("imdb_ratings", "2024-01-01T00:00:00Z");
     ("plex_event", "2024-03-01T00:00:00Z")];
  SyncDb.list_since := fun table since => JList [JStr table; JStr since];
  SyncDb.post_reply := fun _ _ => (200%Z, "ok")
|}.

Definition cloud : SyncDb.server := {|
  SyncDb.last_modified :=
    [("movie_queue", "2024-01-15T00:00:00Z");
     ("imdb_ratings", "2024-01-01T00:00:00Z");
     ("music_key", "2024-03-01T00:00:00Z")];
  SyncDb.list_since := fun table since => JList [JStr table; JStr since];
  SyncDb.post_reply := fun _ _ => (200%Z, "ok")
|}.

End Samples.

(** ** python/trakt_instance.py: the reading, removing and serving methods *)

Module Facade.
Import PyStr Json Py Trakt.
Local Open Scope py_scope.

(** A show or movie of the watchlist or of the watched history:
    [x.title], [x.get_key('imdb')], [x.year], and the keys
    (season, episode) that [x.episodes()] yields. *)
Record show : Type := {
  title : json;
  key_imdb : option string;
  year : option Z;
  episodes : list (Z * Z)
}.

(** An episode of the calendar: its show's title and imdb key, its
    [pk], the day it first airs (the ordinal of
    [first_aired.date()], [None] when there is no [first_aired]), and
    its own imdb key. *)
Record cal_episode : Type := {
  ep_show_title : json;
  ep_show_imdb : option string;
  pk : Z * Z;
  first_aired : option Z;
  ep_imdb : option string
}.

(** What the remote service answers to the calls of this part, and
    the day it is ([datetime.date.today()] as an ordinal). *)
Record TraktReads : Type := {
  sync_watchlist_shows : option (list show);
  sync_watched_shows : option (list show);
  sync_watched_movies : option (list show);
  calendars_my : option (list cal_episode);
  watchlist_remove : json -> json;
  history_remove : json -> json;
  today : Z
}.

(** The calls and prints of this part, in the order they are made. *)
Inductive call : Type :=
| WatchlistShows
| WatchedShows
| WatchedMovies
| CalendarGet
| WatchlistRemove (items : json)
| HistoryRemove (items : json)
| Printed (o : pyobj)
| PrintedEpisodes (l : list json).

Record session : Type := {
  inner : state;
  reads : TraktReads;
  calls : list call
}.

(** A method of the first part, run inside this one. *)
Definition inside {A} (c : M state A) : M session A :=
  fun s =>
    let '(r, st) := c (inner s) in
    (r, {| inner := st; reads := reads s; calls := calls s |}).

Definition note (c : call) : M session unit :=
  modify (fun s => {| inner := inner s; reads := reads s; calls := calls s ++ [c] |}).

(** The part of [datetime] the methods use, on ordinals of days. *)
Class Calendar : Type := {
  year_of : Z -> Z;
  isoformat : Z -> string
}.

(** A [str] or [None] as a value. *)
Definition py_str (o : option string) : json :=
  match o with
  | Some x => JStr x
  | None => JNull
  end.

(** Truth of a value. *)
Definition truthy (v : json) : bool :=
  match v with
  | JNull => false
  | JBool b => b
  | JInt n => negb (Z.eqb n 0)
  | JStr x => negb (String.eqb x "")
  | JList l => match l with [] => false | _ => true end
  | JDict d => match d with [] => false | _ => true end
  end.

Section WithCalendar.
Context {calendar : Calendar}.

Definition watchlist_row (today' : Z) (x : show) : json :=
  JDict [("link", py_str (key_imdb x));
         ("title", title x);
         ("year", JInt (match year x with
                        | Some y => y
                        | None => year_of today'
                        end))].

Definition get_watchlist_shows : M session (list json) :=
  note WatchlistShows ;;;
  shows <- gets (fun s => sync_watchlist_shows (reads s)) ;;
  match shows with
  | None => ret []
  | Some xs =>
      d <- gets (fun s => today (reads s)) ;;
      ret (watchlist_row d <$> xs)
  end.

Definition watched_episode_row (x : show) (key : Z * Z) : json :=
  JDict [("title", title x);
         ("imdb_url", py_str (key_imdb x));
         ("season", JInt (fst key));
         ("episode", JInt (snd key))].

(** [imdb_id is not None and imdb_url != imdb_id] *)
Definition skipped (imdb_id : option string) (x : show) : bool :=
  match imdb_id with
  | None => false
  | Some _ => negb (option_string_eqb (key_imdb x) imdb_id)
  end.

Definition get_watched_shows (imdb_id : option string) : M session (list json) :=
  note WatchedShows ;;;
  watched <- gets (fun s => sync_watched_shows (reads s)) ;;
  match watched with
  | None => ret []
  | Some xs =>
      for_each xs [] (fun results x =>
        if skipped imdb_id x then ret results
        else ret (results ++ (watched_episode_row x <$> episodes x)))
  end.

Definition watched_movie_row (x : show) : json :=
  JDict [("title", title x); ("imdb_url", py_str (key_imdb x))].

Definition get_watched_movies (imdb_id : option string) : M session (list json) :=
  note WatchedMovies ;;;
  watched <- gets (fun s => sync_watched_movies (reads s)) ;;
  match watched with
  | None => ret []
  | Some xs =>
      for_each xs [] (fun results x =>
        if skipped imdb_id x then ret results
        else ret (results ++ [watched_movie_row x]))
  end.

Definition get_calendar : M session (option (list cal_episode)) :=
  note CalendarGet ;;;
  gets (fun s => calendars_my (reads s)).

Definition calendar_row (e : cal_episode) (airdate : Z) : json :=
  JDict [("show", ep_show_title e);
         ("link", py_str (ep_show_imdb e));
         ("season", JInt (fst (pk e)));
         ("episode", JInt (snd (pk e)));
         ("ep_link", py_str (ep_imdb e));
         ("airdate", JStr (isoformat airdate))].

Definition get_trakt_cal_episode : M session (list json) :=
  d <- gets (fun s => today (reads s)) ;;
  let maxdate := (d + 90)%Z in
  cal <- get_calendar ;;
  match cal with
  | None => ret []
  | Some eps =>
      for_each eps [] (fun output e =>
        match first_aired e with
        | None => raise (AttributeError "date")
        | Some airdate =>
            if (maxdate <? airdate)%Z then ret output
            else ret (output ++ [calendar_row e airdate])
        end)
  end.

End WithCalendar.

(** *** Removing *)

Definition sync_watchlist_remove (items : json) : M session json :=
  note (WatchlistRemove items) ;;;
  gets (fun s => watchlist_remove (reads s) items).

Definition sync_history_remove (items : json) : M session json :=
  note (HistoryRemove items) ;;;
  gets (fun s => history_remove (reads s) items).

Definition remove_show_to_watchlist (show' imdb_id : option string) : M session json :=
  bound <- inside (lookup_or_query show' imdb_id) ;;
  match bound with
  | None => raise (UnboundLocalError "show_obj")
  | Some show_obj =>
      let remove (show_obj : pyobj) : M session json :=
        match show_obj with
        | PMedia m =>
            note (Printed show_obj) ;;;
            sync_watchlist_remove (JDict [("shows", JList [to_dict m])])
        | _ => raise (AttributeError "to_dict")
        end in
      match show_obj with
      | PList l =>
          match l with
          | [] => ret (JDict [])
          | first :: _ => remove (PMedia first)
          end
      | _ => remove show_obj
      end
  end.

Definition remove_movie_to_watched (show' imdb_id : option string) : M session json :=
  bound <- inside (lookup_or_query show' imdb_id) ;;
  match bound with
  | None => raise (UnboundLocalError "show_obj")
  | Some show_obj =>
      let remove (show_obj : pyobj) : M session json :=
        match show_obj with
        | PMedia m => sync_history_remove (JDict [("movies", JList [to_dict m])])
        | _ => raise (AttributeError "to_dict")
        end in
      match show_obj with
      | PList l =>
          match l with
          | [] => ret JNull
          | first :: _ => remove (PMedia first)
          end
      | _ => remove show_obj
      end
  end.

Definition remove_episode_to_watched (show' imdb_id : option string)
    (season episode : option Z) : M session json :=
  bound <- inside (lookup_or_query show' imdb_id) ;;
  match bound with
  | None => raise (UnboundLocalError "show_obj")
  | Some show_obj =>
      let remove (show_obj : pyobj) : M session json :=
        let get_key (k : option string -> M session json) : M session json :=
          match show_obj with
          | PMedia m => k (get_key_imdb m)
          | _ => raise (AttributeError "get_key")
          end in
        if truthy_int season && truthy_int episode then
          get_key (fun imdb =>
            inside (lift (emit (ShowsEpisode imdb (default 0%Z season)
                                             (default 0%Z episode)))) ;;;
            episode_ <- gets (fun s => shows_episode (service (env (inner s))) imdb
                                         (default 0%Z season) (default 0%Z episode)) ;;
            match episode_ with
            | None => raise (AttributeError "to_dict")
            | Some e =>
                note (Printed (PMedia e)) ;;;
                sync_history_remove (JDict [("episodes", JList [to_dict e])])
            end)
        else if truthy_int season then
          get_key (fun imdb =>
            inside (lift (emit (ShowsSeason imdb (default 0%Z season)))) ;;;
            found' <- gets (fun s => shows_season (service (env (inner s))) imdb
                                       (default 0%Z season)) ;;
            match found' with
            | None => raise TypeError
            | Some es =>
                note (PrintedEpisodes (to_dict <$> es)) ;;;
                sync_history_remove (JDict [("episodes", JList (to_dict <$> es))])
            end)
        else ret JNull in
      match show_obj with
      | PList l =>
          match l with
          | [] => ret JNull
          | first :: _ => remove (PMedia first)
          end
      | _ => remove show_obj
      end
  end.

(** *** Adding a movie *)

Definition add_movie_to_watched (title' imdb_id : option string) : M state json :=
  bound <- lookup_or_query title' imdb_id ;;
  match bound with
  | None => raise (UnboundLocalError "show_obj")
  | Some show_obj =>
      let add (show_obj : pyobj) : M state json :=
        match show_obj with
        | PDict [] => ret (JDict [])
        | PDict (_ :: _) => raise TypeError
        | PMedia m => sync_history_add (JDict [("movies", JList [to_dict m])])
        | PNone | PList _ => raise (AttributeError "to_dict")
        end in
      match show_obj with
      | PList l =>
          match l with
          | [] => ret (JDict [])
          | first :: _ => add (PMedia first)
          end
      | _ => add show_obj
      end
  end.

(** *** The routes that add *)

(** [{'status': 'success'}] or [{'status': 'failure'}], with 200. *)
Definition status_reply (result : json) : json * Z :=
  (JDict [("status", JStr (if truthy result then "success" else "failure"))], 200%Z).

Section Routes.
Context {codec : Codec}.

(** [/trakt/add_to_watchlist/<imdb_id>] *)
Definition add_to_watchlist (t : thread) (imdb_id : string) : M world (json * Z) :=
  ti <- __init__ t "ddboline" ;;
  r <- Trakt.call ti (add_show_to_watchlist None (Some imdb_id)) ;;
  ret (status_reply (fst r)).

(** [/trakt/add_to_watched/<imdb_id>] *)
Definition add_to_watched (t : thread) (imdb_id : string) : M world (json * Z) :=
  ti <- __init__ t "ddboline" ;;
  r <- Trakt.call ti (add_movie_to_watched None (Some imdb_id)) ;;
  ret (status_reply (fst r)).

End Routes.

End Facade.

(** More sample services. *)

Module MoreSamples.
Import PyStr Json Py Trakt Facade.

Definition the_wire : media :=
  {| get_key_imdb := Some "tt0306414";
     to_dict := JDict [("title", JStr "The Wire"); ("year", JInt 2002)] |}.

Definition pilot : media :=
  {| get_key_imdb := Some "tt0749451";
     to_dict := JDict [("season", JInt 1); ("number", JInt 1)] |}.

Definition finding : TraktService := {|
  device_code := device_code Samples.nobody;
  device_poll := device_poll Samples.nobody;
  search_lookup := fun id => if String.eqb id "tt0306414" then Many [the_wire] else NoneFound;
  search_query := fun _ _ => Some [the_wire];
  shows_episode := fun _ _ _ => Some pilot;
  shows_season := fun _ _ => Some [pilot];
  watchlist_add := watchlist_add Samples.nobody;
  history_add := history_add Samples.nobody
|}.

Definition wire_show : show :=
  {| title := JStr "The Wire"; key_imdb := Some "tt0306414"; year := None;
     episodes := [(1%Z, 1%Z); (1%Z, 2%Z)] |}.

Definition lost_show : show :=
  {| title := JStr "Lost"; key_imdb := Some "tt0411008"; year := Some 2004%Z;
     episodes := [(2%Z, 5%Z)] |}.

Definition shelf : TraktReads := {|
  sync_watchlist_shows := Some [wire_show; lost_show];
  sync_watched_shows := Some [wire_show; lost_show];
  sync_watched_movies := Some [lost_show; wire_show];
  calendars_my :=
    Some [{| ep_show_title := JStr "Lost"; ep_show_imdb := Some "tt0411008";
             pk := (3%Z, 1%Z); first_aired := Some 739000%Z; ep_imdb := None |};
          {| ep_show_title := JStr "The Wire"; ep_show_imdb := Some "tt0306414";
             pk := (5%Z, 1%Z); first_aired := Some 739200%Z; ep_imdb := None |}];
  watchlist_remove := fun _ => JDict [("deleted", JInt 1)];
  history_remove := fun _ => JDict [("deleted", JInt 1)];
  today := 739010%Z
|}.

Definition sitting (sv : TraktService) : session :=
  {| inner := Samples.at_rest sv Samples.token; reads := shelf; calls := [] |}.

(** A calendar of days counted from 0001-01-01 that only tells years
    of 365 days apart. *)
Definition plain_calendar : Calendar :=
  {| year_of := fun d => (d / 365 + 1)%Z; isoformat := fun d => Json.dump_int d |}.

(** The first service, listing one more table. *)
Definition www_more : SyncDb.server := {|
  SyncDb.last_modified :=
    SyncDb.last_modified Samples.www ++ [("music_key", "2024-04-01T00:00:00Z")];
  SyncDb.list_since := SyncDb.list_since Samples.www;
  SyncDb.post_reply := SyncDb.post_reply Samples.www
|}.

End MoreSamples.

(** ** Abbreviations for the statements on the remaining methods *)

Module More.
Import PyStr Json Py Trakt Facade.

(** The state once [acts] have been done to the outside. *)
Definition logged (acts : list action) (s : state) : state :=
  set_env (set_log (log (env s) ++ acts) (env s)) s.

(** The session once the inner state has done [acts] and this part
    has made the calls [cs]. *)
Definition went (acts : list action) (cs : list call) (x : session) : session :=
  {| inner := logged acts (inner x); reads := reads x; calls := calls x ++ cs |}.

(** The first of what a lookup found. *)
Definition first_found (f : found) : option media :=
  match f with
  | NoneFound => None
  | One m => Some m
  | Many l => head l
  end.

Definition shows_items (m : media) : json := JDict [("shows", JList [to_dict m])].
Definition movies_items (m : media) : json := JDict [("movies", JList [to_dict m])].
Definition episodes_items (es : list media) : json :=
  JDict [("episodes", JList (to_dict <$> es))].

(** The shows that [get_watched_shows] and [get_watched_movies] keep
    for an imdb id: all of them without one, else those whose imdb
    key is that id. *)
Definition kept (imdb_id : option string) (xs : list show) : list show :=
  List.filter (fun x => negb (skipped imdb_id x)) xs.

(** The episodes of the calendar that air no later than ninety days
    after [today'], as rows. *)
Definition in_window (today' : Z) (e : cal_episode) : bool :=
  match first_aired e with
  | Some d => (d <=? today' + 90)%Z
  | None => false
  end.

Definition window_rows {calendar : Calendar} (today' : Z) (eps : list cal_episode)
  : list json :=
  (fun e => calendar_row e (default 0%Z (first_aired e)))
    <$> List.filter (in_window today') eps.

(** The body of the loop of [get_trakt_cal_episode], [today'] given. *)
Definition calendar_body {calendar : Calendar} (d : Z) (output : list json) (e : cal_episode)
  : M session (list json) :=
  match first_aired e with
  | None => raise (AttributeError "date")
  | Some airdate =>
      if (d + 90 <? airdate)%Z then ret output
      else ret (output ++ [calendar_row e airdate])
  end.

(** The session once this part has made the call [c] and no more. *)
Definition called (c : call) (x : session) : session :=
  {| inner := inner x; reads := reads x; calls := calls x ++ [c] |}.

(** Two callers asleep in [wait()], each with its poller started. *)
Definition two_asleep : Handshake.system :=
  let enter := [OAuthDeviceCode;
                Print (EnterCode (JStr "ABCD1234") (JStr "https://trakt.tv/activate"));
                PollerStart [("user_code", JStr "ABCD1234");
                             ("verification_url", JStr "https://trakt.tv/activate")]] in
  {| Handshake.shared := Handshake.state_of Samples.home_files (Some "/home/u") Samples.approving
                 "ddboline" "xyz" "s3cret" (enter ++ enter) None [Main 0; Main 1] JNull;
     Handshake.at_pc := <[1%nat := Handshake.Asleep 1]> (<[0%nat := Handshake.Asleep 1]> ∅) |}.

(** *** The sync script *)

Definition other (e : SyncDb.side) : SyncDb.side :=
  match e with
  | SyncDb.Endpoint0 => SyncDb.Endpoint1
  | SyncDb.Endpoint1 => SyncDb.Endpoint0
  end.

Definition pick {A} (e : SyncDb.side) (a0 a1 : A) : A :=
  match e with
  | SyncDb.Endpoint0 => a0
  | SyncDb.Endpoint1 => a1
  end.

(** A fetch asks one side for its rows since the other side's
    timestamp, which is the smaller; a post gives one side, for a
    table of [entry_map] and under its key, the rows the other side
    answered since the receiving side's timestamp, which is the
    smaller. *)
Definition sound (srv0 srv1 : SyncDb.server) (lm0 lm1 : gmap string string)
    (ev : SyncDb.event) : Prop :=
  match ev with
  | SyncDb.GetList src table since =>
      pick (other src) lm0 lm1 !! table = Some since
      /\ exists newer, pick src lm0 lm1 !! table = Some newer
                       /\ SyncDb.gt newer since = true
  | SyncDb.PostList dst table body =>
      exists key since newer,
        SyncDb.entry_map !! table = Some key
        /\ pick dst lm0 lm1 !! table = Some since
        /\ pick (other dst) lm0 lm1 !! table = Some newer
        /\ SyncDb.gt newer since = true
        /\ body = JDict [(key, SyncDb.list_since (pick (other dst) srv0 srv1)
                                  table since)]
  | _ => True
  end.

(** A table both sides list with different timestamps and that
    [entry_map] does not have. *)
Definition unmapped (lm0 lm1 : gmap string string) (table : string) : Prop :=
  SyncDb.entry_map !! table = None
  /\ exists mod0 mod1, lm0 !! table = Some mod0 /\ lm1 !! table = Some mod1
                       /\ mod0 <> mod1.

(** A key or a value as [read_credentials] binds it: stripped, and
    without the separator. *)
Definition clean (x : string) : Prop :=
  strip x = x /\ contains "=" x = false.

End More.

(** ** Values compared as Python compares them *)

Module Equal.
Import PyStr Json.

(** Python's [==] on dicts takes no account of the order of the keys,
    and a JSON library is free to write them in another order than the
    dict has them: [flask.json], the [json] this module ends up with,
    writes them sorted.  Two values are compared here after the members
    of every dict, at every depth, have been put in the order of their
    keys. *)
Fixpoint insert_member (kv : string * json) (d : list (string * json))
  : list (string * json) :=
  match d with
  | [] => [kv]
  | kv' :: d' =>
      if String.leb (fst kv) (fst kv') then kv :: d
      else kv' :: insert_member kv d'
  end.

Definition sort_members (d : list (string * json)) : list (string * json) :=
  foldr insert_member [] d.

Fixpoint sort_keys (v : json) : json :=
  match v with
  | JList l => JList (List.map sort_keys l)
  | JDict d => JDict (sort_members (List.map (fun kv => (fst kv, sort_keys (snd kv))) d))
  | _ => v
  end.

Definition deep_equal (a b : json) : Prop := sort_keys a = sort_keys b.

(** A library that writes the keys of every dict in order
    ([sort_keys=True]) and is the reference library otherwise. *)
Definition sorting : Codec :=
  {| dump := fun v => ref_dump (sort_keys v); load := ref_load |}.

(** The library reads back what it writes for [v], up to the order of
    keys. *)
Definition round_trips {codec : Codec} (v : json) : Prop :=
  exists v', load (universal_newlines (dump v)) = Some v' /\ deep_equal v' v.

End Equal.

(** * Properties *)

Import PyStr Json Py Trakt.
Local Open Scope py_scope.

(** ** Text *)

Lemma split_nonempty sep s : split sep s <> [].
Proof.
  destruct s as [|c s]; simpl; [discriminate|].
  destruct (Ascii.eqb c sep); [discriminate|].
  destruct (split sep s); discriminate.
Qed.

(** A split is the text before the first separator, followed by the
    split of what comes after it. *)
Lemma split_before_after sep s :
  split sep s =
  before sep s :: (if contains sep s then split sep (after sep s) else []).
Proof.
  induction s as [|c s IH]; simpl; [reflexivity|].
  destruct (Ascii.eqb c sep) eqn:E; simpl; [reflexivity|].
  rewrite IH. reflexivity.
Qed.

Lemma split_length_contains sep s :
  (1 <? length (split sep s))%nat = contains sep s.
Proof.
  rewrite split_before_after.
  destruct (contains sep s); simpl; [|reflexivity].
  pose proof (split_nonempty sep (after sep s)).
  destruct (split sep (after sep s)); [congruence|reflexivity].
Qed.

Lemma for_each_pure {S A B} (f : B -> A -> B) (body : B -> A -> M S B) (xs : list A) :
  (forall acc x, body acc x = ret (f acc x)) ->
  forall acc s, for_each xs acc body s = (Ok (foldl f acc xs), s).
Proof.
  intros Hb. induction xs as [|x xs IH]; intros acc s; simpl; [reflexivity|].
  unfold bind. rewrite Hb. unfold ret at 1. apply IH.
Qed.

(** ** The reference JSON library reads back what it writes *)

Lemma app_cons c s t : String c s +:+ t = String c (s +:+ t).
Proof. reflexivity. Qed.

Lemma app_empty t : "" +:+ t = t.
Proof. reflexivity. Qed.

Lemma string_app_assoc a b c : (a +:+ b) +:+ c = a +:+ (b +:+ c).
Proof. induction a as [|x a IH]; [reflexivity|]. rewrite !app_cons, IH. reflexivity. Qed.

Lemma string_app_length a b : String.length (a +:+ b) = (String.length a + String.length b)%nat.
Proof. induction a as [|x a IH]; [reflexivity|]. rewrite app_cons. simpl. rewrite IH. reflexivity. Qed.

(** One escaped character reads back as itself. *)
Lemma parse_escape_char c X :
  parse_chars (escape_char c +:+ X)
  = match parse_chars X with
    | Some (t, r) => Some (String c t, r)
    | None => None
    end.
Proof.
  destruct c as [[] [] [] [] [] [] [] []]; reflexivity.
Qed.

Lemma parse_escaped s rest :
  parse_chars (escape s +:+ String DQUOTE rest) = Some (s, rest).
Proof.
  induction s as [|c s IH].
  - reflexivity.
  - change (escape (String c s)) with (escape_char c +:+ escape s).
    rewrite string_app_assoc, parse_escape_char, IH. reflexivity.
Qed.

Lemma quote_app s rest :
  quote s +:+ rest = String DQUOTE (escape s +:+ String DQUOTE rest).
Proof.
  unfold quote. rewrite app_cons, string_app_assoc. reflexivity.
Qed.

(** Digits *)

Lemma string_of_uint_digits u rest :
  no_digit_head rest = true ->
  span_digits (NilEmpty.string_of_uint u +:+ rest) = (NilEmpty.string_of_uint u, rest).
Proof.
  intros Hrest. induction u; simpl NilEmpty.string_of_uint;
    rewrite ?app_cons; try (simpl; rewrite IHu; reflexivity).
  rewrite app_empty. destruct rest as [|c r]; [reflexivity|].
  simpl in *. destruct (is_digit c); [discriminate|reflexivity].
Qed.

Lemma to_uint_no_leading_zero p d : Pos.to_uint p <> Decimal.D0 d.
Proof.
  intros H.
  assert (Hn : Decimal.unorm (Pos.to_uint p) = Pos.to_uint p).
  { change (Pos.to_uint p) with (N.to_uint (Npos p)).
    rewrite <- (DecimalN.Unsigned.to_of (N.to_uint (N.pos p))).
    rewrite DecimalN.Unsigned.of_to. reflexivity. }
  assert (Hz : Decimal.nzhead (Pos.to_uint p) <> Decimal.Nil).
  { intros Hnil. apply DecimalFacts.unorm_0 in Hnil.
    rewrite Hn in Hnil. exact (DecimalPos.Unsigned.to_uint_nonzero p Hnil). }
  rewrite (DecimalFacts.unorm_nzhead _ Hz) in Hn.
  rewrite H in Hn at 2.
  exact (DecimalFacts.nzhead_nonzero _ _ Hn).
Qed.

Lemma parse_int_unsigned u rest :
  u <> Decimal.Nil -> (forall d, u <> Decimal.D0 d) ->
  no_digit_head rest = true ->
  parse_int (NilEmpty.string_of_uint u +:+ rest) = Some (Z.of_int (Decimal.Pos u), rest)
  /\ parse_int (String "-" (NilEmpty.string_of_uint u +:+ rest))
     = Some (Z.of_int (Decimal.Neg u), rest).
Proof.
  intros Hnil Hzero Hrest.
  destruct u as [|u|u|u|u|u|u|u|u|u|u];
    try congruence; try (exfalso; apply (Hzero u); reflexivity);
    unfold parse_int; simpl NilEmpty.string_of_uint in *; rewrite !app_cons;
    cbn [Ascii.eqb Bool.eqb span_digits is_digit nat_of_ascii];
    simpl; rewrite (string_of_uint_digits u rest Hrest); simpl;
    rewrite NilEmpty.usu; split; reflexivity.
Qed.

Lemma span_digits_none rest :
  no_digit_head rest = true -> span_digits rest = ("", rest).
Proof.
  destruct rest as [|c r]; [reflexivity|]. simpl.
  destruct (is_digit c); [discriminate|reflexivity].
Qed.

Lemma parse_int_dump n rest :
  no_digit_head rest = true ->
  parse_int (dump_int n +:+ rest) = Some (n, rest).
Proof.
  intros Hrest. destruct n as [|p|p].
  - change (dump_int 0) with "0". rewrite app_cons, app_empty.
    unfold parse_int. simpl. rewrite (span_digits_none rest Hrest). reflexivity.
  - assert (Hd : dump_int (Z.pos p) = NilEmpty.string_of_uint (Pos.to_uint p)).
    { unfold dump_int. simpl. unfold NilZero.string_of_uint.
      pose proof (DecimalPos.Unsigned.to_uint_nonnil p).
      destruct (Pos.to_uint p); congruence. }
    rewrite Hd.
    destruct (parse_int_unsigned (Pos.to_uint p) rest) as [H _];
      [apply DecimalPos.Unsigned.to_uint_nonnil
      |intros d; apply to_uint_no_leading_zero
      |exact Hrest|].
    rewrite H. f_equal. f_equal. exact (DecimalZ.of_to (Z.pos p)).
  - assert (Hd : dump_int (Z.neg p)
                 = String "-" (NilEmpty.string_of_uint (Pos.to_uint p))).
    { unfold dump_int. simpl. unfold NilZero.string_of_uint.
      pose proof (DecimalPos.Unsigned.to_uint_nonnil p).
      destruct (Pos.to_uint p); congruence. }
    rewrite Hd, app_cons.
    destruct (parse_int_unsigned (Pos.to_uint p) rest) as [_ H];
      [apply DecimalPos.Unsigned.to_uint_nonnil
      |intros d; apply to_uint_no_leading_zero
      |exact Hrest|].
    rewrite H. f_equal. f_equal. exact (DecimalZ.of_to (Z.neg p)).
Qed.

Lemma string_of_uint_head u :
  u <> Decimal.Nil ->
  exists c r, NilEmpty.string_of_uint u = String c r /\ is_digit c = true.
Proof.
  destruct u; [congruence|..]; intros _; eexists; eexists; split; reflexivity.
Qed.

Lemma dump_int_head n :
  exists c r, dump_int n = String c r /\ (is_digit c = true \/ c = "-"%char).
Proof.
  destruct n as [|p|p].
  - exists "0"%char, "". split; [reflexivity|left; reflexivity].
  - destruct (string_of_uint_head (Pos.to_uint p)
                (DecimalPos.Unsigned.to_uint_nonnil p)) as (c & r & Hs & Hc).
    exists c, r. split; [|left; exact Hc].
    unfold dump_int. simpl. unfold NilZero.string_of_uint.
    pose proof (DecimalPos.Unsigned.to_uint_nonnil p).
    destruct (Pos.to_uint p); congruence.
  - eexists "-"%char, _. split; [reflexivity|right; reflexivity].
Qed.

(** What the first character of a text decides. *)

Lemma parse_value_number fuel c r :
  is_digit c = true \/ c = "-"%char ->
  parse_value (S fuel) (String c r)
  = match parse_int (String c r) with
    | Some (n, r') => Some (JInt n, r')
    | None => None
    end.
Proof.
  intros H.
  destruct c as [[] [] [] [] [] [] [] []];
    destruct H as [H|H]; try discriminate H; reflexivity.
Qed.

Lemma parse_value_list fuel c r :
  is_ws c = false -> Ascii.eqb c "]" = false ->
  parse_value (S fuel) (String "[" (String c r))
  = match parse_items fuel (String c r) with
    | Some (l, r') => Some (JList l, r')
    | None => None
    end.
Proof.
  intros Hws Hc. cbn -[is_ws parse_items Ascii.eqb].
  change (is_ws "[") with false. cbn -[is_ws parse_items Ascii.eqb].
  change (Ascii.eqb "[" "n") with false. change (Ascii.eqb "[" "t") with false.
  change (Ascii.eqb "[" "f") with false. change (Ascii.eqb "[" DQUOTE) with false.
  change (Ascii.eqb "[" "[") with true. cbn -[is_ws parse_items Ascii.eqb].
  rewrite Hws, Hc. reflexivity.
Qed.

Lemma parse_value_space fuel X :
  parse_value fuel (String " " X) = parse_value fuel X.
Proof. destruct fuel; reflexivity. Qed.

Lemma parse_items_space fuel X :
  parse_items fuel (String " " X) = parse_items fuel X.
Proof.
  destruct fuel; [reflexivity|].
  cbn [parse_items]. rewrite parse_value_space. reflexivity.
Qed.

Lemma parse_members_space fuel X :
  parse_members fuel (String " " X) = parse_members fuel X.
Proof. destruct fuel; reflexivity. Qed.

Lemma is_digit_head c :
  is_digit c = true \/ c = "-"%char ->
  is_ws c = false /\ Ascii.eqb c "]" = false.
Proof.
  intros H.
  destruct c as [[] [] [] [] [] [] [] []];
    destruct H as [H|H]; try discriminate H; split; reflexivity.
Qed.

Lemma dump_head v :
  exists c r, ref_dump v = String c r /\ is_ws c = false /\ Ascii.eqb c "]" = false.
Proof.
  destruct v as [|[]|n|s|l|d]; try (eexists; eexists; repeat split; reflexivity).
  destruct (dump_int_head n) as (c & r & Hs & Hc).
  exists c, r. split; [exact Hs|]. apply is_digit_head. exact Hc.
Qed.

Lemma dump_items_head x l :
  exists c r, dump_items (x :: l) = String c r
              /\ is_ws c = false /\ Ascii.eqb c "]" = false.
Proof.
  destruct (dump_head x) as (c & r & Hs & Hc).
  destruct l as [|y l].
  - exists c, r. split; [exact Hs|exact Hc].
  - exists c, (r +:+ ", " +:+ dump_items (y :: l)). split; [|exact Hc].
    change (dump_items (x :: y :: l))
      with (ref_dump x +:+ ", " +:+ dump_items (y :: l)).
    rewrite Hs. reflexivity.
Qed.

Lemma parse_items_more f x s r' :
  parse_value f s = Some (x, String "," r') ->
  parse_items (S f) s
  = match parse_items f r' with
    | Some (l, r'') => Some (x :: l, r'')
    | None => None
    end.
Proof. intros H. cbn [parse_items]. rewrite H. reflexivity. Qed.

Lemma parse_items_last f x s r' :
  parse_value f s = Some (x, String "]" r') ->
  parse_items (S f) s = Some ([x], r').
Proof. intros H. cbn [parse_items]. rewrite H. reflexivity. Qed.

Lemma parse_members_key f k r1 :
  parse_members (S f) (String DQUOTE (escape k +:+ String DQUOTE (String ":" r1)))
  = match parse_value f r1 with
    | Some (v, r3) =>
        match skip_ws r3 with
        | String c' r4 =>
            if Ascii.eqb c' ","
            then match parse_members f r4 with
                 | Some (d, r5) => Some ((k, v) :: d, r5)
                 | None => None
                 end
            else if Ascii.eqb c' "}" then Some ([(k, v)], r4) else None
        | EmptyString => None
        end
    | None => None
    end.
Proof.
  cbn [parse_members].
  change (skip_ws (String DQUOTE (escape k +:+ String DQUOTE (String ":" r1))))
    with (String DQUOTE (escape k +:+ String DQUOTE (String ":" r1))).
  change (Ascii.eqb DQUOTE DQUOTE) with true. cbv iota.
  rewrite parse_escaped. reflexivity.
Qed.

Lemma items_read_back l :
  Forall reads_back l -> l <> [] ->
  forall fuel rest,
    (weight_items l <= fuel)%nat ->
    parse_items fuel (dump_items l +:+ String "]" rest) = Some (l, rest).
Proof.
  induction l as [|x l IH]; intros Hall Hne fuel rest Hfuel; [congruence|].
  inversion Hall as [|? ? Hx Hl]; subst.
  destruct fuel as [|f]; [simpl in Hfuel; lia|].
  simpl in Hfuel.
  destruct l as [|y l].
  - change (dump_items [x]) with (ref_dump x).
    apply parse_items_last. apply Hx; [lia|reflexivity].
  - change (dump_items (x :: y :: l))
      with (ref_dump x +:+ ", " +:+ dump_items (y :: l)).
    rewrite !string_app_assoc.
    change (", " +:+ dump_items (y :: l) +:+ String "]" rest)
      with (String "," (String " " (dump_items (y :: l) +:+ String "]" rest))).
    rewrite (parse_items_more f x _ _
               (Hx f (String "," (String " " (dump_items (y :: l) +:+ String "]" rest)))
                   ltac:(lia) eq_refl)).
    rewrite parse_items_space.
    rewrite (IH Hl) by (try discriminate; simpl in *; lia).
    reflexivity.
Qed.

Lemma members_read_back d :
  Forall (fun kv => reads_back (snd kv)) d -> d <> [] ->
  forall fuel rest,
    (weight_members d <= fuel)%nat ->
    parse_members fuel (dump_members d +:+ String "}" rest) = Some (d, rest).
Proof.
  induction d as [|[k x] d IH]; intros Hall Hne fuel rest Hfuel; [congruence|].
  inversion Hall as [|? ? Hx Hd]; subst. simpl in Hx.
  destruct fuel as [|f]; [simpl in Hfuel; lia|].
  simpl in Hfuel.
  destruct d as [|[k' y] d].
  - change (dump_members [(k, x)]) with (quote k +:+ ": " +:+ ref_dump x).
    rewrite !string_app_assoc, quote_app.
    change (": " +:+ ref_dump x +:+ String "}" rest)
      with (String ":" (String " " (ref_dump x +:+ String "}" rest))).
    rewrite parse_members_key, parse_value_space.
    rewrite (Hx f) by (simpl; try lia; reflexivity).
    reflexivity.
  - change (dump_members ((k, x) :: (k', y) :: d))
      with (quote k +:+ ": " +:+ ref_dump x +:+ ", " +:+ dump_members ((k', y) :: d)).
    rewrite !string_app_assoc, quote_app.
    change (": " +:+ ref_dump x +:+ ", " +:+ dump_members ((k', y) :: d)
              +:+ String "}" rest)
      with (String ":" (String " " (ref_dump x +:+
              String "," (String " " (dump_members ((k', y) :: d)
                                        +:+ String "}" rest))))).
    rewrite parse_members_key, parse_value_space.
    rewrite (Hx f) by (simpl; try lia; reflexivity).
    change (skip_ws (String "," (String " " (dump_members ((k', y) :: d)
                                               +:+ String "}" rest))))
      with (String "," (String " " (dump_members ((k', y) :: d)
                                      +:+ String "}" rest))).
    change (Ascii.eqb "," ",") with true. cbv iota.
    rewrite parse_members_space.
    rewrite (IH Hd) by (try discriminate; simpl in *; lia).
    reflexivity.
Qed.

Lemma parse_value_dict fuel r :
  parse_value (S fuel) (String "{" (String DQUOTE r))
  = match parse_members fuel (String DQUOTE r) with
    | Some (d, r') => Some (JDict d, r')
    | None => None
    end.
Proof. reflexivity. Qed.

Lemma value_reads_back v : reads_back v.
Proof.
  induction v as [|b|n|s|l IH|d IH] using json_nested_ind;
    intros fuel rest Hfuel Hrest;
    (destruct fuel as [|f]; [simpl in Hfuel; lia|]).
  - reflexivity.
  - destruct b; reflexivity.
  - change (ref_dump (JInt n)) with (dump_int n).
    destruct (dump_int_head n) as (c & r & Hs & Hc).
    pose proof (parse_int_dump n rest Hrest) as Hp.
    rewrite Hs, app_cons in *.
    rewrite (parse_value_number f c _ Hc), Hp. reflexivity.
  - change (ref_dump (JStr s)) with (quote s). rewrite quote_app.
    change (parse_value (S f) (String DQUOTE (escape s +:+ String DQUOTE rest)))
      with (match parse_chars (escape s +:+ String DQUOTE rest) with
            | Some (t, r') => Some (JStr t, r')
            | None => None
            end).
    rewrite parse_escaped. reflexivity.
  - change (weight (JList l)) with (S (weight_items l)) in Hfuel.
    change (ref_dump (JList l)) with ("[" +:+ dump_items l +:+ "]").
    rewrite !string_app_assoc.
    change ("[" +:+ dump_items l +:+ "]" +:+ rest)
      with (String "[" (dump_items l +:+ String "]" rest)).
    destruct l as [|x l]; [reflexivity|].
    destruct (dump_items_head x l) as (c & r & Hs & Hws & Hc).
    pose proof (items_read_back (x :: l) IH ltac:(discriminate) f rest ltac:(lia)) as Hp.
    rewrite Hs, app_cons in *.
    rewrite (parse_value_list f c _ Hws Hc), Hp. reflexivity.
  - change (weight (JDict d)) with (S (weight_members d)) in Hfuel.
    change (ref_dump (JDict d)) with ("{" +:+ dump_members d +:+ "}").
    rewrite !string_app_assoc.
    change ("{" +:+ dump_members d +:+ "}" +:+ rest)
      with (String "{" (dump_members d +:+ String "}" rest)).
    destruct d as [|[k x] d]; [reflexivity|].
    pose proof (members_read_back ((k, x) :: d) IH ltac:(discriminate) f rest
                  ltac:(lia)) as Hp.
    assert (Hs : exists r, dump_members ((k, x) :: d) = String DQUOTE r).
    { destruct d as [|[k' y] d]; eexists; reflexivity. }
    destruct Hs as [r Hs]. rewrite Hs, app_cons in *.
    rewrite parse_value_dict, Hp. reflexivity.
Qed.

Lemma string_app_nil_r s : s +:+ "" = s.
Proof. induction s as [|c s IH]; [reflexivity|]. rewrite app_cons, IH. reflexivity. Qed.

(** The fuel [ref_load] gives is enough. *)

Lemma quote_length s : (2 <= String.length (quote s))%nat.
Proof. unfold quote. simpl. rewrite string_app_length. simpl. lia. Qed.

Lemma weight_items_length l :
  Forall (fun v => (weight v <= String.length (ref_dump v))%nat) l ->
  (weight_items l <= 1 + String.length (dump_items l))%nat.
Proof.
  induction l as [|x l IH]; intros Hall; [simpl; lia|].
  inversion Hall as [|? ? Hx Hl]; subst. specialize (IH Hl). cbv beta in Hx.
  destruct l as [|y l].
  - change (dump_items [x]) with (ref_dump x).
    change (weight_items [x]) with (S (weight x + 0)). lia.
  - change (dump_items (x :: y :: l))
      with (ref_dump x +:+ ", " +:+ dump_items (y :: l)).
    rewrite !string_app_length.
    change (weight_items (x :: y :: l)) with (S (weight x + weight_items (y :: l))).
    change (String.length ", ") with 2%nat. lia.
Qed.

Lemma weight_members_length d :
  Forall (fun kv => (weight (snd kv) <= String.length (ref_dump (snd kv)))%nat) d ->
  (weight_members d <= 1 + String.length (dump_members d))%nat.
Proof.
  induction d as [|[k x] d IH]; intros Hall; [simpl; lia|].
  inversion Hall as [|? ? Hx Hd]; subst. specialize (IH Hd).
  cbv beta in Hx. change (snd (k, x)) with x in Hx.
  pose proof (quote_length k).
  destruct d as [|[k' y] d].
  - change (dump_members [(k, x)]) with (quote k +:+ ": " +:+ ref_dump x).
    rewrite !string_app_length.
    change (weight_members [(k, x)]) with (S (weight x + 0)).
    change (String.length ": ") with 2%nat. lia.
  - change (dump_members ((k, x) :: (k', y) :: d))
      with (quote k +:+ ": " +:+ ref_dump x +:+ ", " +:+ dump_members ((k', y) :: d)).
    rewrite !string_app_length.
    change (weight_members ((k, x) :: (k', y) :: d))
      with (S (weight x + weight_members ((k', y) :: d))).
    change (String.length ": ") with 2%nat. change (String.length ", ") with 2%nat.
    lia.
Qed.

Lemma weight_length v : (weight v <= String.length (ref_dump v))%nat.
Proof.
  induction v as [|b|n|s|l IH|d IH] using json_nested_ind.
  - simpl. lia.
  - destruct b; simpl; lia.
  - destruct (dump_int_head n) as (c & r & Hs & _).
    change (ref_dump (JInt n)) with (dump_int n). rewrite Hs. simpl. lia.
  - change (ref_dump (JStr s)) with (quote s). pose proof (quote_length s).
    simpl weight. lia.
  - change (weight (JList l)) with (S (weight_items l)).
    change (ref_dump (JList l)) with ("[" +:+ dump_items l +:+ "]").
    rewrite !string_app_length. pose proof (weight_items_length l IH).
    change (String.length "[") with 1%nat. change (String.length "]") with 1%nat. lia.
  - change (weight (JDict d)) with (S (weight_members d)).
    change (ref_dump (JDict d)) with ("{" +:+ dump_members d +:+ "}").
    rewrite !string_app_length. pose proof (weight_members_length d IH).
    change (String.length "{") with 1%nat. change (String.length "}") with 1%nat. lia.
Qed.

(** What [ref_dump] writes has no carriage return, so reading the file
    in text mode gives it back as it is. *)

Lemma contains_app c a b : contains c (a +:+ b) = contains c a || contains c b.
Proof.
  induction a as [|x a IH]; [reflexivity|].
  rewrite app_cons. simpl. rewrite IH. apply orb_assoc.
Qed.

Lemma universal_newlines_without_CR s :
  contains CR s = false -> universal_newlines s = s.
Proof.
  induction s as [|c s IH]; [reflexivity|].
  simpl. intros H. apply orb_false_iff in H. destruct H as [Hc Hs].
  rewrite Hc, (IH Hs). reflexivity.
Qed.

Lemma escape_char_without_CR c : contains CR (escape_char c) = false.
Proof. destruct c as [[] [] [] [] [] [] [] []]; reflexivity. Qed.

Lemma escape_without_CR s : contains CR (escape s) = false.
Proof.
  induction s as [|c s IH]; [reflexivity|].
  change (escape (String c s)) with (escape_char c +:+ escape s).
  rewrite contains_app, escape_char_without_CR, IH. reflexivity.
Qed.

Lemma quote_without_CR s : contains CR (quote s) = false.
Proof.
  unfold quote. change (contains CR (String DQUOTE ?x)) with (contains CR x).
  simpl. rewrite contains_app, escape_without_CR. reflexivity.
Qed.

Lemma string_of_uint_without_CR u : contains CR (NilEmpty.string_of_uint u) = false.
Proof. induction u; simpl; try assumption; reflexivity. Qed.

Lemma dump_int_without_CR n : contains CR (dump_int n) = false.
Proof.
  unfold dump_int, NilZero.string_of_int, NilZero.string_of_uint.
  destruct (Z.to_int n) as [u|u]; destruct u eqn:E; try reflexivity;
    rewrite <- E; simpl; rewrite ?string_of_uint_without_CR; reflexivity.
Qed.

Lemma dump_items_without_CR l :
  Forall (fun v => contains CR (ref_dump v) = false) l ->
  contains CR (dump_items l) = false.
Proof.
  induction l as [|x l IH]; intros Hall; [reflexivity|].
  inversion Hall as [|? ? Hx Hl]; subst. specialize (IH Hl).
  destruct l as [|y l]; [exact Hx|].
  change (dump_items (x :: y :: l))
    with (ref_dump x +:+ ", " +:+ dump_items (y :: l)).
  rewrite !contains_app, Hx, IH. reflexivity.
Qed.

Lemma dump_members_without_CR d :
  Forall (fun kv => contains CR (ref_dump (snd kv)) = false) d ->
  contains CR (dump_members d) = false.
Proof.
  induction d as [|[k x] d IH]; intros Hall; [reflexivity|].
  inversion Hall as [|? ? Hx Hd]; subst. specialize (IH Hd). simpl in Hx.
  destruct d as [|[k' y] d].
  - change (dump_members [(k, x)]) with (quote k +:+ ": " +:+ ref_dump x).
    rewrite !contains_app, quote_without_CR, Hx. reflexivity.
  - change (dump_members ((k, x) :: (k', y) :: d))
      with (quote k +:+ ": " +:+ ref_dump x +:+ ", " +:+ dump_members ((k', y) :: d)).
    rewrite !contains_app, quote_without_CR, Hx, IH. reflexivity.
Qed.

Lemma ref_dump_without_CR v : contains CR (ref_dump v) = false.
Proof.
  induction v as [|b|n|s|l IH|d IH] using json_nested_ind.
  - reflexivity.
  - destruct b; reflexivity.
  - apply dump_int_without_CR.
  - apply quote_without_CR.
  - change (ref_dump (JList l)) with ("[" +:+ dump_items l +:+ "]").
    rewrite !contains_app, (dump_items_without_CR l IH). reflexivity.
  - change (ref_dump (JDict d)) with ("{" +:+ dump_members d +:+ "}").
    rewrite !contains_app, (dump_members_without_CR d IH). reflexivity.
Qed.

(** The reference library reads back every value it writes, through
    a file written and then read in text mode. *)
Lemma reference_round_trip (v : json) :
  @load reference (universal_newlines (@dump reference v)) = Some v.
Proof.
  simpl. rewrite (universal_newlines_without_CR _ (ref_dump_without_CR v)).
  unfold ref_load.
  rewrite <- (string_app_nil_r (ref_dump v)) at 2.
  rewrite (value_reads_back v (S (String.length (ref_dump v))) "")
    by (try reflexivity; pose proof (weight_length v); lia).
  reflexivity.
Qed.

(** ** Equality up to the order of keys *)

Import Equal.

Lemma leb_refl (a : string) : String.leb a a = true.
Proof. destruct (String.leb_total a a); assumption. Qed.

Lemma ascii_compare_lt_trans (a b c : ascii) :
  Ascii.compare a b = Lt -> Ascii.compare b c = Lt -> Ascii.compare a c = Lt.
Proof.
  unfold Ascii.compare. rewrite !N.compare_lt_iff. lia.
Qed.

Lemma compare_lt_trans (a : string) : forall b c,
  String.compare a b = Lt -> String.compare b c = Lt -> String.compare a c = Lt.
Proof.
  induction a as [|x a IH]; intros [|y b] [|z c]; simpl; try congruence.
  destruct (Ascii.compare x y) eqn:Exy; try congruence;
    destruct (Ascii.compare y z) eqn:Eyz; try congruence.
  - apply Ascii.compare_eq_iff in Exy, Eyz. subst.
    replace (Ascii.compare z z) with Eq
      by (unfold Ascii.compare; rewrite N.compare_refl; reflexivity).
    apply IH.
  - apply Ascii.compare_eq_iff in Exy. subst. rewrite Eyz. reflexivity.
  - apply Ascii.compare_eq_iff in Eyz. subst. rewrite Exy. reflexivity.
  - rewrite (ascii_compare_lt_trans _ _ _ Exy Eyz). reflexivity.
Qed.

Lemma leb_trans (a b c : string) :
  String.leb a b = true -> String.leb b c = true -> String.leb a c = true.
Proof.
  unfold String.leb.
  destruct (String.compare a b) eqn:Eab; try discriminate;
    destruct (String.compare b c) eqn:Ebc; try discriminate; intros _ _.
  - apply String.compare_eq_iff in Eab, Ebc. subst.
    destruct (String.compare c c) eqn:E; try reflexivity.
    pose proof (String.compare_antisym c c) as H. rewrite E in H. discriminate.
  - apply String.compare_eq_iff in Eab. subst. rewrite Ebc. reflexivity.
  - apply String.compare_eq_iff in Ebc. subst. rewrite Eab. reflexivity.
  - rewrite (compare_lt_trans _ _ _ Eab Ebc). reflexivity.
Qed.

(** In the order of the keys, each member next to its successor. *)
Inductive key_sorted : list (string * json) -> Prop :=
| key_sorted_nil : key_sorted []
| key_sorted_one kv : key_sorted [kv]
| key_sorted_cons kv kv' d :
    String.leb (fst kv) (fst kv') = true -> key_sorted (kv' :: d) ->
    key_sorted (kv :: kv' :: d).

Lemma insert_member_sorted kv d : key_sorted d -> key_sorted (insert_member kv d).
Proof.
  induction 1 as [|kv'|kv' kv'' d Hle Hs IH]; simpl.
  - constructor.
  - destruct (String.leb (fst kv) (fst kv')) eqn:E.
    + constructor; [exact E | constructor].
    + constructor; [|constructor].
      destruct (String.leb_total (fst kv) (fst kv')); congruence.
  - destruct (String.leb (fst kv) (fst kv')) eqn:E.
    + constructor; [exact E|]. constructor; assumption.
    + simpl in IH. destruct (String.leb (fst kv) (fst kv'')) eqn:E'.
      * constructor; [|exact IH].
        destruct (String.leb_total (fst kv) (fst kv')); congruence.
      * constructor; assumption.
Qed.

Lemma sort_members_sorted d : key_sorted (sort_members d).
Proof.
  induction d as [|kv d IH]; simpl; [constructor|].
  apply insert_member_sorted. exact IH.
Qed.

Lemma sort_members_of_sorted d : key_sorted d -> sort_members d = d.
Proof.
  induction 1 as [|kv|kv kv' d Hle Hs IH]; try reflexivity.
  change (sort_members (kv :: kv' :: d))
    with (insert_member kv (sort_members (kv' :: d))).
  rewrite IH. simpl. rewrite Hle. reflexivity.
Qed.

(** Sorting looks at the keys only. *)
Lemma insert_member_map (g : json -> json) kv d :
  insert_member (fst kv, g (snd kv)) (List.map (fun kv => (fst kv, g (snd kv))) d)
  = List.map (fun kv => (fst kv, g (snd kv))) (insert_member kv d).
Proof.
  induction d as [|kv' d IH]; simpl; [reflexivity|].
  destruct (String.leb (fst kv) (fst kv')); simpl; [reflexivity|].
  rewrite IH. reflexivity.
Qed.

Lemma sort_members_map (g : json -> json) d :
  sort_members (List.map (fun kv => (fst kv, g (snd kv))) d)
  = List.map (fun kv => (fst kv, g (snd kv))) (sort_members d).
Proof.
  induction d as [|kv d IH]; simpl; [reflexivity|].
  rewrite IH. apply insert_member_map.
Qed.

(** Values whose keys are in order are left as they are. *)
Lemma sort_keys_idempotent v : sort_keys (sort_keys v) = sort_keys v.
Proof.
  induction v as [|b|n|s|l IH|d IH] using json_nested_ind; try reflexivity.
  - simpl. f_equal. rewrite List.map_map.
    induction IH as [|x l Hx _ IHl]; simpl; [reflexivity|].
    rewrite Hx, IHl. reflexivity.
  - simpl. f_equal.
    rewrite (sort_members_map sort_keys).
    rewrite sort_members_of_sorted by apply sort_members_sorted.
    rewrite <- (sort_members_map sort_keys). f_equal.
    rewrite List.map_map. simpl.
    induction IH as [|kv d Hx _ IHd]; simpl; [reflexivity|].
    rewrite Hx, IHd. reflexivity.
Qed.

Lemma deep_equal_refl v : deep_equal v v.
Proof. reflexivity. Qed.

Lemma deep_equal_sym a b : deep_equal a b -> deep_equal b a.
Proof. unfold deep_equal. congruence. Qed.

Lemma deep_equal_trans a b c : deep_equal a b -> deep_equal b c -> deep_equal a c.
Proof. unfold deep_equal. congruence. Qed.

Lemma deep_equal_sort_keys v : deep_equal (sort_keys v) v.
Proof. apply sort_keys_idempotent. Qed.

(** The order of a dict's members does not count: two dicts with the
    same members, each key once, are equal. *)
Lemma insert_member_swap a b d :
  fst a <> fst b -> key_sorted d ->
  insert_member a (insert_member b d) = insert_member b (insert_member a d).
Proof.
  intros Hne Hs. induction Hs as [|kv|kv kv' d Hle Hs IH].
  - simpl. destruct (String.leb (fst a) (fst b)) eqn:Eab,
             (String.leb (fst b) (fst a)) eqn:Eba; try reflexivity.
    + exfalso. apply Hne. apply String.leb_antisym; assumption.
    + destruct (String.leb_total (fst a) (fst b)); congruence.
  - simpl.
    destruct (String.leb (fst b) (fst kv)) eqn:Eb,
             (String.leb (fst a) (fst kv)) eqn:Ea; simpl;
      destruct (String.leb (fst a) (fst b)) eqn:Eab,
               (String.leb (fst b) (fst a)) eqn:Eba; simpl;
      rewrite ?Ea, ?Eb; try reflexivity;
      try (exfalso; apply Hne; apply String.leb_antisym; assumption);
      try (destruct (String.leb_total (fst a) (fst b)); congruence).
    + rewrite (leb_trans _ _ _ Eab Eb) in Ea. discriminate.
    + rewrite (leb_trans _ _ _ Eba Ea) in Eb. discriminate.
  - change (insert_member b (kv :: kv' :: d))
      with (if String.leb (fst b) (fst kv) then b :: kv :: kv' :: d
            else kv :: insert_member b (kv' :: d)).
    change (insert_member a (kv :: kv' :: d))
      with (if String.leb (fst a) (fst kv) then a :: kv :: kv' :: d
            else kv :: insert_member a (kv' :: d)).
    destruct (String.leb (fst b) (fst kv)) eqn:Eb,
             (String.leb (fst a) (fst kv)) eqn:Ea.
    + simpl. destruct (String.leb (fst a) (fst b)) eqn:Eab,
               (String.leb (fst b) (fst a)) eqn:Eba; simpl;
        rewrite ?Ea, ?Eb; try reflexivity.
      * exfalso. apply Hne. apply String.leb_antisym; assumption.
      * destruct (String.leb_total (fst a) (fst b)); congruence.
    + change (insert_member a (b :: kv :: kv' :: d))
        with (if String.leb (fst a) (fst b) then a :: b :: kv :: kv' :: d
              else b :: insert_member a (kv :: kv' :: d)).
      destruct (String.leb (fst a) (fst b)) eqn:Eab.
      * rewrite (leb_trans _ _ _ Eab Eb) in Ea. discriminate.
      * change (insert_member a (kv :: kv' :: d))
          with (if String.leb (fst a) (fst kv) then a :: kv :: kv' :: d
                else kv :: insert_member a (kv' :: d)).
        rewrite Ea.
        change (insert_member b (kv :: insert_member a (kv' :: d)))
          with (if String.leb (fst b) (fst kv) then b :: kv :: insert_member a (kv' :: d)
                else kv :: insert_member b (insert_member a (kv' :: d))).
        rewrite Eb. reflexivity.
    + change (insert_member b (a :: kv :: kv' :: d))
        with (if String.leb (fst b) (fst a) then b :: a :: kv :: kv' :: d
              else a :: insert_member b (kv :: kv' :: d)).
      destruct (String.leb (fst b) (fst a)) eqn:Eba.
      * rewrite (leb_trans _ _ _ Eba Ea) in Eb. discriminate.
      * change (insert_member b (kv :: kv' :: d))
          with (if String.leb (fst b) (fst kv) then b :: kv :: kv' :: d
                else kv :: insert_member b (kv' :: d)).
        rewrite Eb.
        change (insert_member a (kv :: insert_member b (kv' :: d)))
          with (if String.leb (fst a) (fst kv) then a :: kv :: insert_member b (kv' :: d)
                else kv :: insert_member a (insert_member b (kv' :: d))).
        rewrite Ea. reflexivity.
    + change (insert_member a (kv :: insert_member b (kv' :: d)))
        with (if String.leb (fst a) (fst kv) then a :: kv :: insert_member b (kv' :: d)
              else kv :: insert_member a (insert_member b (kv' :: d))).
      change (insert_member b (kv :: insert_member a (kv' :: d)))
        with (if String.leb (fst b) (fst kv) then b :: kv :: insert_member a (kv' :: d)
              else kv :: insert_member b (insert_member a (kv' :: d))).
      rewrite Ea, Eb, IH. reflexivity.
Qed.

Lemma sort_members_permutation d d' :
  Permutation d d' -> NoDup (List.map fst d) -> sort_members d = sort_members d'.
Proof.
  induction 1 as [|x l l' Hp IH|x y l|l l' l'' Hp1 IH1 Hp2 IH2]; intros Hnd.
  - reflexivity.
  - simpl. rewrite IH; [reflexivity|]. simpl in Hnd. apply NoDup_cons_1_2 in Hnd. exact Hnd.
  - simpl. apply insert_member_swap; [|apply sort_members_sorted].
    simpl in Hnd. apply NoDup_cons in Hnd as [Hin _].
    intros E. apply Hin. rewrite E. left.
  - rewrite IH1 by exact Hnd. apply IH2.
    assert (Hk : Permutation (List.map fst l) (List.map fst l'))
      by (apply Permutation_map; exact Hp1).
    rewrite <- Hk. exact Hnd.
Qed.

Lemma deep_equal_permutation d d' :
  Permutation d d' -> NoDup (List.map fst d) -> deep_equal (JDict d) (JDict d').
Proof.
  intros Hp Hnd. unfold deep_equal. simpl. f_equal.
  apply sort_members_permutation.
  - apply Permutation_map. exact Hp.
  - rewrite List.map_map. simpl. exact Hnd.
Qed.

(** Both libraries read back what they write, up to the order of
    keys, whatever the value. *)
Lemma reference_round_trips v : @round_trips reference v.
Proof. exists v. split; [apply reference_round_trip | reflexivity]. Qed.

Lemma sorting_round_trips v : @round_trips sorting v.
Proof.
  exists (sort_keys v). split; [|apply deep_equal_sort_keys].
  exact (reference_round_trip (sort_keys v)).
Qed.

(** ** The credentials file *)

Lemma credentials_line_fields line :
  contains "=" line = true ->
  take 2 (strip <$> split "=" line) = [credential_key line; credential_value line].
Proof.
  intros H. rewrite (split_before_after "=" line), H.
  rewrite (split_before_after "=" (after "=" line)). reflexivity.
Qed.

Lemma credentials_of_app l1 l2 :
  credentials_of (l1 ++ l2) =
  foldl (fun d line =>
           if contains "=" line
           then <[credential_key line := credential_value line]> d
           else d) (credentials_of l1) l2.
Proof. unfold credentials_of. apply foldl_app. Qed.

Lemma credentials_fold_keep (k : string) l2 : forall d : gmap string string,
  Forall (fun l => contains "=" l = true -> credential_key l <> k) l2 ->
  foldl (fun d line =>
           if contains "=" line
           then <[credential_key line := credential_value line]> d
           else d) d l2 !! k = d !! k.
Proof.
  induction l2 as [|l l2 IH]; intros d Hall; simpl; [reflexivity|].
  inversion Hall as [|? ? Hl Hrest]; subst.
  rewrite IH by assumption.
  destruct (contains "=" l) eqn:E; [|reflexivity].
  apply lookup_insert_ne. auto.
Qed.

(** C10: [read_credentials] returns (it does not raise on any file that
    exists) the mapping in which each line with an equals sign gives
    the stripped text before the first sign as key and the stripped
    text between the first and second sign as value; a key is bound to
    the value of the last such line that has it, and to nothing when no
    line with an equals sign has it, so lines without one are ignored. *)
Theorem read_credentials_mapping (w : world) (content : string) :
  files w !! credentials_path w = Some content ->
  let lines := readlines (universal_newlines content) in
  read_credentials w = (Ok (credentials_of lines), w)
  /\ (forall l1 line l2,
        lines = l1 ++ line :: l2 ->
        contains "=" line = true ->
        Forall (fun l => contains "=" l = true ->
                         credential_key l <> credential_key line) l2 ->
        credentials_of lines !! credential_key line = Some (credential_value line))
  /\ (forall k,
        Forall (fun l => contains "=" l = true -> credential_key l <> k) lines ->
        credentials_of lines !! k = None).
Proof.
  intros Hfile lines. split; [|split].
  - unfold read_credentials, bind, gets, read_text. rewrite Hfile.
    apply (for_each_pure
             (fun d line => if contains "=" line
                            then <[credential_key line := credential_value line]> d
                            else d)).
    intros acc line. rewrite split_length_contains.
    destruct (contains "=" line) eqn:E; [|reflexivity].
    rewrite (credentials_line_fields line E). reflexivity.
  - intros l1 line l2 -> Hc Hall.
    change (l1 ++ line :: l2) with (l1 ++ [line] ++ l2).
    rewrite app_assoc, credentials_of_app, credentials_fold_keep by assumption.
    rewrite credentials_of_app. simpl. rewrite Hc. apply lookup_insert_eq.
  - intros k Hall. unfold credentials_of.
    rewrite credentials_fold_keep by assumption. apply lookup_empty.
Qed.

Lemma read_credentials_mapping_witness :
  read_credentials (Samples.fresh_home Samples.nobody)
  = (Ok (<["client_id" := "xyz"]>
           (<["client_secret" := "s3cret"]>
              (<["client_id" := "abc"]> ∅))),
     Samples.fresh_home Samples.nobody).
Proof.
  destruct (read_credentials_mapping (Samples.fresh_home Samples.nobody)
              Samples.credentials_text) as [H _]; [reflexivity|].
  rewrite H. reflexivity.
Defined.

(** ** The handshake *)

Lemma thread_eqb_refl t : thread_eqb t t = true.
Proof. destruct t; simpl; apply Nat.eqb_refl. Qed.

Lemma thread_eqb_eq a b : thread_eqb a b = true <-> a = b.
Proof.
  destruct a, b; simpl; rewrite ?Nat.eqb_eq; split; intros H;
    try discriminate; try (inversion H; reflexivity); subst; reflexivity.
Qed.

Lemma poller_is_not_caller t : thread_eqb t (poller_of t) = false.
Proof.
  destruct t as [n|n]; simpl; [reflexivity|].
  apply Nat.eqb_neq. lia.
Qed.

(** Every tick of the poller is answered, and answered with [True]. *)
Lemma repeat_while_on_poll n : forall s : state,
  repeat_while n (on_poll poll_callback) s
  = (Ok true,
     set_env (set_log (log (env s) ++ replicate n (PollCallback true)) (env s)) s).
Proof.
  induction n as [|n IH]; intros [[f h sv l] i].
  - simpl. unfold ret, set_env, set_log. simpl. rewrite app_nil_r. reflexivity.
  - simpl. unfold bind at 1. unfold on_poll, poll_callback, bind, lift, emit, modify, ret.
    simpl. rewrite IH. unfold set_env, set_log. simpl.
    rewrite <- app_assoc. reflexivity.
Qed.

Section Handshake.
Context {codec : Codec}.

(** The poller of a sleeping caller finds the lock free, reports its
    terminal event and leaves the lock free and nobody asleep. *)
Lemma run_poller_free t p f h sv l u ci cs ws a :
  run_poller t p
    {| env := {| files := f; HOME := h; service := sv; log := l |};
       self := {| username := u; client_id := ci; client_secret := cs;
                  is_authenticating := {| owner := None; waiters := ws |};
                  authorization := a |} |}
  = (Ok tt,
     {| env := {| files := f; HOME := h; service := sv;
                  log := l ++ replicate (ticks p) (PollCallback true)
                           ++ terminal_prints (outcome p) |};
        self := {| username := u; client_id := ci; client_secret := cs;
                   is_authenticating := {| owner := None; waiters := [] |};
                   authorization := terminal_authorization (outcome p) a |} |}).
Proof.
  unfold run_poller. unfold bind at 1. rewrite repeat_while_on_poll.
  destruct p as [n o]. simpl.
  destruct o as [|a'|]; simpl;
    unfold on_aborted, on_authenticated, on_expired, acquire, acquire_nonblocking,
      notify_all, release, cond, set_cond, bind, lift, print, emit, modify, gets, ret;
    repeat (progress (simpl; rewrite ?thread_eqb_refl));
    unfold set_self, set_env, set_log, set_is_authenticating, set_authorization; simpl;
    rewrite <- ?app_assoc; reflexivity.
Qed.

(** A call that finds the lock free runs the whole handshake and
    answers [True], whatever the poller reports. *)
Lemma authenticate_runs t s code :
  can_acquire t (is_authenticating (self s)) = true ->
  device_code (service (env s)) = Some code ->
  authenticate t s = (Ok true, after_handshake t code s).
Proof.
  destruct s as [[f h sv l] [u ci cs [o ws] a]]. simpl. intros Hfree Hcode.
  unfold after_handshake, handshake_log. simpl.
  unfold authenticate, bind at 1.
  assert (Hacq : acquire_nonblocking t
            {| env := {| files := f; HOME := h; service := sv; log := l |};
               self := {| username := u; client_id := ci; client_secret := cs;
                          is_authenticating := {| owner := o; waiters := ws |};
                          authorization := a |} |}
          = (Ok true,
             {| env := {| files := f; HOME := h; service := sv; log := l |};
                self := {| username := u; client_id := ci; client_secret := cs;
                           is_authenticating :=
                             {| owner := Some (t, match o with
                                                  | Some (_, n) => S n
                                                  | None => 1%nat
                                                  end);
                                waiters := ws |};
                           authorization := a |} |})).
  { unfold acquire_nonblocking, cond, set_cond, bind, gets, modify, ret. simpl.
    destruct o as [[t' n]|]; simpl; [|reflexivity].
    unfold can_acquire in Hfree. simpl in Hfree. rewrite Hfree. reflexivity. }
  rewrite Hacq. simpl.
  unfold bind at 1. unfold lift at 1, emit, modify. simpl.
  unfold bind at 1. unfold gets at 1. simpl. rewrite Hcode.
  unfold bind at 1. unfold lift at 1, print, emit, modify. simpl.
  unfold bind at 1. unfold lift at 1, emit, modify. simpl.
  unfold bind at 1. unfold wait. unfold bind at 1.
  unfold wait_sleep, cond, set_cond, bind, gets, modify, ret. simpl.
  rewrite thread_eqb_refl. simpl.
  unfold set_self, set_env, set_log, set_is_authenticating. simpl.
  rewrite run_poller_free.
  unfold wait_wake, cond, set_cond, bind, gets, modify, ret. simpl.
  unfold store_auth, bind, gets, lift, write_text, modify, set_env, set_files. simpl.
  rewrite <- !app_assoc. reflexivity.
Qed.

End Handshake.

Section HandshakeClaims.
Context {codec : Codec}.

(** C1, as the code has it: when the poller reports [aborted] or
    [expired], [authenticate] answers [True] as it does on success
    (the code has no failure value for the two events), leaves the
    authorization in memory as it was, and rewrites the token file
    with the serialization of that authorization, every other file
    staying as it was; the token file is therefore unchanged exactly
    when it already held that serialization. *)
Theorem authenticate_not_approved (t : thread) (s : state) (code : list (string * json)) :
  can_acquire t (is_authenticating (self s)) = true ->
  device_code (service (env s)) = Some code ->
  outcome (device_poll (service (env s))) = Aborted
  \/ outcome (device_poll (service (env s))) = Expired ->
  exists s',
    authenticate t s = (Ok true, s')
    /\ authorization (self s') = authorization (self s)
    /\ files (env s')
       = <[auth_token (env s) := dump (authorization (self s))]> (files (env s))
    /\ (files (env s) !! auth_token (env s) = Some (dump (authorization (self s)))
        <-> files (env s') = files (env s)).
Proof.
  intros Hfree Hcode Hout. exists (after_handshake t code s).
  assert (Ha : terminal_authorization (outcome (device_poll (service (env s))))
                 (authorization (self s)) = authorization (self s)).
  { destruct Hout as [-> | ->]; reflexivity. }
  split; [apply authenticate_runs; assumption|].
  unfold after_handshake. simpl. rewrite Ha.
  split; [reflexivity|]. split; [reflexivity|].
  split.
  - intros H. apply insert_id. exact H.
  - intros H. rewrite <- H. apply lookup_insert_eq.
Qed.

(** C2: when the poller reports [authenticated(payload)],
    [authenticate] answers [True], the authorization in memory is
    [payload] and the token file holds the serialization of [payload];
    [read_auth] then answers whatever the JSON library reads from that
    text, so that with a library that reads back what it writes for
    [payload] up to the order of keys (the one that sorts the keys and
    the one that keeps them both do, for every value) the token file
    parses to a value deep-equal to [payload]. *)
Theorem authenticate_approved (t : thread) (s : state) (code : list (string * json))
    (payload : json) :
  can_acquire t (is_authenticating (self s)) = true ->
  device_code (service (env s)) = Some code ->
  outcome (device_poll (service (env s))) = Authenticated payload ->
  exists s',
    authenticate t s = (Ok true, s')
    /\ authorization (self s') = payload
    /\ files (env s') !! auth_token (env s') = Some (dump payload)
    /\ (forall v, load (universal_newlines (dump payload)) = Some v ->
                  read_auth (env s') = (Ok v, env s'))
    /\ (round_trips payload ->
        exists v, read_auth (env s') = (Ok v, env s') /\ deep_equal v payload).
Proof.
  intros Hfree Hcode Hout. exists (after_handshake t code s).
  split; [apply authenticate_runs; assumption|].
  unfold after_handshake. rewrite Hout. simpl.
  split; [reflexivity|].
  assert (Hfile : <[auth_token (env s) := dump payload]> (files (env s))
                    !! auth_token
                         {| files := <[auth_token (env s) := dump payload]> (files (env s));
                            HOME := HOME (env s);
                            service := service (env s);
                            log := log (env s)
                                   ++ handshake_log code (device_poll (service (env s))) |}
                  = Some (dump payload)).
  { unfold auth_token. simpl. apply lookup_insert_eq. }
  split; [exact Hfile|].
  assert (Hread : forall v, load (universal_newlines (dump payload)) = Some v ->
            read_auth
              {| files := <[auth_token (env s) := dump payload]> (files (env s));
                 HOME := HOME (env s);
                 service := service (env s);
                 log := log (env s)
                        ++ handshake_log code (device_poll (service (env s))) |}
            = (Ok v,
               {| files := <[auth_token (env s) := dump payload]> (files (env s));
                  HOME := HOME (env s);
                  service := service (env s);
                  log := log (env s)
                         ++ handshake_log code (device_poll (service (env s))) |})).
  { intros v Hv. unfold read_auth, bind, gets. simpl. rewrite Hfile, Hv. reflexivity. }
  split; [exact Hread|].
  intros (v & Hv & Heq). exists v. split; [apply Hread; exact Hv | exact Heq].
Qed.

(** C8: a call that takes the lock and gets its device code writes the
    token file whatever the poller reports: the file then holds the
    serialization of the authorization in memory, which is that of
    [None] (JSON null) when the handshake was aborted or expired and
    there was no authorization before. *)
Theorem authenticate_always_stores (t : thread) (s : state) (code : list (string * json)) :
  can_acquire t (is_authenticating (self s)) = true ->
  device_code (service (env s)) = Some code ->
  exists s',
    authenticate t s = (Ok true, s')
    /\ files (env s') !! auth_token (env s') = Some (dump (authorization (self s')))
    /\ (authorization (self s) = JNull ->
        (forall a, outcome (device_poll (service (env s))) <> Authenticated a) ->
        files (env s') !! auth_token (env s') = Some (dump JNull)).
Proof.
  intros Hfree Hcode. exists (after_handshake t code s).
  split; [apply authenticate_runs; assumption|].
  assert (Hfile : files (env (after_handshake t code s))
                    !! auth_token (env (after_handshake t code s))
                  = Some (dump (authorization (self (after_handshake t code s))))).
  { unfold after_handshake, auth_token. simpl. apply lookup_insert_eq. }
  split; [exact Hfile|].
  intros Hnull Hnot. rewrite Hfile. unfold after_handshake. simpl.
  destruct (outcome (device_poll (service (env s)))) as [|a|]; simpl;
    try (rewrite Hnull; reflexivity).
  exfalso. apply (Hnot a). reflexivity.
Qed.

End HandshakeClaims.

(** With the reference library the token file reads back as the
    payload for every payload: the condition of the theorem above on
    the JSON library is one that a library can meet everywhere. *)
Lemma authenticate_approved_reference (t : thread) (s : state)
    (code : list (string * json)) (payload : json) :
  can_acquire t (is_authenticating (self s)) = true ->
  device_code (service (env s)) = Some code ->
  outcome (device_poll (service (env s))) = Authenticated payload ->
  exists s',
    @authenticate reference t s = (Ok true, s')
    /\ authorization (self s') = payload
    /\ @read_auth reference (env s') = (Ok payload, env s').
Proof.
  intros Hfree Hcode Hout. exists (@after_handshake reference t code s).
  split; [apply authenticate_runs; assumption|].
  unfold after_handshake. rewrite Hout. simpl.
  split; [reflexivity|].
  unfold read_auth, bind, gets, auth_token. simpl.
  rewrite lookup_insert_eq.
  pose proof (reference_round_trip payload) as Hround. simpl in Hround.
  rewrite Hround. reflexivity.
Qed.

(** With the library that sorts the keys the token file reads back as
    the payload with its keys in order, which is deep-equal to the
    payload, for every payload. *)
Lemma authenticate_approved_sorting (t : thread) (s : state)
    (code : list (string * json)) (payload : json) :
  can_acquire t (is_authenticating (self s)) = true ->
  device_code (service (env s)) = Some code ->
  outcome (device_poll (service (env s))) = Authenticated payload ->
  exists s',
    @authenticate sorting t s = (Ok true, s')
    /\ authorization (self s') = payload
    /\ @read_auth sorting (env s') = (Ok (sort_keys payload), env s')
    /\ deep_equal (sort_keys payload) payload.
Proof.
  intros Hfree Hcode Hout. exists (@after_handshake sorting t code s).
  split; [apply authenticate_runs; assumption|].
  unfold after_handshake. rewrite Hout. simpl.
  split; [reflexivity|].
  split; [|apply deep_equal_sort_keys].
  unfold read_auth, bind, gets, auth_token. simpl.
  rewrite lookup_insert_eq.
  pose proof (reference_round_trip (sort_keys payload)) as Hround. simpl in Hround.
  rewrite Hround. reflexivity.
Qed.

(** The key-sorting library does not give back the very dict it was
    given when the keys of that dict were not in order. *)
Lemma sorting_reorders :
  @load sorting (universal_newlines (@dump sorting Samples.token))
  = Some (sort_keys Samples.token)
  /\ sort_keys Samples.token <> Samples.token.
Proof. split; [vm_compute; reflexivity | vm_compute; discriminate]. Qed.

(** C1 fails as stated: with no token file and no authorization, an
    aborted (and likewise an expired) handshake answers [True], the
    answer of a success, and leaves a token file holding [null]. *)
Lemma aborted_handshake_writes_token_file :
  let s := Samples.at_rest Samples.nobody JNull in
  let e := Samples.at_rest Samples.expiring JNull in
  outcome (device_poll (service (env s))) = Aborted
  /\ files (env s) !! auth_token (env s) = None
  /\ fst (@authenticate reference (Main 0) s) = Ok true
  /\ files (env (snd (@authenticate reference (Main 0) s))) !! auth_token (env s)
     = Some "null"
  /\ outcome (device_poll (service (env e))) = Expired
  /\ files (env e) !! auth_token (env e) = None
  /\ fst (@authenticate reference (Main 0) e) = Ok true
  /\ files (env (snd (@authenticate reference (Main 0) e))) !! auth_token (env e)
     = Some "null".
Proof. vm_compute. repeat split; reflexivity. Qed.

Lemma authenticate_not_approved_witness :
  exists s',
    @authenticate reference (Main 0) (Samples.at_rest Samples.expiring Samples.token)
    = (Ok true, s')
    /\ authorization (self s') = Samples.token.
Proof.
  destruct (@authenticate_not_approved reference (Main 0)
              (Samples.at_rest Samples.expiring Samples.token)
              [("user_code", JStr "ABCD1234");
               ("verification_url", JStr "https://trakt.tv/activate")])
    as (s' & H1 & H2 & _).
  - reflexivity.
  - reflexivity.
  - right. reflexivity.
  - exists s'. split; [exact H1 | exact H2].
Defined.

Lemma authenticate_approved_witness :
  exists s',
    @authenticate sorting (Main 0) (Samples.at_rest Samples.approving JNull)
    = (Ok true, s')
    /\ authorization (self s') = Samples.token
    /\ exists v, @read_auth sorting (env s') = (Ok v, env s')
                 /\ deep_equal v Samples.token.
Proof.
  destruct (@authenticate_approved sorting (Main 0)
              (Samples.at_rest Samples.approving JNull)
              [("user_code", JStr "ABCD1234");
               ("verification_url", JStr "https://trakt.tv/activate")]
              Samples.token)
    as (s' & H1 & H2 & _ & _ & H3).
  - reflexivity.
  - reflexivity.
  - reflexivity.
  - exists s'. split; [exact H1|]. split; [exact H2|].
    apply H3. exists (sort_keys Samples.token).
    split; vm_compute; reflexivity.
Defined.

Lemma authenticate_always_stores_witness :
  exists s',
    @authenticate reference (Main 0) (Samples.at_rest Samples.nobody JNull)
    = (Ok true, s')
    /\ files (env s') !! auth_token (env s') = Some "null".
Proof.
  destruct (@authenticate_always_stores reference (Main 0)
              (Samples.at_rest Samples.nobody JNull)
              [("user_code", JStr "ABCD1234");
               ("verification_url", JStr "https://trakt.tv/activate")])
    as (s' & H1 & _ & H2).
  - reflexivity.
  - reflexivity.
  - exists s'. split; [exact H1|].
    apply H2; [reflexivity | intros a; discriminate].
Defined.

(** ** The hooks *)

(** C7: [on_poll] calls the callback it is given with [True]; and in
    any run of a poller every one of its ticks is answered so: the
    callback values logged are exactly one [True] per tick. *)
Theorem on_poll_continues :
  (forall (A : Type) (callback : bool -> M state A), on_poll callback = callback true)
  /\ (forall (codec : Codec) (t : thread) (p : poller_script) (s : state),
        exists tail,
          log (env (snd (run_poller t p s)))
          = log (env s) ++ replicate (ticks p) (PollCallback true) ++ tail
          /\ Forall (fun a => forall b, a <> PollCallback b) tail).
Proof.
  split; [reflexivity|].
  intros codec t [n out] [[f h sv l] [u ci cs [o ws] a]].
  unfold run_poller. unfold bind at 1. rewrite repeat_while_on_poll. simpl.
  unfold set_env, set_log. simpl.
  destruct out as [|a'|]; destruct o as [[t' k]|];
    unfold on_aborted, on_authenticated, on_expired, acquire, acquire_nonblocking,
      notify_all, release, cond, set_cond, bind, lift, print, emit, modify, gets, ret,
      block; simpl;
    try (destruct (thread_eqb t t') eqn:E; simpl);
    repeat (progress (simpl; rewrite ?thread_eqb_refl));
    first
      [ exists []; split; [rewrite app_nil_r; reflexivity | constructor]
      | eexists [_]; split;
        [rewrite <- ?app_assoc; reflexivity
        | repeat constructor; intros b; discriminate] ].
Qed.

(** C4 fails on the code: [on_token_refreshed] stores the new payload
    in memory only.  No file is written, the token file included; a
    token file that held the old token still parses to the old token
    after the hook has run. *)
Theorem token_refresh_not_persisted :
  (forall (payload : json) (s : state),
      exists s',
        on_token_refreshed payload s = (Ok tt, s')
        /\ authorization (self s') = payload
        /\ files (env s') = files (env s))
  /\ (let s := {| env := Samples.home_with_token (ref_dump Samples.token) Samples.nobody;
                  self := Samples.idle Samples.token |} in
      let s' := snd (on_token_refreshed Samples.newer_token s) in
      authorization (self s') = Samples.newer_token
      /\ @read_auth reference (env s) = (Ok Samples.token, env s)
      /\ @read_auth reference (env s') = (Ok Samples.token, env s')
      /\ Samples.token <> Samples.newer_token).
Proof.
  split.
  - intros payload [[f h sv l] i]. eexists. split; [reflexivity|]. split; reflexivity.
  - vm_compute. repeat split; try reflexivity. discriminate.
Qed.

(** ** Construction *)

Section Construction.
Context {codec : Codec}.

Lemma read_auth_configured id secret w :
  read_auth (configured id secret w)
  = (fst (read_auth w), configured id secret w).
Proof.
  unfold read_auth, bind, gets, configured, auth_token. simpl.
  destruct (files w !! (fmt_s (HOME w) +:+ "/.trakt/auth_token.json")) as [text|];
    [|reflexivity].
  destruct (load (universal_newlines text)); reflexivity.
Qed.

Lemma init_after_credentials t u w creds id secret :
  read_credentials w = (Ok creds, w) ->
  creds !! "client_id" = Some id ->
  creds !! "client_secret" = Some secret ->
  __init__ t u w
  = match fst (read_auth w) with
    | Ok JNull =>
        match authenticate t {| env := configured id secret w;
                                self := fresh_instance u id secret JNull |} with
        | (Ok _, s) => (Ok (self s), env s)
        | (Raise e, s) => (Raise e, env s)
        | (Blocked, s) => (Blocked, env s)
        end
    | Ok a => (Ok (fresh_instance u id secret a), configured id secret w)
    | Raise e => (Raise e, configured id secret w)
    | Blocked => (Blocked, configured id secret w)
    end.
Proof.
  intros Hc Hid Hsec. unfold __init__. unfold bind at 1. rewrite Hc.
  unfold bind at 1. unfold getitem at 1. rewrite Hid. unfold ret at 1.
  unfold bind at 1. unfold getitem at 1. rewrite Hsec. unfold ret at 1.
  unfold bind at 1. unfold emit at 1, modify.
  unfold bind at 1. unfold emit at 1, modify.
  replace (set_log (log (set_log (log w ++ [Configure id secret]) w)
                    ++ [BindEvent "oauth.token_refreshed"])
                   (set_log (log w ++ [Configure id secret]) w))
    with (configured id secret w)
    by (unfold configured, set_log; simpl; rewrite <- app_assoc; reflexivity).
  unfold bind at 1. rewrite read_auth_configured.
  destruct (fst (read_auth w)) as [a|e|]; try reflexivity.
  destruct a; try reflexivity.
  unfold bind, call, ret, fresh_instance.
  destruct (authenticate t _) as [[b|e|] s']; reflexivity.
Qed.

Lemma authenticate_requests_code t s :
  can_acquire t (is_authenticating (self s)) = true ->
  exists tail,
    log (env (snd (authenticate t s))) = log (env s) ++ OAuthDeviceCode :: tail.
Proof.
  intros Hfree.
  destruct (device_code (service (env s))) as [code|] eqn:Hcode.
  - rewrite (authenticate_runs t s code Hfree Hcode).
    unfold after_handshake, handshake_log. simpl. eexists. reflexivity.
  - exists []. destruct s as [[f h sv l] [u ci cs [o ws] a]].
    simpl in *. unfold can_acquire in Hfree. simpl in Hfree.
    unfold authenticate, acquire_nonblocking, cond, set_cond, bind, gets, modify, ret,
      lift, emit. simpl.
    destruct o as [[t' n]|]; simpl; [rewrite Hfree|]; simpl; rewrite Hcode; reflexivity.
Qed.

(** C5, as the code has it: with the credentials in place, the
    constructor starts a handshake by itself (it asks for a device
    code) when the token file is missing or holds JSON null; when the
    file holds another JSON value no handshake is started and that
    value is the authorization in memory; when the file does not
    parse, the constructor raises the decoding error and starts no
    handshake. *)
Theorem init_reads_token_file (t : thread) (u : string) (w : world)
    (creds : gmap string string) (id secret : string) :
  read_credentials w = (Ok creds, w) ->
  creds !! "client_id" = Some id ->
  creds !! "client_secret" = Some secret ->
  (files w !! auth_token w = None
   \/ (exists text, files w !! auth_token w = Some text
                    /\ load (universal_newlines text) = Some JNull) ->
   exists tail,
     log (snd (__init__ t u w))
     = log w ++ [Configure id secret; BindEvent "oauth.token_refreshed";
                 OAuthDeviceCode] ++ tail)
  /\ (forall text a,
        files w !! auth_token w = Some text ->
        load (universal_newlines text) = Some a ->
        a <> JNull ->
        __init__ t u w = (Ok (fresh_instance u id secret a), configured id secret w)
        /\ count_codes (log (configured id secret w)) = count_codes (log w)
        /\ count_pollers (log (configured id secret w)) = count_pollers (log w))
  /\ (forall text,
        files w !! auth_token w = Some text ->
        load (universal_newlines text) = None ->
        __init__ t u w = (Raise JSONDecodeError, configured id secret w)
        /\ count_codes (log (configured id secret w)) = count_codes (log w)).
Proof.
  intros Hc Hid Hsec.
  pose proof (init_after_credentials t u w creds id secret Hc Hid Hsec) as Hinit.
  assert (Hcount : count_codes (log (configured id secret w)) = count_codes (log w)
                   /\ count_pollers (log (configured id secret w))
                      = count_pollers (log w)).
  { unfold configured, count_codes, count_pollers. simpl.
    rewrite !List.filter_app. simpl. rewrite !app_nil_r. split; reflexivity. }
  split; [|split].
  - intros Hnull.
    assert (Hread : fst (read_auth w) = Ok JNull).
    { unfold read_auth, bind, gets.
      destruct Hnull as [-> | (text & -> & ->)]; reflexivity. }
    rewrite Hinit, Hread.
    destruct (authenticate_requests_code t
                {| env := configured id secret w;
                   self := fresh_instance u id secret JNull |}) as [tail Htail];
      [reflexivity|].
    exists tail.
    destruct (authenticate t _) as [[b|e|] s']; simpl in *; rewrite Htail;
      rewrite <- app_assoc; reflexivity.
  - intros text a Hfile Hload Hnn.
    split; [|exact Hcount].
    rewrite Hinit. unfold read_auth, bind, gets. rewrite Hfile, Hload. simpl.
    destruct a; try reflexivity. congruence.
  - intros text Hfile Hload.
    split; [|apply Hcount].
    rewrite Hinit. unfold read_auth, bind, gets. rewrite Hfile, Hload. reflexivity.
Qed.

End Construction.

(** C5 fails as stated: with an empty token file the constructor
    raises the decoding error; no device code is asked for and no
    poller is started. *)
Lemma empty_token_file_starts_no_handshake :
  let w := Samples.home_with_token "" Samples.nobody in
  files w !! auth_token w = Some ""
  /\ fst (@__init__ reference (Main 0) "ddboline" w) = Raise JSONDecodeError
  /\ count_codes (log (snd (@__init__ reference (Main 0) "ddboline" w))) = 0%nat
  /\ count_pollers (log (snd (@__init__ reference (Main 0) "ddboline" w))) = 0%nat.
Proof. vm_compute. repeat split; reflexivity. Qed.

Lemma init_reads_token_file_witness :
  (exists tail,
      log (snd (@__init__ reference (Main 0) "ddboline"
                  (Samples.fresh_home Samples.approving)))
      = [Configure "xyz" "s3cret"; BindEvent "oauth.token_refreshed"; OAuthDeviceCode]
        ++ tail)
  /\ @__init__ reference (Main 0) "ddboline"
       (Samples.home_with_token (ref_dump Samples.token) Samples.nobody)
     = (Ok (fresh_instance "ddboline" "xyz" "s3cret" Samples.token),
        configured "xyz" "s3cret"
          (Samples.home_with_token (ref_dump Samples.token) Samples.nobody)).
Proof.
  split.
  - destruct (@init_reads_token_file reference (Main 0) "ddboline"
                (Samples.fresh_home Samples.approving)
                (<["client_id" := "xyz"]>
                   (<["client_secret" := "s3cret"]> (<["client_id" := "abc"]> ∅)))
                "xyz" "s3cret") as (H & _ & _).
    + reflexivity.
    + reflexivity.
    + reflexivity.
    + apply H. left. reflexivity.
  - destruct (@init_reads_token_file reference (Main 0) "ddboline"
                (Samples.home_with_token (ref_dump Samples.token) Samples.nobody)
                (<["client_id" := "xyz"]>
                   (<["client_secret" := "s3cret"]> (<["client_id" := "abc"]> ∅)))
                "xyz" "s3cret") as (_ & H & _).
    + reflexivity.
    + reflexivity.
    + reflexivity.
    + apply (H (ref_dump Samples.token) Samples.token).
      * reflexivity.
      * vm_compute. reflexivity.
      * discriminate.
Defined.

(** ** Calls that meet *)

Import Handshake.

Section Rejection.
Context {codec : Codec}.

(** While another thread holds the lock, a call answers [False] at
    once: it prints its message and does nothing else. *)
Lemma authenticate_rejected t t' k s :
  owner (is_authenticating (self s)) = Some (t', k) ->
  thread_eqb t t' = false ->
  authenticate t s
  = (Ok false, set_env (set_log (log (env s) ++ [Print AlreadyStarted]) (env s)) s).
Proof.
  destruct s as [[f h sv l] [u ci cs [o ws] a]]. simpl. intros -> Hne.
  unfold authenticate, acquire_nonblocking, cond, set_cond, bind, gets, modify, ret,
    lift, print, emit. simpl. rewrite Hne. reflexivity.
Qed.

Lemma run1_step n s pcs p p' s' :
  default Entry (pcs !! n) = p ->
  step (Main n) p s = (Ok p', s') ->
  run1 (Step n) {| shared := s; at_pc := pcs |}
  = Some {| shared := s'; at_pc := <[n := p']> pcs |}.
Proof. intros Hp Hs. unfold run1, pc_of. simpl. rewrite Hp, Hs. reflexivity. Qed.

Lemma run1_poll n s pcs k s' :
  default Entry (pcs !! n) = Asleep k ->
  run_poller (PollerOf n) (device_poll (service (env s))) s = (Ok tt, s') ->
  run1 (Poll n) {| shared := s; at_pc := pcs |}
  = Some {| shared := s'; at_pc := pcs |}.
Proof. intros Hp Hs. unfold run1, pc_of. simpl. rewrite Hp, Hs. reflexivity. Qed.

Lemma pc_after_insert n p (pcs : gmap nat pc) : default Entry (<[n := p]> pcs !! n) = p.
Proof. rewrite lookup_insert_eq. reflexivity. Qed.

Section Statements.
Variables (f : gmap string string) (h : option string) (sv : TraktService).
Variables (u ci cs : string).

Local Abbreviation st := (state_of f h sv u ci cs).

Lemma step_entry t l o ws a :
  can_acquire t {| owner := o; waiters := ws |} = true ->
  step t Entry (st l o ws a)
  = (Ok Acquired,
     st l (Some (t, match o with Some (_, m) => S m | None => 1%nat end)) ws a).
Proof.
  unfold can_acquire, st. simpl. intros Hfree.
  unfold step, acquire_nonblocking, cond, set_cond, bind, gets, modify, ret. simpl.
  destruct o as [[t' m]|]; simpl; [rewrite Hfree|]; reflexivity.
Qed.

Lemma step_acquired t l o ws a code :
  device_code sv = Some code ->
  step t Acquired (st l o ws a)
  = (Ok (HaveCode code),
     st (l ++ [OAuthDeviceCode;
               Print (EnterCode (dict_get "user_code" code)
                                (dict_get "verification_url" code))]) o ws a).
Proof.
  intros Hcode. unfold step, st, bind, lift, emit, print, modify, gets, ret. simpl.
  rewrite Hcode. unfold set_env, set_log. simpl. rewrite <- app_assoc. reflexivity.
Qed.

Lemma step_have_code t l o ws a code :
  step t (HaveCode code) (st l o ws a)
  = (Ok Started, st (l ++ [PollerStart code]) o ws a).
Proof. reflexivity. Qed.

Lemma step_started t l k ws a :
  step t Started (st l (Some (t, k)) ws a)
  = (Ok (Asleep k), st l None (ws ++ [t]) a).
Proof.
  unfold step, st, wait_sleep, cond, set_cond, bind, gets, modify, ret. simpl.
  rewrite thread_eqb_refl. reflexivity.
Qed.

Lemma poller_runs t l ws a :
  run_poller t (device_poll (service (env (st l None ws a)))) (st l None ws a)
  = (Ok tt,
     st (l ++ replicate (ticks (device_poll sv)) (PollCallback true)
           ++ terminal_prints (outcome (device_poll sv)))
        None [] (terminal_authorization (outcome (device_poll sv)) a)).
Proof. apply run_poller_free. Qed.

Lemma step_asleep t l k a :
  step t (Asleep k) (st l None [] a)
  = (Ok (Awake true), st l (Some (t, k)) [] a).
Proof. reflexivity. Qed.

Lemma step_awake t l o ws a r :
  step t (Awake r) (st l o ws a)
  = (Ok (Returned r),
     {| env := {| files := <[fmt_s h +:+ "/.trakt/auth_token.json" := dump a]> f;
                  HOME := h; service := sv; log := l |};
        self := {| username := u; client_id := ci; client_secret := cs;
                   is_authenticating := {| owner := o; waiters := ws |};
                   authorization := a |} |}).
Proof. reflexivity. Qed.

(** The statements of [authenticate], run one by one with the poller
    in between, come to what the call comes to as a whole. *)
Lemma run_alone_st n pcs l o ws a code :
  default Entry (pcs !! n) = Entry ->
  can_acquire (Main n) {| owner := o; waiters := ws |} = true ->
  device_code sv = Some code ->
  exists sy',
    run (alone n) {| shared := st l o ws a; at_pc := pcs |} = Some sy'
    /\ authenticate (Main n) (st l o ws a) = (Ok true, shared sy')
    /\ pc_of n sy' = Returned true.
Proof.
  intros Hpc Hfree Hcode.
  rewrite (authenticate_runs (Main n) (st l o ws a) code Hfree Hcode).
  unfold alone. cbn [run].
  rewrite (run1_step _ _ _ _ _ _ Hpc (step_entry _ l o ws a Hfree)).
  rewrite (run1_step _ _ _ _ _ _ (pc_after_insert _ _ _)
             (step_acquired _ _ _ ws a code Hcode)).
  rewrite (run1_step _ _ _ _ _ _ (pc_after_insert _ _ _)
             (step_have_code _ _ _ ws a code)).
  rewrite (run1_step _ _ _ _ _ _ (pc_after_insert _ _ _)
             (step_started _ _ _ ws a)).
  rewrite (run1_poll _ _ _ _ _ (pc_after_insert _ _ _)
             (poller_runs _ _ _ a)).
  rewrite (run1_step _ _ _ _ _ _ (pc_after_insert _ _ _)
             (step_asleep _ _ _ _)).
  rewrite (run1_step _ _ _ _ _ _ (pc_after_insert _ _ _)
             (step_awake _ _ _ _ _ _)).
  eexists. split; [reflexivity|]. split.
  - unfold after_handshake, handshake_log, held_by, st, auth_token. simpl.
    rewrite <- !app_assoc. reflexivity.
  - unfold pc_of. simpl. apply pc_after_insert.
Qed.

End Statements.

Lemma run_alone n sy code :
  pc_of n sy = Entry ->
  can_acquire (Main n) (is_authenticating (self (shared sy))) = true ->
  device_code (service (env (shared sy))) = Some code ->
  exists sy',
    run (alone n) sy = Some sy'
    /\ authenticate (Main n) (shared sy) = (Ok true, shared sy')
    /\ pc_of n sy' = Returned true.
Proof.
  destruct sy as [[[f h sv l] [u ci cs [o ws] a]] pcs].
  apply run_alone_st.
Qed.

End Rejection.

(** C3 fails on the code.  While the first caller still holds the
    lock a second call is turned away; but [wait()] gives the lock up,
    so a second call made while the first sleeps in it takes the lock,
    asks for a second device code and starts a second poller: two
    calls are past the lock acquisition at once. *)
Theorem second_call_while_first_waits :
  let sy0 := {| shared := Samples.at_rest Samples.approving JNull; at_pc := ∅ |} in
  (exists sy,
      @run reference [Step 0; Step 1] sy0 = Some sy
      /\ pc_of 0 sy = Acquired
      /\ pc_of 1 sy = Returned false
      /\ log (env (shared sy)) = [Print AlreadyStarted])
  /\ (exists sy,
        @run reference [Step 0; Step 0; Step 0; Step 0; Step 1; Step 1; Step 1] sy0
        = Some sy
        /\ pc_of 0 sy = Asleep 1
        /\ pc_of 1 sy = Started
        /\ in_handshake (pc_of 0 sy) && in_handshake (pc_of 1 sy) = true
        /\ count_codes (log (env (shared sy))) = 2%nat
        /\ count_pollers (log (env (shared sy))) = 2%nat).
Proof.
  split; eexists; (split; [vm_compute; reflexivity|]); vm_compute; repeat split.
Qed.

(** ** Adding without a match *)

(** A lookup by imdb id that finds nothing gives the empty dict and
    sends no add request, in both methods. *)
Lemma add_by_imdb_without_match (s : state) (show : option string) (id : string)
    (season episode : option Z) :
  String.eqb id "" = false ->
  search_lookup (service (env s)) id = NoneFound
  \/ search_lookup (service (env s)) id = Many [] ->
  add_show_to_watchlist show (Some id) s
  = (Ok (JDict []), set_env (set_log (log (env s) ++ [SearchLookup id]) (env s)) s)
  /\ add_episode_to_watched show (Some id) season episode s
     = (Ok (JDict []), set_env (set_log (log (env s) ++ [SearchLookup id]) (env s)) s).
Proof.
  intros Hid Hnone.
  unfold add_show_to_watchlist, add_episode_to_watched, lookup_or_query, truthy_str.
  rewrite Hid. simpl.
  unfold do_lookup, bind, lift, emit, modify, gets, ret. simpl.
  destruct Hnone as [-> | ->]; simpl; split; reflexivity.
Qed.

(** A query by title that matches nothing makes [add_show_to_watchlist]
    raise, after the query and before any add request. *)
Lemma add_show_by_title_without_match (s : state) (show : string) :
  String.eqb show "" = false ->
  search_query (service (env s)) (replace "_" " " show) "show" = Some [] ->
  add_show_to_watchlist (Some show) None s
  = (Raise (AttributeError "to_dict"),
     set_env (set_log (log (env s) ++ [SearchQuery (replace "_" " " show) "show"])
                      (env s)) s).
Proof.
  intros Hshow Hq.
  unfold add_show_to_watchlist, lookup_or_query, truthy_str. rewrite Hshow. simpl.
  unfold do_query, bind, lift, emit, modify, gets, ret. simpl. rewrite Hq. reflexivity.
Qed.

(** C9 fails on the code for the query by title: [do_query] answers a
    dict, never [None] or a list, so with no match the methods do not
    return the empty dict: [add_show_to_watchlist] raises, as does
    [add_episode_to_watched] when a season is given, which returns
    [None] otherwise; and a query that yields [None] raises inside
    [do_query].  No add request is sent in any of these. *)
Theorem add_by_title_without_match :
  let s := Samples.at_rest Samples.nobody Samples.token in
  let q := Samples.with_poll (device_poll Samples.nobody)
             {| device_code := device_code Samples.nobody;
                device_poll := device_poll Samples.nobody;
                search_lookup := search_lookup Samples.nobody;
                search_query := fun _ _ => None;
                shows_episode := shows_episode Samples.nobody;
                shows_season := shows_season Samples.nobody;
                watchlist_add := watchlist_add Samples.nobody;
                history_add := history_add Samples.nobody |} in
  let n := Samples.at_rest q Samples.token in
  search_query (service (env s)) "no such show" "show" = Some []
  /\ fst (add_show_to_watchlist (Some "no_such_show") None s)
     = Raise (AttributeError "to_dict")
  /\ fst (add_episode_to_watched (Some "no_such_show") None (Some 1%Z) (Some 2%Z) s)
     = Raise (AttributeError "get_key")
  /\ fst (add_episode_to_watched (Some "no_such_show") None (Some 1%Z) None s)
     = Raise (AttributeError "get_key")
  /\ fst (add_episode_to_watched (Some "no_such_show") None None None s) = Ok JNull
  /\ log (env (snd (add_show_to_watchlist (Some "no_such_show") None s)))
     = [SearchQuery "no such show" "show"]
  /\ count_adds
       (log (env (snd (add_episode_to_watched (Some "no_such_show") None
                         (Some 1%Z) (Some 2%Z) s)))) = 0%nat
  /\ search_query (service (env n)) "no such show" "show" = None
  /\ fst (add_show_to_watchlist (Some "no_such_show") None n) = Raise TypeError
  /\ fst (add_episode_to_watched (Some "no_such_show") None (Some 1%Z) (Some 2%Z) n)
     = Raise TypeError.
Proof. vm_compute. repeat split; reflexivity. Qed.

(** ** The sync script *)

Import SyncDb.

Lemma gt_compare a b : gt a b = true <-> String.compare a b = Gt.
Proof.
  unfold gt, String.ltb. rewrite (String.compare_antisym a b).
  destruct (String.compare b a); simpl; split; congruence.
Qed.

Lemma gt_compare_lt a b : gt b a = true <-> String.compare a b = Lt.
Proof. unfold gt, String.ltb. destruct (String.compare a b); split; congruence. Qed.







(** * More of the code *)

Import Facade.
Import More.

(** ** Credentials: what the mapping can hold *)

Lemma lstrip_idempotent s : lstrip (lstrip s) = lstrip s.
Proof.
  induction s as [|c s IH]; [reflexivity|].
  simpl. destruct (isspace c) eqn:E; [exact IH|]. simpl. rewrite E. reflexivity.
Qed.

Lemma rstrip_idempotent s : rstrip (rstrip s) = rstrip s.
Proof.
  induction s as [|c s IH]; [reflexivity|].
  simpl. destruct (rstrip s) as [|c' r] eqn:E.
  - destruct (isspace c) eqn:Ec; [reflexivity|]. simpl. rewrite Ec. reflexivity.
  - simpl. simpl in IH. rewrite IH. reflexivity.
Qed.

Lemma rstrip_lstrip s : rstrip s = s -> rstrip (lstrip s) = lstrip s.
Proof.
  induction s as [|c s IH]; [reflexivity|].
  intros H. simpl. destruct (isspace c) eqn:Ec; [|exact H].
  apply IH. simpl in H. rewrite Ec in H.
  destruct (rstrip s) as [|c' r]; [discriminate|]. congruence.
Qed.

Lemma strip_idempotent s : strip (strip s) = strip s.
Proof.
  unfold strip.
  rewrite (rstrip_lstrip (rstrip s) (rstrip_idempotent s)).
  apply lstrip_idempotent.
Qed.

Lemma contains_lstrip c s : contains c s = false -> contains c (lstrip s) = false.
Proof.
  induction s as [|x s IH]; [reflexivity|].
  intros H. simpl. destruct (isspace x); [|exact H].
  apply IH. simpl in H. apply orb_false_iff in H. apply H.
Qed.

Lemma contains_rstrip c s : contains c s = false -> contains c (rstrip s) = false.
Proof.
  induction s as [|x s IH]; [reflexivity|].
  intros H. simpl in H. apply orb_false_iff in H. destruct H as [Hx Hs].
  specialize (IH Hs). simpl.
  destruct (rstrip s) as [|c' r].
  - destruct (isspace x); [reflexivity|]. simpl. rewrite Hx. reflexivity.
  - simpl. simpl in IH. rewrite Hx, IH. reflexivity.
Qed.

Lemma contains_strip c s : contains c s = false -> contains c (strip s) = false.
Proof. intros H. apply contains_lstrip, contains_rstrip, H. Qed.

Lemma contains_before c s : contains c (before c s) = false.
Proof.
  induction s as [|x s IH]; [reflexivity|].
  simpl. destruct (Ascii.eqb x c) eqn:E; [reflexivity|].
  simpl. rewrite E, IH. reflexivity.
Qed.

Lemma credentials_of_clean lines k v :
  credentials_of lines !! k = Some v -> clean k /\ clean v.
Proof.
  unfold credentials_of.
  assert (H : forall (d : gmap string string),
             (forall k v, d !! k = Some v -> clean k /\ clean v) ->
             forall k v,
               foldl (fun d line =>
                        if contains "=" line
                        then <[credential_key line := credential_value line]> d
                        else d) d lines !! k = Some v ->
               clean k /\ clean v).
  { induction lines as [|line lines IH]; intros d Hd k' v'; simpl; [apply Hd|].
    apply IH. intros k1 v1.
    destruct (contains "=" line); [|apply Hd].
    rewrite lookup_insert. case_decide as Hk; [|apply Hd].
    intros [= <-]. subst k1.
    unfold clean, credential_key, credential_value.
    rewrite !strip_idempotent.
    repeat split; try reflexivity; apply contains_strip, contains_before. }
  apply H. intros k' v'. rewrite lookup_empty. discriminate.
Qed.

Lemma read_credentials_runs (w : world) (content : string) :
  files w !! credentials_path w = Some content ->
  read_credentials w
  = (Ok (credentials_of (readlines (universal_newlines content))), w).
Proof.
  intros Hfile. unfold read_credentials, bind, gets, read_text. rewrite Hfile.
  apply (for_each_pure
           (fun d line => if contains "=" line
                          then <[credential_key line := credential_value line]> d
                          else d)).
  intros acc line. rewrite split_length_contains.
  destruct (contains "=" line) eqn:E; [|reflexivity].
  rewrite (credentials_line_fields line E). reflexivity.
Qed.

Lemma read_credentials_missing (w : world) :
  files w !! credentials_path w = None ->
  read_credentials w = (Raise (FileNotFoundError (credentials_path w)), w).
Proof.
  intros Hfile. unfold read_credentials, bind, gets, read_text. rewrite Hfile.
  reflexivity.
Qed.

(** X1: every key and every value that [read_credentials] returns is
    stripped of surrounding whitespace and holds no equals sign. *)
Theorem read_credentials_clean (w : world) (creds : gmap string string)
    (k v : string) :
  fst (read_credentials w) = Ok creds ->
  creds !! k = Some v ->
  (strip k = k /\ contains "=" k = false)
  /\ (strip v = v /\ contains "=" v = false).
Proof.
  intros Hrun Hk.
  destruct (files w !! credentials_path w) as [content|] eqn:Hfile.
  - rewrite (read_credentials_runs w content Hfile) in Hrun. simpl in Hrun.
    injection Hrun as <-. exact (credentials_of_clean _ k v Hk).
  - rewrite (read_credentials_missing w Hfile) in Hrun. discriminate.
Qed.

Lemma read_credentials_clean_witness :
  (strip "client_secret" = "client_secret" /\ contains "=" "client_secret" = false)
  /\ (strip "s3cret" = "s3cret" /\ contains "=" "s3cret" = false).
Proof.
  apply (read_credentials_clean (Samples.fresh_home Samples.nobody)
           (<["client_id" := "xyz"]>
              (<["client_secret" := "s3cret"]> (<["client_id" := "abc"]> ∅)))
           "client_secret" "s3cret"); reflexivity.
Defined.

(** ** Construction: errors *)

Section MoreConstruction.
Context {codec : Codec}.

(** X2: the constructor fails on its credentials before it does
    anything else.  Without the credentials file it raises
    [FileNotFoundError]; when no line with an equals sign has the key
    [client_id] (or, that one given, [client_secret]) it raises
    [KeyError] for that key.  In each case the world is as it was:
    the client is not configured, the token file is not read, no
    device code is asked for. *)
Theorem init_without_credentials (t : thread) (u : string) (w : world) :
  (files w !! credentials_path w = None ->
   __init__ t u w = (Raise (FileNotFoundError (credentials_path w)), w))
  /\ (forall content missing,
        files w !! credentials_path w = Some content ->
        (missing = "client_id"
         \/ (missing = "client_secret"
             /\ is_Some (credentials_of (readlines (universal_newlines content))
                           !! "client_id"))) ->
        Forall (fun l => contains "=" l = true -> credential_key l <> missing)
               (readlines (universal_newlines content)) ->
        __init__ t u w = (Raise (KeyError missing), w)).
Proof.
  split.
  - intros Hfile. unfold __init__. unfold bind at 1.
    rewrite (read_credentials_missing w Hfile). reflexivity.
  - intros content missing Hfile Hwhich Hall.
    assert (Hnone : credentials_of (readlines (universal_newlines content)) !! missing
                    = None).
    { unfold credentials_of. rewrite credentials_fold_keep by exact Hall.
      apply lookup_empty. }
    unfold __init__. unfold bind at 1.
    rewrite (read_credentials_runs w content Hfile).
    destruct Hwhich as [-> | [-> [id Hid]]].
    + unfold bind at 1. unfold getitem at 1. rewrite Hnone. reflexivity.
    + unfold bind at 1. unfold getitem at 1. rewrite Hid. unfold ret at 1.
      unfold bind at 1. unfold getitem at 1. rewrite Hnone. reflexivity.
Qed.

(** ** The token file: written, then read by the next instance *)





(** ** The lock after a handshake *)

(** X4: [authenticate] never gives the lock back.  Once a call by
    thread [t] has gone through its handshake, [t] still holds the
    lock: a later call by any other thread is turned away with
    [False], though no handshake is under way, and asks for no device
    code; only [t] itself can go through again. *)
Theorem lock_kept_after_handshake (t t' : thread) (s : state)
    (code : list (string * json)) :
  can_acquire t (is_authenticating (self s)) = true ->
  device_code (service (env s)) = Some code ->
  thread_eqb t' t = false ->
  exists s' k,
    authenticate t s = (Ok true, s')
    /\ owner (is_authenticating (self s')) = Some (t, S k)
    /\ waiters (is_authenticating (self s')) = []
    /\ authenticate t' s'
       = (Ok false, set_env (set_log (log (env s') ++ [Print AlreadyStarted]) (env s')) s')
    /\ can_acquire t (is_authenticating (self s')) = true.
Proof.
  intros Hfree Hcode Hne.
  exists (after_handshake t code s),
         (match owner (is_authenticating (self s)) with
          | Some (_, n) => n
          | None => O
          end).
  split; [apply authenticate_runs; assumption|].
  assert (Hown : owner (is_authenticating (self (after_handshake t code s)))
                 = Some (t, S (match owner (is_authenticating (self s)) with
                               | Some (_, n) => n
                               | None => O
                               end))).
  { unfold after_handshake, held_by. simpl.
    destruct (owner (is_authenticating (self s))) as [[? ?]|]; reflexivity. }
  split; [exact Hown|]. split; [reflexivity|]. split.
  - apply (authenticate_rejected t' t _ _ Hown Hne).
  - unfold can_acquire. rewrite Hown. apply thread_eqb_refl.
Qed.

(** X5: when the service gives no device code, the call raises after
    the request, with the lock taken and not given back: no poller is
    started, no file is written, and from then on a call by another
    thread is turned away. *)
Theorem authenticate_without_code (t t' : thread) (s : state) :
  can_acquire t (is_authenticating (self s)) = true ->
  device_code (service (env s)) = None ->
  thread_eqb t' t = false ->
  exists s',
    authenticate t s = (Raise (AttributeError "get"), s')
    /\ log (env s') = log (env s) ++ [OAuthDeviceCode]
    /\ files (env s') = files (env s)
    /\ authorization (self s') = authorization (self s)
    /\ (exists k, owner (is_authenticating (self s')) = Some (t, k))
    /\ fst (authenticate t' s') = Ok false.
Proof.
  intros Hfree Hcode Hne.
  destruct s as [[f h sv l] [u ci cs [o ws] a]]. simpl in *.
  unfold can_acquire in Hfree. simpl in Hfree.
  exists (state_of f h sv u ci cs (l ++ [OAuthDeviceCode])
            (Some (t, match o with Some (_, n) => S n | None => 1%nat end)) ws a).
  split.
  - unfold authenticate, acquire_nonblocking, cond, set_cond, bind, gets, modify, ret,
      lift, emit. simpl.
    destruct o as [[t0 n]|]; simpl; [rewrite Hfree|]; simpl; rewrite Hcode; reflexivity.
  - simpl. repeat split; try (eexists; reflexivity).
    unfold authenticate, acquire_nonblocking, cond, set_cond, bind, gets, modify, ret,
      lift, print, emit. simpl. rewrite Hne. reflexivity.
Qed.

End MoreConstruction.

Lemma init_without_credentials_witness :
  @__init__ reference (Main 0) "ddboline"
    {| files := <["/home/u/.trakt/credentials" := "client_secret = s3cret"]> ∅;
       HOME := Some "/home/u"; service := Samples.nobody; log := [] |}
  = (Raise (KeyError "client_id"),
     {| files := <["/home/u/.trakt/credentials" := "client_secret = s3cret"]> ∅;
        HOME := Some "/home/u"; service := Samples.nobody; log := [] |}).
Proof.
  apply (proj2 (@init_without_credentials reference (Main 0) "ddboline" _)
           "client_secret = s3cret" "client_id").
  - reflexivity.
  - left. reflexivity.
  - repeat constructor. intros _. discriminate.
Defined.


Lemma lock_kept_after_handshake_witness :
  exists s',
    @authenticate reference (Main 0) (Samples.at_rest Samples.approving JNull)
    = (Ok true, s')
    /\ fst (@authenticate reference (Main 1) s') = Ok false.
Proof.
  destruct (@lock_kept_after_handshake reference (Main 0) (Main 1)
              (Samples.at_rest Samples.approving JNull)
              [("user_code", JStr "ABCD1234");
               ("verification_url", JStr "https://trakt.tv/activate")])
    as (s' & k & H1 & _ & _ & H2 & _).
  - reflexivity.
  - reflexivity.
  - reflexivity.
  - exists s'. split; [exact H1|]. rewrite H2. reflexivity.
Defined.

Lemma authenticate_without_code_witness :
  exists s',
    @authenticate reference (Main 0)
      (Samples.at_rest
         {| device_code := None;
            device_poll := device_poll Samples.nobody;
            search_lookup := search_lookup Samples.nobody;
            search_query := search_query Samples.nobody;
            shows_episode := shows_episode Samples.nobody;
            shows_season := shows_season Samples.nobody;
            watchlist_add := watchlist_add Samples.nobody;
            history_add := history_add Samples.nobody |} JNull)
    = (Raise (AttributeError "get"), s')
    /\ fst (@authenticate reference (Main 1) s') = Ok false.
Proof.
  destruct (@authenticate_without_code reference (Main 0) (Main 1)
              (Samples.at_rest
                 {| device_code := None;
                    device_poll := device_poll Samples.nobody;
                    search_lookup := search_lookup Samples.nobody;
                    search_query := search_query Samples.nobody;
                    shows_episode := shows_episode Samples.nobody;
                    shows_season := shows_season Samples.nobody;
                    watchlist_add := watchlist_add Samples.nobody;
                    history_add := history_add Samples.nobody |} JNull))
    as (s' & H1 & _ & _ & _ & _ & H2).
  - reflexivity.
  - reflexivity.
  - reflexivity.
  - exists s'. split; [exact H1 | exact H2].
Defined.

(** ** Two sleepers and one report *)

Section Sleepers.
Context {codec : Codec}.

(** A poller that finds the lock with a caller goes to sleep on it. *)
Lemma run_poller_locked j p (s : state) (m k : nat) :
  owner (is_authenticating (self s)) = Some (Main m, k) ->
  fst (run_poller (PollerOf j) p s) = Blocked.
Proof.
  intros Hown. unfold run_poller. unfold bind at 1.
  rewrite repeat_while_on_poll.
  destruct s as [[f h sv l] [u ci cs [o ws] a]]. simpl in Hown. subst o.
  destruct (outcome p); reflexivity.
Qed.

(** While a caller that has returned keeps the lock, no move of any
    thread takes it away, and a caller asleep stays asleep. *)
Lemma locked_move (n m kn km : nat) (mv : move) (sy sy2 : system) :
  n <> m ->
  owner (is_authenticating (self (shared sy))) = Some (Main m, km) ->
  pc_of m sy = Returned true ->
  pc_of n sy = Asleep kn ->
  run1 mv sy = Some sy2 ->
  owner (is_authenticating (self (shared sy2))) = Some (Main m, km)
  /\ pc_of m sy2 = Returned true
  /\ pc_of n sy2 = Asleep kn.
Proof.
  intros Hnm Hown Hm Hn Hrun.
  destruct sy as [[[f h sv l] [u ci cs [o ws] a]] pcs].
  simpl in Hown. subst o. unfold pc_of in Hm, Hn |- *. cbn [at_pc shared] in Hm, Hn.
  unfold run1, pc_of in Hrun. cbn [at_pc shared] in Hrun.
  destruct mv as [j|j].
  - destruct (Nat.eq_dec j m) as [->|Hjm].
    { rewrite Hm in Hrun. discriminate. }
    destruct (Nat.eq_dec j n) as [->|Hjn].
    { rewrite Hn in Hrun.
      unfold step, wait_wake, cond, bind, gets, block in Hrun. simpl in Hrun.
      destruct (existsb _ ws); discriminate. }
    assert (Hne : Nat.eqb j m = false) by (apply Nat.eqb_neq; exact Hjm).
    assert (Hpcs : forall p, default Entry (<[j := p]> pcs !! m) = Returned true
                             /\ default Entry (<[j := p]> pcs !! n) = Asleep kn).
    { intros p. rewrite !lookup_insert_ne by congruence. split; assumption. }
    destruct (default Entry (pcs !! j)) as [| |code| |saved|r|r].
    + unfold step, acquire_nonblocking, cond, set_cond, bind, gets, modify, ret,
        lift, print, emit in Hrun. simpl in Hrun. rewrite Hne in Hrun. simpl in Hrun.
      injection Hrun as <-. simpl. split; [reflexivity | apply Hpcs].
    + unfold step, bind, gets, modify, ret, raise, lift, print, emit in Hrun.
      simpl in Hrun. destruct (device_code sv) as [code|]; [|discriminate].
      injection Hrun as <-. simpl. split; [reflexivity | apply Hpcs].
    + injection Hrun as <-. simpl. split; [reflexivity | apply Hpcs].
    + unfold step, wait_sleep, cond, set_cond, bind, gets, modify, ret, raise in Hrun.
      simpl in Hrun. rewrite Hne in Hrun. discriminate.
    + unfold step, wait_wake, cond, bind, gets, block in Hrun. simpl in Hrun.
      destruct (existsb _ ws); discriminate.
    + injection Hrun as <-. simpl. split; [reflexivity | apply Hpcs].
    + discriminate.
  - destruct (default Entry (pcs !! j)); try discriminate.
    pose proof (run_poller_locked j (device_poll sv)
                  (state_of f h sv u ci cs l (Some (Main m, km)) ws a) m km eq_refl)
      as Hblocked.
    unfold state_of in Hblocked. simpl poller_of in Hrun. cbn [env service] in Hrun.
    destruct (run_poller (PollerOf j) (device_poll sv) _) as [[x|e|] s2];
      simpl in Hblocked; discriminate.
Qed.

Lemma locked_run (n m kn km : nat) (ms : list move) : forall sy sy2 : system,
  n <> m ->
  owner (is_authenticating (self (shared sy))) = Some (Main m, km) ->
  pc_of m sy = Returned true ->
  pc_of n sy = Asleep kn ->
  run ms sy = Some sy2 ->
  owner (is_authenticating (self (shared sy2))) = Some (Main m, km)
  /\ pc_of m sy2 = Returned true
  /\ pc_of n sy2 = Asleep kn.
Proof.
  induction ms as [|mv ms IH]; intros sy sy2 Hnm Hown Hm Hn Hrun.
  - injection Hrun as <-. repeat split; assumption.
  - simpl in Hrun. destruct (run1 mv sy) as [sy1|] eqn:H1; [|discriminate].
    destruct (locked_move n m kn km mv sy sy1 Hnm Hown Hm Hn H1) as (Ho1 & Hm1 & Hn1).
    exact (IH sy1 sy2 Hnm Ho1 Hm1 Hn1 Hrun).
Qed.

(** X6: the report of one poller wakes every caller asleep in
    [wait()].  When two callers sleep and the poller of the first
    reports, the second can wake at once: it takes the lock, writes
    the token file and returns [True] although its own poller has
    reported nothing.  It returns with the lock, so the first caller,
    whose handshake it was, cannot wake then, and stays asleep
    whatever the callers and pollers do for as long as the second
    makes no new call; a new call by the second, once asleep in its
    own [wait()], lets the first wake. *)
Theorem woken_by_another_poller (n m : nat) (sy : system) (kn km : nat) :
  n <> m ->
  pc_of n sy = Asleep kn ->
  pc_of m sy = Asleep km ->
  owner (is_authenticating (self (shared sy))) = None ->
  exists sy',
    run [Poll n; Step m; Step m] sy = Some sy'
    /\ pc_of m sy' = Returned true
    /\ owner (is_authenticating (self (shared sy'))) = Some (Main m, km)
    /\ files (env (shared sy')) !! auth_token (env (shared sy'))
       = Some (dump (authorization (self (shared sy'))))
    /\ pc_of n sy' = Asleep kn
    /\ run1 (Step n) sy' = None
    /\ (forall ms sy'',
          run ms sy' = Some sy'' ->
          pc_of n sy'' = Asleep kn
          /\ owner (is_authenticating (self (shared sy''))) = Some (Main m, km))
    /\ (forall code,
          device_code (service (env (shared sy))) = Some code ->
          exists sy'',
            run [Step m; Step m; Step m; Step m; Step n]
              {| shared := shared sy'; at_pc := <[m := Entry]> (at_pc sy') |}
            = Some sy''
            /\ pc_of m sy'' = Asleep (S km)
            /\ pc_of n sy'' = Awake true).
Proof.
  destruct sy as [[[f h sv l] [u ci cs [o ws] a]] pcs].
  intros Hnm Hn Hm Ho. unfold pc_of in Hn, Hm. simpl in Hn, Hm, Ho. subst o.
  change {| env := {| files := f; HOME := h; service := sv; log := l |};
            self := {| username := u; client_id := ci; client_secret := cs;
                       is_authenticating := {| owner := None; waiters := ws |};
                       authorization := a |} |}
    with (state_of f h sv u ci cs l None ws a).
  cbn [run].
  rewrite (run1_poll _ _ _ _ _ Hn (poller_runs f h sv u ci cs _ l ws a)).
  rewrite (run1_step _ _ _ _ _ _ Hm (step_asleep f h sv u ci cs _ _ km _)).
  rewrite (run1_step _ _ _ _ _ _ (pc_after_insert _ _ _)
             (step_awake f h sv u ci cs _ _ _ _ _ true)).
  eexists. split; [reflexivity|].
  assert (Hpc : default Entry
                  (<[m := Returned true]> (<[m := Awake true]> pcs) !! n)
                = Asleep kn).
  { rewrite !lookup_insert_ne by congruence. exact Hn. }
  split; [apply pc_after_insert|].
  split; [reflexivity|].
  split; [unfold auth_token; simpl; apply lookup_insert_eq|].
  split; [exact Hpc|].
  split.
  { unfold run1, pc_of. cbn [at_pc shared]. rewrite Hpc.
    unfold step, wait_wake, cond, bind, gets, block. simpl. reflexivity. }
  split.
  - intros ms sy'' Hrun.
    apply (locked_run n m kn km ms) in Hrun as (H1 & _ & H2);
      [split; assumption | exact Hnm | reflexivity | apply pc_after_insert | exact Hpc].
  - intros code Hcode. simpl in Hcode. cbn [run shared at_pc].
    set (a1 := terminal_authorization (outcome (device_poll sv)) a).
    set (l1 := l ++ replicate (ticks (device_poll sv)) (PollCallback true)
                 ++ terminal_prints (outcome (device_poll sv))).
    set (f' := <[fmt_s h +:+ "/.trakt/auth_token.json" := dump a1]> f).
    set (pcs0 := <[m := Entry]> (<[m := Returned true]> (<[m := Awake true]> pcs))).
    change {| env := {| files := f'; HOME := h; service := sv; log := l1 |};
              self := {| username := u; client_id := ci; client_secret := cs;
                         is_authenticating := {| owner := Some (Main m, km);
                                                 waiters := [] |};
                         authorization := a1 |} |}
      with (state_of f' h sv u ci cs l1 (Some (Main m, km)) [] a1).
    rewrite (run1_step m _ pcs0 Entry Acquired _ (pc_after_insert _ _ _)
               (step_entry f' h sv u ci cs (Main m) l1 (Some (Main m, km)) [] a1
                  (thread_eqb_refl _))).
    rewrite (run1_step m _ _ Acquired (HaveCode code) _ (pc_after_insert _ _ _)
               (step_acquired f' h sv u ci cs (Main m) _ _ [] a1 code Hcode)).
    rewrite (run1_step m _ _ (HaveCode code) Started _ (pc_after_insert _ _ _)
               (step_have_code f' h sv u ci cs (Main m) _ _ [] a1 code)).
    rewrite (run1_step m _ _ Started (Asleep (S km)) _ (pc_after_insert _ _ _)
               (step_started f' h sv u ci cs (Main m) _ (S km) [] a1)).
    assert (Hn' : default Entry
                    (<[m := Asleep (S km)]>
                       (<[m := Started]>
                          (<[m := HaveCode code]> (<[m := Acquired]> pcs0))) !! n)
                  = Asleep kn).
    { unfold pcs0. rewrite !lookup_insert_ne by congruence. exact Hn. }
    assert (Hmn : Nat.eqb n m = false) by (apply Nat.eqb_neq; exact Hnm).
    eexists. split.
    + unfold run1 at 1, pc_of. cbn [at_pc shared]. rewrite Hn'.
      unfold step, wait_wake, cond, set_cond, bind, gets, modify, ret.
      simpl. rewrite Hmn. simpl. reflexivity.
    + unfold pc_of. simpl. split.
      * rewrite lookup_insert_ne by congruence. apply pc_after_insert.
      * apply pc_after_insert.
Qed.

End Sleepers.

Lemma woken_by_another_poller_witness :
  @run reference [Step 0; Step 0; Step 0; Step 0; Step 1; Step 1; Step 1; Step 1]
    {| shared := Samples.at_rest Samples.approving JNull; at_pc := ∅ |}
  = Some two_asleep
  /\ exists sy',
       @run reference [Poll 0; Step 1; Step 1] two_asleep = Some sy'
       /\ pc_of 1 sy' = Returned true
       /\ @run1 reference (Step 0) sy' = None
       /\ exists sy'',
            @run reference [Step 1; Step 1; Step 1; Step 1; Step 0]
              {| shared := shared sy'; at_pc := <[1%nat := Entry]> (at_pc sy') |}
            = Some sy''
            /\ pc_of 0 sy'' = Awake true.
Proof.
  split; [vm_compute; reflexivity|].
  destruct (@woken_by_another_poller reference 0 1 two_asleep 1 1)
    as (sy' & H1 & H2 & _ & _ & _ & H3 & _ & H4).
  - discriminate.
  - reflexivity.
  - reflexivity.
  - reflexivity.
  - exists sy'. split; [exact H1|]. split; [exact H2|]. split; [exact H3|].
    destruct (H4 [("user_code", JStr "ABCD1234");
                  ("verification_url", JStr "https://trakt.tv/activate")] eq_refl)
      as (sy'' & H5 & _ & H6).
    exists sy''. split; [exact H5 | exact H6].
Defined.

(** ** Adding and removing *)

Lemma count_adds_app l l' : count_adds (l ++ l') = (count_adds l + count_adds l')%nat.
Proof. unfold count_adds. rewrite List.filter_app, length_app. reflexivity. Qed.

(** What [do_query] answers is a dict, whatever the service found. *)
Lemma do_query_dict (s : state) (q kind : string) :
  (exists d,
      do_query q kind s
      = (Ok (PDict d),
         set_env (set_log (log (env s) ++ [SearchQuery (replace "_" " " q) kind])
                          (env s)) s))
  \/ do_query q kind s
     = (Raise TypeError,
        set_env (set_log (log (env s) ++ [SearchQuery (replace "_" " " q) kind])
                         (env s)) s).
Proof.
  unfold do_query, bind, lift, emit, modify, gets, ret, raise. simpl.
  destruct (search_query (service (env s)) (replace "_" " " q) kind) as [shows|].
  - left. eexists. reflexivity.
  - right. reflexivity.
Qed.

Lemma lookup_or_query_by_title (s : state) (title' imdb_id : option string) :
  truthy_str imdb_id = false ->
  (exists d q,
      lookup_or_query title' imdb_id s
      = (Ok (Some (PDict d)),
         set_env (set_log (log (env s) ++ [SearchQuery q "show"]) (env s)) s))
  \/ (exists q,
         lookup_or_query title' imdb_id s
         = (Raise TypeError,
            set_env (set_log (log (env s) ++ [SearchQuery q "show"]) (env s)) s))
  \/ lookup_or_query title' imdb_id s = (Ok None, s).
Proof.
  intros Hid. unfold lookup_or_query. rewrite Hid.
  destruct (truthy_str title'); [|right; right; reflexivity].
  unfold bind.
  destruct (do_query_dict s (default "" title') "show") as [[d ->] | ->].
  - left. eexists. eexists. reflexivity.
  - right. left. eexists. reflexivity.
Qed.

(** X7: without an imdb id nothing is ever added.  Whatever the title
    and whatever the query by title finds, [add_show_to_watchlist]
    raises, [add_episode_to_watched] raises or returns [None], and
    [add_movie_to_watched] raises or returns the empty dict; none of
    them sends an add request. *)
Theorem add_by_title_never_adds (s : state) (title' imdb_id : option string)
    (season episode : option Z) :
  truthy_str imdb_id = false ->
  (exists e s',
      add_show_to_watchlist title' imdb_id s = (Raise e, s')
      /\ count_adds (log (env s')) = count_adds (log (env s)))
  /\ (exists r s',
        add_episode_to_watched title' imdb_id season episode s = (r, s')
        /\ (r = Ok JNull \/ exists e, r = Raise e)
        /\ count_adds (log (env s')) = count_adds (log (env s)))
  /\ (exists r s',
        add_movie_to_watched title' imdb_id s = (r, s')
        /\ (r = Ok (JDict []) \/ exists e, r = Raise e)
        /\ count_adds (log (env s')) = count_adds (log (env s))).
Proof.
  intros Hid.
  assert (Hq : forall l q,
             count_adds (l ++ [SearchQuery q "show"]) = count_adds l).
  { intros l q. rewrite count_adds_app. unfold count_adds. simpl. lia. }
  assert (Hp : forall l q o,
             count_adds ((l ++ [SearchQuery q "show"]) ++ [Print (Shown o)])
             = count_adds l).
  { intros l q o. rewrite count_adds_app, Hq. unfold count_adds. simpl. lia. }
  split; [|split];
    unfold add_show_to_watchlist, add_episode_to_watched, add_movie_to_watched;
    unfold bind at 1;
    (destruct (lookup_or_query_by_title s title' imdb_id Hid)
      as [(d & q & ->) | [(q & ->) | ->]];
     [ destruct s as [[f h sv l] i];
       try (destruct (truthy_int season && truthy_int episode);
            [|destruct (truthy_int season)]);
       destruct d as [|kv d];
       unfold bind, lift, print, emit, modify, ret, raise;
       cbn [fst snd env log set_env set_log]
     | cbn [fst snd env log set_env set_log]
     | idtac ]);
    eexists; eexists;
    (split; [reflexivity|]);
    cbn [fst snd env log set_env set_log]; rewrite ?Hp, ?Hq;
    repeat split; eauto.
Qed.

Lemma add_by_title_never_adds_witness :
  exists e s',
    add_show_to_watchlist (Some "the_wire") None
      (Samples.at_rest MoreSamples.finding Samples.token) = (Raise e, s')
    /\ count_adds (log (env s')) = 0%nat.
Proof.
  destruct (add_by_title_never_adds
              (Samples.at_rest MoreSamples.finding Samples.token)
              (Some "the_wire") None None None) as (H & _ & _).
  - reflexivity.
  - exact H.
Defined.


Lemma lookup_by_imdb (s : state) (show' : option string) (id : string) :
  String.eqb id "" = false ->
  lookup_or_query show' (Some id) s
  = (Ok (Some (as_obj (search_lookup (service (env s)) id))),
     logged [SearchLookup id] s).
Proof.
  intros Hid. unfold lookup_or_query, truthy_str. rewrite Hid. reflexivity.
Qed.

(** X8: with an imdb id whose lookup finds something, a show is put
    on the watchlist (and a movie into the history) by one add
    request, for the one object found or the first of the list
    found, and the service's answer to it is what the method
    returns. *)
Theorem add_by_imdb_found (s : state) (show' : option string) (id : string)
    (m : media) :
  String.eqb id "" = false ->
  first_found (search_lookup (service (env s)) id) = Some m ->
  add_show_to_watchlist show' (Some id) s
  = (Ok (watchlist_add (service (env s)) (shows_items m)),
     logged [SearchLookup id; WatchlistAdd (shows_items m)] s)
  /\ add_movie_to_watched show' (Some id) s
     = (Ok (history_add (service (env s)) (movies_items m)),
        logged [SearchLookup id; HistoryAdd (movies_items m)] s).
Proof.
  intros Hid Hm.
  split; unfold add_show_to_watchlist, add_movie_to_watched;
    unfold bind at 1; rewrite (lookup_by_imdb s show' id Hid);
    destruct s as [[f h sv l] i]; cbn [service env] in *;
    (destruct (search_lookup sv id) as [|m'|[|m' rest]]; simpl in Hm;
     try discriminate; injection Hm as ->;
     unfold logged, sync_watchlist_add, sync_history_add, bind, lift, emit, modify,
       gets, ret, shows_items, movies_items; simpl;
     rewrite <- ?app_assoc; reflexivity).
Qed.

Lemma add_by_imdb_found_witness :
  add_show_to_watchlist None (Some "tt0306414")
    (Samples.at_rest MoreSamples.finding Samples.token)
  = (Ok (JDict [("added", JInt 1)]),
     logged [SearchLookup "tt0306414"; WatchlistAdd (shows_items MoreSamples.the_wire)]
       (Samples.at_rest MoreSamples.finding Samples.token)).
Proof.
  apply (add_by_imdb_found (Samples.at_rest MoreSamples.finding Samples.token)
           None "tt0306414" MoreSamples.the_wire); reflexivity.
Defined.

(** X9: [add_episode_to_watched] with an imdb id that is found.  With
    a season and an episode that are not zero, the one episode is
    looked up and, when it exists, added by one request.  With a
    season that is not zero and an episode that is [None] or zero,
    every episode of the season is added by one request, when there
    is any.  With a season that is [None] or zero (the specials),
    nothing is asked, nothing is added and [None] is returned. *)
Theorem add_episode_by_imdb_found (s : state) (show' : option string) (id : string)
    (m : media) (season episode : option Z) :
  String.eqb id "" = false ->
  first_found (search_lookup (service (env s)) id) = Some m ->
  add_episode_to_watched show' (Some id) season episode s
  = if truthy_int season && truthy_int episode then
      match shows_episode (service (env s)) (get_key_imdb m)
              (default 0%Z season) (default 0%Z episode) with
      | Some e =>
          (Ok (history_add (service (env s)) (episodes_items [e])),
           logged [SearchLookup id; Print (Shown (PMedia m));
                   ShowsEpisode (get_key_imdb m) (default 0%Z season)
                     (default 0%Z episode);
                   HistoryAdd (episodes_items [e])] s)
      | None =>
          (Ok (JDict []),
           logged [SearchLookup id; Print (Shown (PMedia m));
                   ShowsEpisode (get_key_imdb m) (default 0%Z season)
                     (default 0%Z episode)] s)
      end
    else if truthy_int season then
      match shows_season (service (env s)) (get_key_imdb m) (default 0%Z season) with
      | Some (e :: es) =>
          (Ok (history_add (service (env s)) (episodes_items (e :: es))),
           logged [SearchLookup id;
                   ShowsSeason (get_key_imdb m) (default 0%Z season);
                   HistoryAdd (episodes_items (e :: es))] s)
      | _ =>
          (Ok (JDict []),
           logged [SearchLookup id;
                   ShowsSeason (get_key_imdb m) (default 0%Z season)] s)
      end
    else (Ok JNull, logged [SearchLookup id] s).
Proof.
  intros Hid Hm.
  unfold add_episode_to_watched.
  unfold bind at 1. rewrite (lookup_by_imdb s show' id Hid).
  destruct s as [[f h sv l] i]. cbn [service env] in *.
  assert (Hobj : as_obj (search_lookup sv id) = PMedia m
                 \/ exists rest, as_obj (search_lookup sv id) = PList (m :: rest)).
  { destruct (search_lookup sv id) as [|m'|[|m' rest]]; simpl in Hm;
      try discriminate; injection Hm as ->; [left|right; eexists]; reflexivity. }
  destruct (truthy_int season && truthy_int episode);
    [|destruct (truthy_int season)];
    destruct Hobj as [Ho | [rest Ho]]; simpl; rewrite Ho;
    unfold logged, sync_history_add, bind, lift, print, emit, modify, gets, ret,
      episodes_items; simpl;
    try reflexivity;
    try (destruct (shows_episode sv (get_key_imdb m) (default 0%Z season)
                     (default 0%Z episode)); simpl;
         rewrite <- !app_assoc; reflexivity);
    try (destruct (shows_season sv (get_key_imdb m) (default 0%Z season))
           as [[|e es]|]; simpl; rewrite <- !app_assoc; reflexivity).
Qed.

Lemma add_episode_by_imdb_found_witness :
  add_episode_to_watched None (Some "tt0306414") (Some 1%Z) (Some 0%Z)
    (Samples.at_rest MoreSamples.finding Samples.token)
  = (Ok (JDict [("added", JInt 1)]),
     logged [SearchLookup "tt0306414"; ShowsSeason (Some "tt0306414") 1;
             HistoryAdd (episodes_items [MoreSamples.pilot])]
       (Samples.at_rest MoreSamples.finding Samples.token)).
Proof.
  apply (add_episode_by_imdb_found (Samples.at_rest MoreSamples.finding Samples.token)
           None "tt0306414" MoreSamples.the_wire (Some 1%Z) (Some 0%Z)); reflexivity.
Defined.

(** X10: removing by imdb id has no guard for a lookup that finds
    nothing.  When the lookup answers [None],
    [remove_show_to_watchlist] and [remove_movie_to_watched] raise
    [AttributeError] and send no remove request; when it answers an
    empty list the first returns the empty dict and the second
    [None], again without a request; when it finds something, one
    remove request is sent for the first object found and the
    service's answer is returned.  No add request is sent in any
    case. *)
Theorem remove_by_imdb (x : session) (show' : option string) (id : string) :
  String.eqb id "" = false ->
  let sv := service (env (inner x)) in
  remove_show_to_watchlist show' (Some id) x
  = match search_lookup sv id with
    | NoneFound => (Raise (AttributeError "to_dict"), went [SearchLookup id] [] x)
    | Many [] => (Ok (JDict []), went [SearchLookup id] [] x)
    | One m | Many (m :: _) =>
        (Ok (watchlist_remove (reads x) (shows_items m)),
         went [SearchLookup id]
              [Printed (PMedia m); WatchlistRemove (shows_items m)] x)
    end
  /\ remove_movie_to_watched show' (Some id) x
     = match search_lookup sv id with
       | NoneFound => (Raise (AttributeError "to_dict"), went [SearchLookup id] [] x)
       | Many [] => (Ok JNull, went [SearchLookup id] [] x)
       | One m | Many (m :: _) =>
           (Ok (history_remove (reads x) (movies_items m)),
            went [SearchLookup id] [HistoryRemove (movies_items m)] x)
       end.
Proof.
  intros Hid sv. subst sv.
  split; unfold remove_show_to_watchlist, remove_movie_to_watched;
    unfold bind at 1; unfold inside at 1;
    rewrite (lookup_by_imdb (inner x) show' id Hid);
    destruct x as [[[f h sv l] i] rd cs]; cbn [service env inner] in *;
    (destruct (search_lookup sv id) as [|m|[|m rest]];
     unfold went, logged, sync_watchlist_remove, sync_history_remove, note, bind,
       modify, gets, ret, raise, shows_items, movies_items; simpl;
     rewrite ?app_nil_r, <- ?app_assoc; reflexivity).
Qed.

Lemma remove_by_imdb_witness :
  remove_show_to_watchlist None (Some "tt0000000")
    (MoreSamples.sitting MoreSamples.finding)
  = (Raise (AttributeError "to_dict"),
     went [SearchLookup "tt0000000"] [] (MoreSamples.sitting MoreSamples.finding)).
Proof.
  apply (proj1 (remove_by_imdb (MoreSamples.sitting MoreSamples.finding)
                  None "tt0000000" eq_refl)).
Defined.

(** ** The routes that add *)

Section RouteFacts.
Context {codec : Codec}.

Lemma init_with_token (t : thread) (w : world) (creds : gmap string string)
    (cid secret text : string) (a : json) :
  read_credentials w = (Ok creds, w) ->
  creds !! "client_id" = Some cid ->
  creds !! "client_secret" = Some secret ->
  files w !! auth_token w = Some text ->
  load (universal_newlines text) = Some a ->
  a <> JNull ->
  __init__ t "ddboline" w
  = (Ok (fresh_instance "ddboline" cid secret a), configured cid secret w).
Proof.
  intros Hc Hid Hsec Hfile Hload Hnn.
  rewrite (init_after_credentials t "ddboline" w creds cid secret Hc Hid Hsec).
  unfold read_auth, bind, gets. rewrite Hfile, Hload. simpl.
  destruct a; try reflexivity. congruence.
Qed.

(** X11: the two routes that add by imdb id, served with the
    credentials and a token file in place.  Each builds an instance
    from the files and starts no handshake; neither writes a file.
    [/trakt/add_to_watchlist] answers failure when the lookup finds
    nothing and otherwise success exactly when the service's answer
    to the add request is true.  [/trakt/add_to_watched] does the
    same when the lookup answers a list or an object, but raises when
    the lookup answers [None]. *)
Theorem add_routes (t : thread) (w : world) (creds : gmap string string)
    (cid secret text : string) (a : json) (id : string) :
  read_credentials w = (Ok creds, w) ->
  creds !! "client_id" = Some cid ->
  creds !! "client_secret" = Some secret ->
  files w !! auth_token w = Some text ->
  load (universal_newlines text) = Some a ->
  a <> JNull ->
  String.eqb id "" = false ->
  let s0 := {| env := configured cid secret w;
               self := fresh_instance "ddboline" cid secret a |} in
  add_to_watchlist t id w
  = match first_found (search_lookup (service w) id) with
    | Some m =>
        (Ok (status_reply (watchlist_add (service w) (shows_items m))),
         env (logged [SearchLookup id; WatchlistAdd (shows_items m)] s0))
    | None =>
        (Ok (JDict [("status", JStr "failure")], 200%Z),
         env (logged [SearchLookup id] s0))
    end
  /\ add_to_watched t id w
     = match search_lookup (service w) id with
       | NoneFound => (Raise (AttributeError "to_dict"), env (logged [SearchLookup id] s0))
       | Many [] =>
           (Ok (JDict [("status", JStr "failure")], 200%Z),
            env (logged [SearchLookup id] s0))
       | One m | Many (m :: _) =>
           (Ok (status_reply (history_add (service w) (movies_items m))),
            env (logged [SearchLookup id; HistoryAdd (movies_items m)] s0))
       end
  /\ files (snd (add_to_watchlist t id w)) = files w
  /\ files (snd (add_to_watched t id w)) = files w.
Proof.
  intros Hc Hcid Hsec Hfile Hload Hnn Hid s0.
  assert (Hinit := init_with_token t w creds cid secret text a
                     Hc Hcid Hsec Hfile Hload Hnn).
  assert (H1 : add_to_watchlist t id w
               = match first_found (search_lookup (service w) id) with
                 | Some m =>
                     (Ok (status_reply (watchlist_add (service w) (shows_items m))),
                      env (logged [SearchLookup id; WatchlistAdd (shows_items m)] s0))
                 | None =>
                     (Ok (JDict [("status", JStr "failure")], 200%Z),
                      env (logged [SearchLookup id] s0))
                 end).
  { unfold add_to_watchlist. unfold bind at 1. rewrite Hinit.
    unfold bind at 1. unfold Trakt.call. fold s0.
    unfold add_show_to_watchlist. unfold bind at 1.
    rewrite (lookup_by_imdb s0 None id Hid).
    subst s0. destruct w as [f h sv l]. cbn [service env configured set_log] in *.
    destruct (search_lookup sv id) as [|m|[|m rest]];
      unfold logged, sync_watchlist_add, bind, lift, emit, modify, gets, ret, raise,
        shows_items; simpl; rewrite <- ?app_assoc; reflexivity. }
  assert (H2 : add_to_watched t id w
               = match search_lookup (service w) id with
                 | NoneFound =>
                     (Raise (AttributeError "to_dict"), env (logged [SearchLookup id] s0))
                 | Many [] =>
                     (Ok (JDict [("status", JStr "failure")], 200%Z),
                      env (logged [SearchLookup id] s0))
                 | One m | Many (m :: _) =>
                     (Ok (status_reply (history_add (service w) (movies_items m))),
                      env (logged [SearchLookup id; HistoryAdd (movies_items m)] s0))
                 end).
  { unfold add_to_watched. unfold bind at 1. rewrite Hinit.
    unfold bind at 1. unfold Trakt.call. fold s0.
    unfold add_movie_to_watched. unfold bind at 1.
    rewrite (lookup_by_imdb s0 None id Hid).
    subst s0. destruct w as [f h sv l]. cbn [service env configured set_log] in *.
    destruct (search_lookup sv id) as [|m|[|m rest]];
      unfold logged, sync_history_add, bind, lift, emit, modify, gets, ret, raise,
        movies_items; simpl; rewrite <- ?app_assoc; reflexivity. }
  split; [exact H1|]. split; [exact H2|].
  rewrite H1, H2. subst s0. destruct w as [f h sv l].
  split.
  - destruct (first_found (search_lookup _ id)); reflexivity.
  - cbn [service]. destruct (search_lookup sv id) as [|m|[|m rest]]; reflexivity.
Qed.

End RouteFacts.

Lemma add_routes_witness :
  @add_to_watchlist reference (Main 0) "tt0306414"
    (Samples.home_with_token (ref_dump Samples.token) MoreSamples.finding)
  = (Ok (JDict [("status", JStr "success")], 200%Z),
     env (logged [SearchLookup "tt0306414";
                  WatchlistAdd (shows_items MoreSamples.the_wire)]
            {| env := configured "xyz" "s3cret"
                        (Samples.home_with_token (ref_dump Samples.token)
                           MoreSamples.finding);
               self := fresh_instance "ddboline" "xyz" "s3cret" Samples.token |})).
Proof.
  apply (proj1 (@add_routes reference (Main 0)
                  (Samples.home_with_token (ref_dump Samples.token) MoreSamples.finding)
                  (<["client_id" := "xyz"]>
                     (<["client_secret" := "s3cret"]> (<["client_id" := "abc"]> ∅)))
                  "xyz" "s3cret" (ref_dump Samples.token) Samples.token "tt0306414"
                  eq_refl eq_refl eq_refl eq_refl
                  ltac:(vm_compute; reflexivity) ltac:(discriminate) eq_refl)).
Defined.

(** ** Reading the history and the calendar *)

Lemma watched_loop {S} (imdb_id : option string) (rows : show -> list json)
    (xs : list show) : forall (acc : list json) (s : S),
  for_each xs acc (fun results x =>
                     if skipped imdb_id x then ret results
                     else ret (results ++ rows x)) s
  = (Ok (acc ++ List.flat_map rows (kept imdb_id xs)), s).
Proof.
  induction xs as [|x xs IH]; intros acc s; simpl.
  - rewrite app_nil_r. reflexivity.
  - unfold bind, kept. simpl. destruct (skipped imdb_id x); simpl.
    + apply IH.
    + rewrite (IH (acc ++ rows x) s). unfold kept. rewrite <- app_assoc. reflexivity.
Qed.

Lemma kept_imdb (id : string) (xs : list show) :
  Forall (fun x => key_imdb x = Some id) (kept (Some id) xs).
Proof.
  unfold kept. apply List.Forall_forall. intros x Hx.
  apply List.filter_In in Hx. destruct Hx as [_ Hk].
  unfold skipped, option_string_eqb in Hk. rewrite negb_involutive in Hk.
  destruct (key_imdb x) as [k|]; [|discriminate].
  apply String.eqb_eq in Hk. congruence.
Qed.

(** X12: [get_watched_shows] and [get_watched_movies] make one call
    and change nothing else.  Without an answer from the service
    they return the empty list.  With one, they return, in the
    service's order, one row for each episode key of each show kept
    (one row for each movie kept): without an imdb id every show is
    kept, with one exactly the shows whose imdb key is that id, so
    that every row returned then carries that id, and a show
    without imdb key is never returned. *)
Theorem watched_for_imdb (imdb_id : option string) (x : session) :
  get_watched_shows imdb_id x
  = (Ok (match sync_watched_shows (reads x) with
         | None => []
         | Some xs =>
             List.flat_map (fun s => watched_episode_row s <$> episodes s)
                           (kept imdb_id xs)
         end),
     called WatchedShows x)
  /\ get_watched_movies imdb_id x
     = (Ok (match sync_watched_movies (reads x) with
            | None => []
            | Some xs => watched_movie_row <$> kept imdb_id xs
            end),
        called WatchedMovies x)
  /\ (forall xs, kept None xs = xs)
  /\ (forall id xs s,
        In s (kept (Some id) xs) <-> In s xs /\ key_imdb s = Some id)
  /\ (forall id xs row,
        In row (List.flat_map (fun s => watched_episode_row s <$> episodes s)
                              (kept (Some id) xs)) ->
        exists t season episode,
          row = JDict [("title", t); ("imdb_url", JStr id);
                       ("season", JInt season); ("episode", JInt episode)]).
Proof.
  split; [|split; [|split; [|split]]].
  - unfold get_watched_shows, bind, note, modify, gets. simpl.
    destruct (sync_watched_shows (reads x)) as [xs|]; [|reflexivity].
    rewrite (watched_loop imdb_id (fun s => watched_episode_row s <$> episodes s)).
    reflexivity.
  - unfold get_watched_movies, bind, note, modify, gets. simpl.
    destruct (sync_watched_movies (reads x)) as [xs|]; [|reflexivity].
    rewrite (watched_loop imdb_id (fun s => [watched_movie_row s])). simpl.
    assert (Hmap : forall l : list show,
               List.flat_map (fun s => [watched_movie_row s]) l
               = watched_movie_row <$> l).
    { induction l as [|s l IH]; [reflexivity|]. simpl. rewrite IH. reflexivity. }
    rewrite Hmap. reflexivity.
  - intros xs. unfold kept. induction xs as [|s xs IH]; [reflexivity|].
    simpl. f_equal. exact IH.
  - intros id xs s. unfold kept. rewrite List.filter_In.
    unfold skipped, option_string_eqb. rewrite negb_involutive.
    split; intros [Hin Hk]; (split; [exact Hin|]).
    + destruct (key_imdb s) as [k|]; [|discriminate].
      apply String.eqb_eq in Hk. congruence.
    + rewrite Hk. apply String.eqb_refl.
  - intros id xs row Hrow. apply in_flat_map in Hrow.
    destruct Hrow as (s & Hs & Hrow).
    pose proof (kept_imdb id xs) as Hall.
    rewrite List.Forall_forall in Hall. specialize (Hall s Hs).
    apply list_elem_of_In, list_elem_of_fmap in Hrow.
    destruct Hrow as ([season episode] & -> & _).
    unfold watched_episode_row. rewrite Hall. simpl. eauto.
Qed.

Lemma watched_for_imdb_witness :
  get_watched_shows (Some "tt0411008") (MoreSamples.sitting MoreSamples.finding)
  = (Ok [JDict [("title", JStr "Lost"); ("imdb_url", JStr "tt0411008");
                ("season", JInt 2); ("episode", JInt 5)]],
     called WatchedShows (MoreSamples.sitting MoreSamples.finding)).
Proof.
  exact (proj1 (watched_for_imdb (Some "tt0411008")
                  (MoreSamples.sitting MoreSamples.finding))).
Defined.

Section CalendarFacts.
Context {calendar : Calendar}.

Lemma calendar_loop (d : Z) (eps : list cal_episode) :
  Forall (fun e => is_Some (first_aired e)) eps ->
  forall (acc : list json) (s : session),
    for_each eps acc (calendar_body d) s = (Ok (acc ++ window_rows d eps), s).
Proof.
  induction eps as [|e eps IH]; intros Hall acc s.
  - simpl. unfold window_rows. simpl. rewrite app_nil_r. reflexivity.
  - inversion Hall as [|? ? [a Ha] Hrest]; subst.
    simpl. unfold bind, calendar_body at 1. rewrite Ha.
    unfold window_rows, in_window. simpl. rewrite Ha.
    rewrite (Z.ltb_antisym a (d + 90)).
    destruct (a <=? d + 90)%Z; simpl; rewrite (IH Hrest).
    + unfold window_rows, in_window. rewrite Ha, <- app_assoc. reflexivity.
    + reflexivity.
Qed.

Lemma calendar_loop_raises (d : Z) (eps : list cal_episode) :
  Exists (fun e => first_aired e = None) eps ->
  forall (acc : list json) (s : session),
    for_each eps acc (calendar_body d) s = (Raise (AttributeError "date"), s).
Proof.
  induction eps as [|e eps IH]; intros Hex acc s; [inversion Hex|].
  simpl. unfold bind, calendar_body at 1.
  destruct (first_aired e) as [a|] eqn:Ha; [|reflexivity].
  inversion Hex as [? ? Hnone|? ? Hrest]; subst; [congruence|].
  destruct (d + 90 <? a)%Z; simpl; apply (IH Hrest).
Qed.

(** X13: [get_trakt_cal_episode] makes one call and changes nothing
    else.  Without a calendar it returns the empty list.  When every
    episode of the calendar has its first airing, it returns, in the
    calendar's order, a row for each episode that airs no later than
    ninety days after today and for no other: nothing is left out for
    airing in the past.  When one episode has no first airing the
    method raises, whatever the others are. *)
Theorem calendar_window (x : session) :
  (calendars_my (reads x) = None ->
   get_trakt_cal_episode x = (Ok [], called CalendarGet x))
  /\ (forall eps,
        calendars_my (reads x) = Some eps ->
        Forall (fun e => is_Some (first_aired e)) eps ->
        get_trakt_cal_episode x
        = (Ok (window_rows (today (reads x)) eps), called CalendarGet x))
  /\ (forall eps,
        calendars_my (reads x) = Some eps ->
        Exists (fun e => first_aired e = None) eps ->
        get_trakt_cal_episode x
        = (Raise (AttributeError "date"), called CalendarGet x))
  /\ (forall d eps row,
        In row (window_rows d eps) <->
        exists e a, In e eps /\ first_aired e = Some a /\ (a <= d + 90)%Z
                    /\ row = calendar_row e a).
Proof.
  split; [|split; [|split]].
  - intros Hnone. unfold get_trakt_cal_episode, get_calendar, bind, note, modify, gets.
    simpl. rewrite Hnone. reflexivity.
  - intros eps Hcal Hall.
    unfold get_trakt_cal_episode, get_calendar, bind, note, modify, gets.
    simpl. rewrite Hcal.
    exact (calendar_loop (today (reads x)) eps Hall [] _).
  - intros eps Hcal Hex.
    unfold get_trakt_cal_episode, get_calendar, bind, note, modify, gets.
    simpl. rewrite Hcal.
    exact (calendar_loop_raises (today (reads x)) eps Hex [] _).
  - intros d eps row. unfold window_rows.
    rewrite <- list_elem_of_In, list_elem_of_fmap. split.
    + intros (e & -> & He). apply list_elem_of_In, List.filter_In in He.
      destruct He as [Hin Hw]. unfold in_window in Hw.
      destruct (first_aired e) as [a|] eqn:Ha; [|discriminate].
      exists e, a. repeat split; try assumption. apply Z.leb_le. exact Hw.
    + intros (e & a & Hin & Ha & Hle & ->). exists e. rewrite Ha. split; [reflexivity|].
      apply list_elem_of_In, List.filter_In. split; [exact Hin|].
      unfold in_window. rewrite Ha. apply Z.leb_le. exact Hle.
Qed.

End CalendarFacts.

Lemma calendar_window_witness :
  @get_trakt_cal_episode MoreSamples.plain_calendar
    (MoreSamples.sitting MoreSamples.finding)
  = (Ok [JDict [("show", JStr "Lost"); ("link", JStr "tt0411008");
                ("season", JInt 3); ("episode", JInt 1); ("ep_link", JNull);
                ("airdate", JStr "739000")]],
     called CalendarGet (MoreSamples.sitting MoreSamples.finding)).
Proof.
  apply (proj1 (proj2 (@calendar_window MoreSamples.plain_calendar
                         (MoreSamples.sitting MoreSamples.finding)))
           _ eq_refl).
  repeat constructor; eexists; reflexivity.
Defined.

(** ** The sync script with its flag off *)

Lemma for_each_added {A} (P : event -> Prop) (xs : list A)
    (body : unit -> A -> M (list event) unit) :
  (forall x l, In x xs ->
               exists added, snd (body tt x l) = l ++ added /\ Forall P added) ->
  forall l,
    exists added, snd (for_each xs tt body l) = l ++ added /\ Forall P added.
Proof.
  induction xs as [|x xs IH]; intros Hb l; simpl.
  - exists []. rewrite app_nil_r. split; [reflexivity|constructor].
  - unfold bind.
    destruct (Hb x l (or_introl eq_refl)) as (a1 & H1 & P1).
    destruct (body tt x l) as [[[]|e|] l1]; simpl in H1; subst l1;
      try (exists a1; split; [reflexivity|exact P1]).
    destruct (IH (fun y l' Hy => Hb y l' (or_intror Hy)) (l ++ a1)) as (a2 & H2 & P2).
    exists (a1 ++ a2). rewrite H2, <- app_assoc. split; [reflexivity|].
    apply Forall_app. split; assumption.
Qed.

Lemma gt_irreflexive a : gt a a = false.
Proof.
  destruct (gt a a) eqn:E; [|reflexivity].
  pose proof (proj1 (gt_compare a a) E) as H1.
  pose proof (proj1 (gt_compare_lt a a) E) as H2. congruence.
Qed.

Lemma sync_table_sound dry srv0 srv1 (lm0 lm1 : gmap string string) table l :
  exists added,
    snd (sync_table dry srv0 srv1 lm0 lm1 table l) = l ++ added
    /\ Forall (sound srv0 srv1 lm0 lm1) added.
Proof.
  unfold sync_table, transfer, bind, send, getitem, modify, ret, raise.
  destruct (lm0 !! table) as [mod0|] eqn:H0; simpl;
    [|exists [PrintTable table]; split; [reflexivity|repeat constructor]].
  destruct (lm1 !! table) as [mod1|] eqn:H1; simpl;
    [|exists [PrintTable table]; split; [reflexivity|repeat constructor]].
  destruct (gt mod0 mod1) eqn:G0; destruct (gt mod1 mod0) eqn:G1;
    destruct dry; simpl;
    destruct (entry_map !! table) as [key|] eqn:Hk; simpl;
    rewrite <- ?app_assoc; simpl;
    (eexists; split; [reflexivity|]);
    repeat (apply List.Forall_cons || apply List.Forall_nil);
    simpl; eauto 12.
Qed.

(** X14: whatever the flag is and however the run ends, the script
    asks a side only for its rows since the other side's timestamp
    when its own is strictly greater, and posts to a side only, for a
    table of [entry_map] and under that table's key, the rows the
    other side answered since the receiving side's own, strictly
    smaller timestamp. *)
Theorem sync_db_sound (dry : bool) (srv0 srv1 : server) (l : list event) :
  let lm0 := by_table (last_modified srv0) in
  let lm1 := by_table (last_modified srv1) in
  exists added,
    snd (sync_db_with dry srv0 srv1 l) = l ++ added
    /\ Forall (sound srv0 srv1 lm0 lm1) added.
Proof.
  intros lm0 lm1. unfold sync_db_with.
  unfold bind at 1. unfold send at 1, modify.
  unfold bind at 1. unfold send at 1, modify.
  unfold bind at 1. unfold send at 1, modify.
  unfold bind at 1. unfold send at 1, modify.
  fold lm0. fold lm1.
  destruct (for_each_added (sound srv0 srv1 lm0 lm1)
              (elements (dom lm0 ∩ dom lm1))
              (fun _ table => sync_table dry srv0 srv1 lm0 lm1 table)
              (fun x l' _ => sync_table_sound dry srv0 srv1 lm0 lm1 x l')
              ((((l ++ [PostAuth Endpoint0]) ++ [PostAuth Endpoint1])
                ++ [GetLastModified Endpoint0]) ++ [GetLastModified Endpoint1]))
    as (added & Hadd & Hsound).
  exists (preamble ++ added). rewrite Hadd. unfold preamble.
  rewrite <- !app_assoc. split; [reflexivity|].
  apply Forall_app. split; [repeat constructor|exact Hsound].
Qed.

Lemma sync_table_off srv0 srv1 (lm0 lm1 : gmap string string) table l :
  is_Some (lm0 !! table) -> is_Some (lm1 !! table) ->
  (unmapped lm0 lm1 table ->
   fst (sync_table false srv0 srv1 lm0 lm1 table l) = Raise (KeyError table))
  /\ (~ unmapped lm0 lm1 table ->
      fst (sync_table false srv0 srv1 lm0 lm1 table l) = Ok tt).
Proof.
  intros [mod0 H0] [mod1 H1].
  unfold sync_table, transfer, bind, send, getitem, modify, ret, raise.
  rewrite H0, H1. simpl.
  destruct (String.compare mod0 mod1) eqn:Hcmp.
  - apply String.compare_eq_iff in Hcmp. subst mod1.
    rewrite gt_irreflexive. simpl. split; [|reflexivity].
    intros (_ & m0 & m1 & E0 & E1 & Hne). congruence.
  - assert (G0 : gt mod0 mod1 = false).
    { destruct (gt mod0 mod1) eqn:E; [apply gt_compare in E; congruence|reflexivity]. }
    assert (G1 : gt mod1 mod0 = true) by (apply gt_compare_lt; exact Hcmp).
    rewrite G0, G1. simpl.
    destruct (entry_map !! table) as [key|] eqn:Hk; simpl.
    + split; [|reflexivity]. intros (Hnone & _). congruence.
    + split; [reflexivity|]. intros Hno. exfalso. apply Hno.
      split; [exact Hk|]. exists mod0, mod1. repeat split; try assumption.
      intros ->. rewrite gt_irreflexive in G1. discriminate.
  - assert (G0 : gt mod0 mod1 = true) by (apply gt_compare; exact Hcmp).
    assert (G1 : gt mod1 mod0 = false).
    { destruct (gt mod1 mod0) eqn:E; [apply gt_compare_lt in E; congruence|reflexivity]. }
    rewrite G0. simpl.
    destruct (entry_map !! table) as [key|] eqn:Hk; simpl.
    + rewrite G1. split; [|reflexivity]. intros (Hnone & _). congruence.
    + split; [reflexivity|]. intros Hno. exfalso. apply Hno.
      split; [exact Hk|]. exists mod0, mod1. repeat split; try assumption.
      intros ->. rewrite gt_irreflexive in G0. discriminate.
Qed.

Lemma classic_unmapped (lm0 lm1 : gmap string string) (t : string) :
  unmapped lm0 lm1 t \/ ~ unmapped lm0 lm1 t.
Proof.
  unfold unmapped.
  destruct (entry_map !! t) as [k|]; [right; intros [H _]; discriminate|].
  destruct (lm0 !! t) as [m0|];
    [|right; intros (_ & a & b & H & _); discriminate].
  destruct (lm1 !! t) as [m1|];
    [|right; intros (_ & a & b & _ & H & _); discriminate].
  destruct (decide (m0 = m1)) as [->|Hne].
  - right. intros (_ & a & b & [= <-] & [= <-] & H). congruence.
  - left. split; [reflexivity|]. exists m0, m1. auto.
Qed.

Lemma for_each_off srv0 srv1 (lm0 lm1 : gmap string string) (xs : list string) :
  (forall t, In t xs -> is_Some (lm0 !! t) /\ is_Some (lm1 !! t)) ->
  forall l,
    (Exists (unmapped lm0 lm1) xs ->
     exists t, unmapped lm0 lm1 t
               /\ fst (for_each xs tt (fun _ table =>
                         sync_table false srv0 srv1 lm0 lm1 table) l)
                  = Raise (KeyError t))
    /\ (~ Exists (unmapped lm0 lm1) xs ->
        fst (for_each xs tt (fun _ table =>
               sync_table false srv0 srv1 lm0 lm1 table) l) = Ok tt).
Proof.
  induction xs as [|x xs IH]; intros Hin l.
  - split; [intros Hex; inversion Hex|reflexivity].
  - destruct (Hin x (or_introl eq_refl)) as [H0 H1].
    destruct (sync_table_off srv0 srv1 lm0 lm1 x l H0 H1) as [Hbad Hgood].
    destruct (IH (fun t Ht => Hin t (or_intror Ht))) with
      (l := snd (sync_table false srv0 srv1 lm0 lm1 x l)) as [IHbad IHgood].
    simpl. unfold bind.
    destruct (sync_table false srv0 srv1 lm0 lm1 x l) as [[[]|e|] l1] eqn:Hrun;
      simpl in *.
    + assert (Hx : ~ unmapped lm0 lm1 x).
      { intros Hu. specialize (Hbad Hu). discriminate. }
      split.
      * intros Hex. apply IHbad. inversion Hex; subst; [contradiction|assumption].
      * intros Hno. apply IHgood. intros Hex. apply Hno. right. exact Hex.
    + assert (Hx : unmapped lm0 lm1 x).
      { destruct (classic_unmapped lm0 lm1 x) as [Hu|Hu]; [exact Hu|].
        specialize (Hgood Hu). discriminate. }
      split.
      * intros _. exists x. split; [exact Hx|]. rewrite (Hbad Hx) in *.
        reflexivity.
      * intros Hno. exfalso. apply Hno. left. exact Hx.
    + exfalso.
      destruct (classic_unmapped lm0 lm1 x) as [Hu|Hu];
        [specialize (Hbad Hu)|specialize (Hgood Hu)]; discriminate.
Qed.

(** X15: with the flag off, the script runs to its end exactly when
    every table that both sides list with different timestamps is one
    of [entry_map]; when one is not, the run raises [KeyError] for
    such a table. *)
Theorem sync_db_off (srv0 srv1 : server) (l : list event) :
  let lm0 := by_table (last_modified srv0) in
  let lm1 := by_table (last_modified srv1) in
  ((exists table, unmapped lm0 lm1 table) ->
   exists t, unmapped lm0 lm1 t
             /\ fst (sync_db_with false srv0 srv1 l) = Raise (KeyError t))
  /\ ((forall table, ~ unmapped lm0 lm1 table) ->
      fst (sync_db_with false srv0 srv1 l) = Ok tt).
Proof.
  intros lm0 lm1.
  assert (Hin : forall t, In t (elements (dom lm0 ∩ dom lm1)) ->
                          is_Some (lm0 !! t) /\ is_Some (lm1 !! t)).
  { intros t Ht. apply list_elem_of_In, elem_of_elements, elem_of_intersection in Ht.
    destruct Ht as [Ht0 Ht1]. apply elem_of_dom in Ht0, Ht1. split; assumption. }
  assert (Hrun : forall l0,
             fst (sync_db_with false srv0 srv1 l0)
             = fst (for_each (elements (dom lm0 ∩ dom lm1)) tt
                      (fun _ table => sync_table false srv0 srv1 lm0 lm1 table)
                      ((((l0 ++ [PostAuth Endpoint0]) ++ [PostAuth Endpoint1])
                        ++ [GetLastModified Endpoint0])
                       ++ [GetLastModified Endpoint1]))).
  { intros l0. reflexivity. }
  rewrite Hrun.
  destruct (for_each_off srv0 srv1 lm0 lm1 (elements (dom lm0 ∩ dom lm1)) Hin
              ((((l ++ [PostAuth Endpoint0]) ++ [PostAuth Endpoint1])
                ++ [GetLastModified Endpoint0]) ++ [GetLastModified Endpoint1]))
    as [Hbad Hgood].
  split.
  - intros [table Hu]. apply Hbad. apply List.Exists_exists. exists table.
    split; [|exact Hu].
    destruct Hu as (_ & m0 & m1 & H0 & H1 & _).
    apply list_elem_of_In, elem_of_elements, elem_of_intersection.
    split; apply elem_of_dom; eauto.
  - intros Hnone. apply Hgood. intros Hex. apply List.Exists_exists in Hex.
    destruct Hex as (t & _ & Hu). exact (Hnone t Hu).
Qed.

Lemma sync_db_off_witness :
  exists t,
    unmapped (by_table (last_modified MoreSamples.www_more))
             (by_table (last_modified Samples.cloud)) t
    /\ fst (sync_db_with false MoreSamples.www_more Samples.cloud [])
       = Raise (KeyError t).
Proof.
  apply (proj1 (sync_db_off MoreSamples.www_more Samples.cloud [])).
  exists "music_key". split; [reflexivity|].
  exists "2024-04-01T00:00:00Z", "2024-03-01T00:00:00Z".
  repeat split; try reflexivity. discriminate.
Defined.

(** ** Removing episodes, and the watchlist *)

(** X16: [remove_episode_to_watched] with an imdb id that is found.
    With a season and an episode that are not zero, the episode is
    looked up: when it exists it is removed by one request, when it
    does not the method raises.  With a season that is not zero and
    an episode that is [None] or zero, the whole season is removed by
    one request, also when the season is empty, and the method raises
    when the service has no such season.  With a season that is
    [None] or zero nothing is asked or removed and [None] is
    returned. *)
Theorem remove_episode_by_imdb_found (x : session) (show' : option string) (id : string)
    (m : media) (season episode : option Z) :
  String.eqb id "" = false ->
  first_found (search_lookup (service (env (inner x))) id) = Some m ->
  let sv := service (env (inner x)) in
  let sn := default 0%Z season in
  let ep := default 0%Z episode in
  remove_episode_to_watched show' (Some id) season episode x
  = if truthy_int season && truthy_int episode then
      match shows_episode sv (get_key_imdb m) sn ep with
      | Some e =>
          (Ok (history_remove (reads x) (episodes_items [e])),
           went [SearchLookup id; ShowsEpisode (get_key_imdb m) sn ep]
                [Printed (PMedia e); HistoryRemove (episodes_items [e])] x)
      | None =>
          (Raise (AttributeError "to_dict"),
           went [SearchLookup id; ShowsEpisode (get_key_imdb m) sn ep] [] x)
      end
    else if truthy_int season then
      match shows_season sv (get_key_imdb m) sn with
      | Some es =>
          (Ok (history_remove (reads x) (episodes_items es)),
           went [SearchLookup id; ShowsSeason (get_key_imdb m) sn]
                [PrintedEpisodes (to_dict <$> es); HistoryRemove (episodes_items es)] x)
      | None =>
          (Raise TypeError, went [SearchLookup id; ShowsSeason (get_key_imdb m) sn] [] x)
      end
    else (Ok JNull, went [SearchLookup id] [] x).
Proof.
  intros Hid Hm sv sn ep. subst sv sn ep.
  unfold remove_episode_to_watched.
  unfold bind at 1. unfold inside at 1.
  rewrite (lookup_by_imdb (inner x) show' id Hid).
  destruct x as [[[f h sv l] i] rd cs]. cbn [service env inner] in *.
  assert (Hobj : as_obj (search_lookup sv id) = PMedia m
                 \/ exists rest, as_obj (search_lookup sv id) = PList (m :: rest)).
  { destruct (search_lookup sv id) as [|m'|[|m' rest]]; simpl in Hm;
      try discriminate; injection Hm as ->; [left|right; eexists]; reflexivity. }
  destruct (truthy_int season && truthy_int episode);
    [|destruct (truthy_int season)];
    destruct Hobj as [Ho | [rest Ho]]; simpl; rewrite Ho;
    unfold went, logged, sync_history_remove, inside, note, bind, lift, emit, modify,
      gets, ret, raise, episodes_items; simpl;
    rewrite ?app_nil_r;
    try reflexivity;
    try (destruct (shows_episode sv (get_key_imdb m) (default 0%Z season)
                     (default 0%Z episode)); simpl;
         rewrite <- ?app_assoc, ?app_nil_r; reflexivity);
    try (destruct (shows_season sv (get_key_imdb m) (default 0%Z season));
         simpl; rewrite <- ?app_assoc, ?app_nil_r; reflexivity).
Qed.

Lemma remove_episode_by_imdb_found_witness :
  remove_episode_to_watched None (Some "tt0306414") (Some 1%Z) (Some 1%Z)
    (MoreSamples.sitting MoreSamples.finding)
  = (Ok (JDict [("deleted", JInt 1)]),
     went [SearchLookup "tt0306414"; ShowsEpisode (Some "tt0306414") 1 1]
          [Printed (PMedia MoreSamples.pilot);
           HistoryRemove (episodes_items [MoreSamples.pilot])]
          (MoreSamples.sitting MoreSamples.finding)).
Proof.
  apply (remove_episode_by_imdb_found (MoreSamples.sitting MoreSamples.finding)
           None "tt0306414" MoreSamples.the_wire (Some 1%Z) (Some 1%Z)); reflexivity.
Defined.

Section WatchlistFacts.
Context {calendar : Calendar}.

(** X17: [get_watchlist_shows] makes one call and changes nothing
    else; it returns the empty list when the service answers nothing
    and otherwise one row for each show, in the service's order.  A
    row never lacks its year: it is the show's own when it has one,
    also when that is zero, and this year's otherwise. *)
Theorem watchlist_rows (x : session) :
  exists rows,
    get_watchlist_shows x = (Ok rows, called WatchlistShows x)
    /\ length rows = match sync_watchlist_shows (reads x) with
                     | Some xs => length xs
                     | None => O
                     end
    /\ (forall n s,
          sync_watchlist_shows (reads x) = Some s ->
          forall w, s !! n = Some w ->
          exists y,
            rows !! n = Some (JDict [("link", py_str (key_imdb w)); ("title", title w);
                                     ("year", JInt y)])
            /\ (forall y', year w = Some y' -> y = y')
            /\ (year w = None -> y = year_of (today (reads x)))).
Proof.
  unfold get_watchlist_shows, bind, note, modify, gets, ret. simpl.
  destruct (sync_watchlist_shows (reads x)) as [xs|].
  - eexists. split; [reflexivity|]. split; [apply length_fmap|].
    intros n s [= <-] w Hw.
    exists (match year w with Some y => y | None => year_of (today (reads x)) end).
    split.
    + rewrite list_lookup_fmap, Hw. reflexivity.
    + split; [intros y' ->; reflexivity|intros ->; reflexivity].
  - exists []. split; [reflexivity|]. split; [reflexivity|]. intros n s H. discriminate.
Qed.

End WatchlistFacts.

Lemma watchlist_rows_witness :
  exists y,
    snd <$> (match fst (@get_watchlist_shows MoreSamples.plain_calendar
                          (MoreSamples.sitting MoreSamples.finding)) with
             | Ok (JDict d :: _) => last d
             | _ => None
             end) = Some (JInt y)
    /\ y = @year_of MoreSamples.plain_calendar 739010%Z.
Proof.
  destruct (@watchlist_rows MoreSamples.plain_calendar
              (MoreSamples.sitting MoreSamples.finding)) as (rows & Hrun & _ & Hrow).
  destruct (Hrow 0%nat _ eq_refl MoreSamples.wire_show eq_refl) as (y & Hy & _ & Hnone).
  exists y. rewrite Hrun. simpl.
  destruct rows as [|r rows]; [discriminate|]. simpl in Hy. injection Hy as ->.
  split; [reflexivity|]. apply Hnone. reflexivity.
Defined.

(** ** A call that finds the lock taken *)

Section TurnedAway.
Context {codec : Codec}.

(** X18: a call to [authenticate] made while another thread holds the
    lock is turned away at once: it answers [False] and prints its
    message, and that is all; no device code is asked for, no poller
    is started, no file is written, and the instance, its lock
    included, is as it was. *)
Theorem call_turned_away (t t' : thread) (k : nat) (s : state) :
  owner (is_authenticating (self s)) = Some (t', k) ->
  thread_eqb t t' = false ->
  exists s',
    authenticate t s = (Ok false, s')
    /\ log (env s') = log (env s) ++ [Print AlreadyStarted]
    /\ count_codes (log (env s')) = count_codes (log (env s))
    /\ count_pollers (log (env s')) = count_pollers (log (env s))
    /\ files (env s') = files (env s)
    /\ self s' = self s.
Proof.
  intros Hown Hne.
  rewrite (authenticate_rejected t t' k s Hown Hne).
  eexists. split; [reflexivity|].
  destruct s as [[f h sv l] i]. simpl.
  unfold count_codes, count_pollers. rewrite !List.filter_app. simpl.
  rewrite !app_nil_r. repeat split; reflexivity.
Qed.

End TurnedAway.

Lemma call_turned_away_witness :
  exists s',
    @authenticate reference (Main 1)
      (Handshake.state_of Samples.home_files (Some "/home/u") Samples.approving
         "ddboline" "xyz" "s3cret" [] (Some (Main 0, 1%nat)) [] JNull)
    = (Ok false, s')
    /\ log (env s') = [Print AlreadyStarted].
Proof.
  destruct (@call_turned_away reference (Main 1) (Main 0) 1
              (Handshake.state_of Samples.home_files (Some "/home/u") Samples.approving
                 "ddboline" "xyz" "s3cret" [] (Some (Main 0, 1%nat)) [] JNull))
    as (s' & H1 & H2 & _).
  - reflexivity.
  - reflexivity.
  - exists s'. split; [exact H1 | exact H2].
Defined.
